(** * The rate-limited, cached, fallback-chaining search tool

    A shallow embedding of [tools.py] (the functions [fallback_search],
    [optimize_search_query] and the class [RateLimitedSearchTool]) and of the
    class [RateLimitedAgentExecutor] of [main.py].

    Conventions.
    - A Python [str] is the list of its code points ([pystr]); [len] is
      [length], concatenation and f-strings are [++].
    - [time.time()] and the durations handed to [time.sleep] are rationals:
      the floating point numbers of the source are idealised as exact.
    - The outside world (the clock, the module level cache, the class level
      time stamp, what was printed, and how many times each external service
      was asked) is an explicit [world] record threaded through every call.
    - External services ([search_runner.run], [wikipedia.run],
      [random.random]) are oracles: the n-th request to a service, made with
      a given argument, has a given outcome.  The wrapped [AgentExecutor] is
      an arbitrary computation on the world.
    - An outcome is a returned value or a raised exception.  Only exceptions
      deriving from Python's [Exception] are modelled.
    - The calls are modelled twice.  First on a platform without limits,
      where [print] appends to the trace and does not fail and [time.sleep]
      takes every duration that is not negative: what the retry loop, the
      gates and the cache do is stated there.  Then, in [Limited], on a
      platform with Python's limits, where [print] raises
      [UnicodeEncodeError] for a text that [sys.stdout] cannot encode and
      [time.sleep] and the floats raise [OverflowError] beyond their range:
      what a call promises to return is stated there.  The two agree as
      long as no limit is met. *)

From Stdlib Require Import ZArith QArith Lqa Lia List String Ascii Bool.
From stdpp Require Import gmap list.
Import ListNotations.

From Stdlib Require Import DecimalString Qabs.

Local Open Scope Z_scope.
Local Open Scope list_scope.

(** ** Python strings *)

Abbreviation pystr := (list N).

(** A literal of the source, written in ASCII. *)
Definition s_ (s : string) : pystr := map N_of_ascii (list_ascii_of_string s).

Module Str.

(** [str.isspace] on one code point: the Unicode white space characters. *)
Definition isspace (c : N) : bool :=
  ((9 <=? c) && (c <=? 13) || (28 <=? c) && (c <=? 32)
   || (c =? 133) || (c =? 160) || (c =? 5760)
   || (8192 <=? c) && (c <=? 8202)
   || (c =? 8232) || (c =? 8233) || (c =? 8239) || (c =? 8287)
   || (c =? 12288))%N.

(** [str.split()] without argument: the maximal runs of non-space code
    points, in order; never an empty word. *)
Fixpoint split (s : pystr) : list pystr :=
  match s with
  | [] => []
  | c :: rest =>
      if isspace c then split rest
      else match rest with
           | [] => [[c]]
           | d :: _ =>
               if isspace d then [c] :: split rest
               else match split rest with
                    | w :: ws => (c :: w) :: ws
                    | [] => [[c]]
                    end
           end
  end.

(** [sep.join(words)]. *)
Fixpoint join (sep : pystr) (words : list pystr) : pystr :=
  match words with
  | [] => []
  | [w] => w
  | w :: ws => w ++ sep ++ join sep ws
  end.

(** [str.lower] on one code point.  Only the ASCII capitals are mapped: the
    result is compared with ASCII words made of the letters
    a b d e f h i n o r s t u w only, and no code point outside ASCII
    lowercases to a string of such letters, so the comparison is the one
    Python makes. *)
Definition lower_char (c : N) : N :=
  if ((65 <=? c) && (c <=? 90))%N then (c + 32)%N else c.

Definition lower (s : pystr) : pystr := map lower_char s.

(** [x in xs] for a list of strings. *)
Definition mem (x : pystr) (xs : list pystr) : bool :=
  existsb (fun y => bool_decide (x = y)) xs.

(** [s.startswith(p)]. *)
Fixpoint startswith (p s : pystr) : bool :=
  match p, s with
  | [], _ => true
  | _ :: _, [] => false
  | a :: p', b :: s' => (a =? b)%N && startswith p' s'
  end.

(** [sub in s] for strings: [sub] occurs in [s] as a contiguous slice. *)
Fixpoint contains (sub s : pystr) : bool :=
  startswith sub s ||
  match s with
  | [] => false
  | _ :: s' => contains sub s'
  end.

End Str.

(** ** [optimize_search_query] *)

Definition filler_words : list pystr :=
  map s_ ["the"; "a"; "an"; "and"; "or"; "but"; "in"; "on"; "at"; "to";
          "for"; "with"; "about"; "is"; "are"]%string.

(** The test of the list comprehension:
    [len(w) > 2 and w.lower() not in filler_words]. *)
Definition important (w : pystr) : bool :=
  (2 <? Z.of_nat (length w)) && negb (Str.mem (Str.lower w) filler_words).

Definition optimize_search_query (query : pystr) : pystr :=
  let words := Str.split query in
  if 8 <? Z.of_nat (length words) then
    let important_words := List.filter important words in
    if 3 <? Z.of_nat (length important_words) then
      Str.join (s_ " ") important_words
    else query
  else query.

(** ** Outcomes, the world, and the effect monad *)

(** What an [except] clause can tell apart: [DuckDuckGoSearchException]
    (the class and its subclasses) from every other [Exception].  The
    argument is [str(e)]. *)
Inductive exn :=
| DuckDuckGoSearchException (msg : pystr)
| Exception (msg : pystr).

Definition str_exn (e : exn) : pystr :=
  match e with DuckDuckGoSearchException m | Exception m => m end.

Inductive outcome (A : Type) :=
| Ret (a : A)
| Raise (e : exn).
Arguments Ret {A} a.
Arguments Raise {A} e.

(** What [print] is called with; numbers are kept unformatted. *)
Inductive message :=
| UsingCached (query : pystr)
| SearchCooldown (delay_time : Q)
| OptimizedQuery (query optimized_query : pystr)
| UsingCachedOptimized (optimized_query : pystr)
| RetryingIn (backoff_time : Q) (attempt max_retries : Z)
| SwitchingToFallback
| RateLimitingWait (sleep_time : Q).

(** The effects a call leaves behind, in program order. *)
Inductive event :=
| Print (m : message)
| Sleep (seconds : Q)
| Search (query : pystr)
| Wikipedia (query : pystr).

Record world := World {
  clock : Q;                            (* what time.time() returns *)
  _search_cache : gmap pystr pystr;     (* tools._search_cache *)
  _last_search_time : Q;                (* RateLimitedSearchTool._last_search_time *)
  searches : nat;                       (* requests made to a search runner *)
  lookups : nat;                        (* requests made to wikipedia.run *)
  draws : nat;                          (* calls of random.random *)
  trace : list event
}.

(** The state the module has right after import. *)
Definition boot (now : Q) : world :=
  World now ∅ 0 0 0 0 [].

Definition M (A : Type) : Type := world -> outcome A * world.

Definition ret {A} (a : A) : M A := fun w => (Ret a, w).

Definition bind {A B} (m : M A) (k : A -> M B) : M B :=
  fun w => match m w with
           | (Ret a, w') => k a w'
           | (Raise e, w') => (Raise e, w')
           end.

Notation "'let*' x ':=' m 'in' k" := (bind m (fun x => k))
  (at level 10, x name, m at level 100, k at level 200).
Notation "'exec' m 'in' k" := (bind m (fun _ => k))
  (at level 10, m at level 100, k at level 200).

(** [try: body  except E as e: handler e]; an exception raised by the handler
    itself propagates. *)
Definition try_except {A} (body : M A) (handler : exn -> M A) : M A :=
  fun w => match body w with
           | (Ret a, w') => (Ret a, w')
           | (Raise e, w') => handler e w'
           end.

Definition Qltb (x y : Q) : bool := negb (Qle_bool y x).

Definition log (e : event) (w : world) : world :=
  World (clock w) (_search_cache w) (_last_search_time w)
        (searches w) (lookups w) (draws w) (trace w ++ [e]).

(** [print] where [sys.stdout] writes every text; for a stream that cannot,
    and for the range of [time.sleep], see [Limited]. *)
Definition print (m : message) : M unit :=
  fun w => (Ret tt, log (Print m) w).

Definition time_time : M Q := fun w => (Ret (clock w), w).

(** [time.sleep]: a negative duration is a [ValueError]; otherwise the
    thread is blocked for that long. *)
Definition time_sleep (seconds : Q) : M unit :=
  fun w =>
    if Qltb seconds 0 then
      (Raise (Exception (s_ "sleep length must be non-negative")), w)
    else
      (Ret tt,
       World (clock w + seconds) (_search_cache w) (_last_search_time w)
             (searches w) (lookups w) (draws w) (trace w ++ [Sleep seconds])).

Definition cache_get (key : pystr) : M (option pystr) :=
  fun w => (Ret (_search_cache w !! key), w).

Definition cache_set (key value : pystr) : M unit :=
  fun w =>
    (Ret tt,
     World (clock w) (<[key := value]> (_search_cache w)) (_last_search_time w)
           (searches w) (lookups w) (draws w) (trace w)).

Definition get_last_search_time : M Q :=
  fun w => (Ret (_last_search_time w), w).

Definition set_last_search_time (t : Q) : M unit :=
  fun w =>
    (Ret tt,
     World (clock w) (_search_cache w) t
           (searches w) (lookups w) (draws w) (trace w)).

(** [range(n)]. *)
Definition py_range (n : Z) : list Z := map Z.of_nat (seq 0 (Z.to_nat n)).

(** ** The external services *)

Record env := Env {
  (* wikipedia.run(query), as the n-th request to Wikipedia *)
  wikipedia_run : nat -> pystr -> outcome pystr;
  (* random.random(), n-th draw; the library promises a value in [0, 1) *)
  random_random : nat -> Q
}.

Definition env_ok (E : env) : Prop :=
  forall n, (0 <= random_random E n)%Q /\ (random_random E n <= 1)%Q.

Record RateLimitedSearchTool := Tool {
  (* self.search_runner.run(query), as the n-th request to the search engine *)
  search_runner : nat -> pystr -> outcome pystr;
  max_retries : Z;
  initial_backoff : Q;
  use_cache : bool
}.

(** [RateLimitedSearchTool(search_runner)], every other argument defaulted. *)
Definition default_tool (runner : nat -> pystr -> outcome pystr) :=
  Tool runner 3 5 true.

Definition _min_delay_between_searches : Q := 5.

Section Tools.

Variable E : env.

Definition wikipedia_run_call (query : pystr) : M pystr :=
  fun w =>
    (wikipedia_run E (lookups w) query,
     World (clock w) (_search_cache w) (_last_search_time w)
           (searches w) (S (lookups w)) (draws w)
           (trace w ++ [Wikipedia query])).

Definition random_random_call : M Q :=
  fun w =>
    (Ret (random_random E (draws w)),
     World (clock w) (_search_cache w) (_last_search_time w)
           (searches w) (lookups w) (S (draws w)) (trace w)).

(** [random.uniform(a, b)] is [a + (b - a) * random()]. *)
Definition random_uniform (a b : Q) : M Q :=
  let* u := random_random_call in
  ret (a + (b - a) * u)%Q.

Definition search_runner_run (self : RateLimitedSearchTool) (query : pystr)
  : M pystr :=
  fun w =>
    (search_runner self (searches w) query,
     World (clock w) (_search_cache w) (_last_search_time w)
           (S (searches w)) (lookups w) (draws w)
           (trace w ++ [Search query])).

(** ** [fallback_search] *)

Definition wikipedia_instead (wikipedia_result : pystr) : pystr :=
  s_ "DuckDuckGo search is currently rate-limited. Using Wikipedia instead:"
  ++ [10; 10]%N ++ wikipedia_result ++ [10; 10]%N
  ++ s_ "(Note: This result is from Wikipedia rather than a web search. For more specific or recent information, please try again later.)".

Definition rate_limited_suggestions (query : pystr) : pystr :=
  [128683%N] ++ s_ " Search is currently rate-limited. Here are some suggestions:" ++ [10; 10]%N
  ++ s_ "1. **Be more specific** with your query" ++ [10%N]
  ++ s_ "2. **Use Wikipedia** instead for general knowledge" ++ [10%N]
  ++ s_ "3. **Try the WebScraper tool** if you know a specific website with relevant information" ++ [10%N]
  ++ s_ "4. **Wait a few minutes** before attempting another search" ++ [10; 10]%N
  ++ s_ "Your query was: '" ++ query ++ s_ "'" ++ [10; 10]%N
  ++ s_ "This limitation is due to DuckDuckGo's rate limiting policy and not an issue with the research assistant itself.".

(** The [try] block returns from the function ([Some]) or is left, by its
    end or by [except Exception: pass] ([None]). *)
Definition fallback_search (query : pystr) : M pystr :=
  let* returned :=
    try_except
      (let* wikipedia_result := wikipedia_run_call query in
       if negb (bool_decide (wikipedia_result = []))
          && (100 <? Z.of_nat (length wikipedia_result))
       then ret (Some (wikipedia_instead wikipedia_result))
       else ret None)
      (fun _ => ret None) in
  match returned with
  | Some s => ret s
  | None => ret (rate_limited_suggestions query)
  end.

(** ** [RateLimitedSearchTool.run] *)

(** What [run] hands back, labelled with the [return] statement that
    produced it; [ImplicitNone] is the end of the function body, reached when
    the loop runs out of attempts without returning. *)
Inductive returned :=
| CachedResult (s : pystr)             (* return _search_cache[query] *)
| CachedOptimizedResult (s : pystr)    (* return _search_cache[optimized_query] *)
| SearchResult (s : pystr)             (* return result *)
| FallbackResult (s : pystr)           (* return fallback_search(query) *)
| ErrorString (s : pystr)              (* return f"Unexpected search error: ..." *)
| ImplicitNone.

(** The Python value: a string, or [None]. *)
Definition value (r : returned) : option pystr :=
  match r with
  | CachedResult s | CachedOptimizedResult s | SearchResult s
  | FallbackResult s | ErrorString s => Some s
  | ImplicitNone => None
  end.

(** [self.use_cache and key in _search_cache], with the entry when it holds. *)
Definition cached (self : RateLimitedSearchTool) (key : pystr)
  : M (option pystr) :=
  if use_cache self then cache_get key else ret None.

(** The [for attempt in range(self.max_retries + 1)] loop; [todo] is what is
    left of the range. *)
Fixpoint attempts (self : RateLimitedSearchTool)
    (query optimized_query : pystr) (todo : list Z) : M returned :=
  match todo with
  | [] => ret ImplicitNone
  | attempt :: rest =>
      try_except
        (let* result := search_runner_run self optimized_query in
         exec (if use_cache self then
                 exec cache_set query result in
                 cache_set optimized_query result
               else ret tt) in
         ret (SearchResult result))
        (fun e =>
           match e with
           | DuckDuckGoSearchException _ =>
               if Str.contains (s_ "Ratelimit") (str_exn e)
                  && (attempt <? max_retries self)
               then
                 let* jitter := random_uniform 1 3 in
                 let backoff_time :=
                   (initial_backoff self * inject_Z (3 ^ attempt) + jitter)%Q in
                 exec print (RetryingIn backoff_time (attempt + 1)
                                        (max_retries self)) in
                 exec time_sleep backoff_time in
                 attempts self query optimized_query rest
               else
                 exec print SwitchingToFallback in
                 let* s := fallback_search query in
                 ret (FallbackResult s)
           | Exception _ =>
               ret (ErrorString (s_ "Unexpected search error: " ++ str_exn e))
           end)
  end.

(** Lines 84 to 91: the delay between consecutive searches. *)
Definition search_cooldown : M unit :=
  let* current_time := time_time in
  let* last := get_last_search_time in
  let elapsed := (current_time - last)%Q in
  if Qltb elapsed _min_delay_between_searches && Qltb 0 last then
    let delay_time := (_min_delay_between_searches - elapsed)%Q in
    exec print (SearchCooldown delay_time) in
    time_sleep delay_time
  else ret tt.

Definition run (self : RateLimitedSearchTool) (query : pystr) : M returned :=
  let* hit := cached self query in
  match hit with
  | Some result =>
      exec print (UsingCached query) in
      ret (CachedResult result)
  | None =>
      exec search_cooldown in
      let optimized_query := optimize_search_query query in
      let* hit :=
        (if negb (bool_decide (optimized_query = query)) then
           exec print (OptimizedQuery query optimized_query) in
           let* hit := cached self optimized_query in
           match hit with
           | Some result =>
               exec print (UsingCachedOptimized optimized_query) in
               ret (Some result)
           | None => ret None
           end
         else ret None) in
      match hit with
      | Some result => ret (CachedOptimizedResult result)
      | None =>
          let* now := time_time in
          exec set_last_search_time now in
          attempts self query optimized_query
                   (py_range (max_retries self + 1))
      end
  end.

End Tools.

(** ** [RateLimitedAgentExecutor] of [main.py] *)

Section Executor.

(** [input_data] and what the wrapped [AgentExecutor] returns are opaque
    here.  The wrapped executor runs the agent, which may call any tool: it
    is an arbitrary computation on the world. *)
Variables Input Output : Type.

Record RateLimitedAgentExecutor := Executor {
  agent_executor : Input -> M Output;   (* self.agent_executor.invoke *)
  min_delay : Q;
  last_call_time : Q
}.

(** [__init__]: [self.last_call_time = 0]. *)
Definition new_executor (agent : Input -> M Output) (min_delay : Q) :=
  Executor agent min_delay 0.

(** Lines 464 to 471: the delay between API calls. *)
Definition invoke_cooldown (self : RateLimitedAgentExecutor) : M unit :=
  let* current_time := time_time in
  let elapsed := (current_time - last_call_time self)%Q in
  if Qltb elapsed (min_delay self) && Qltb 0 (last_call_time self) then
    let sleep_time := (min_delay self - elapsed)%Q in
    exec print (RateLimitingWait sleep_time) in
    time_sleep sleep_time
  else ret tt.

(** [invoke] returns the outcome of the call and leaves the object with a
    new [last_call_time]. *)
Definition invoke (self : RateLimitedAgentExecutor) (input_data : Input)
    (w : world) : outcome Output * world * RateLimitedAgentExecutor :=
  match invoke_cooldown self w with
  | (Raise e, w1) => (Raise e, w1, self)
  | (Ret _, w1) =>
      let self' := Executor (agent_executor self) (min_delay self) (clock w1) in
      (agent_executor self input_data w1, self')
  end.

End Executor.

Arguments Executor {Input Output}.
Arguments agent_executor {Input Output}.
Arguments min_delay {Input Output}.
Arguments last_call_time {Input Output}.
Arguments new_executor {Input Output}.
Arguments invoke_cooldown {Input Output}.
Arguments invoke {Input Output}.

(** [rate_limited_executor = RateLimitedAgentExecutor(agent_executor, min_delay=2.0)] *)
Definition rate_limited_executor {Input Output} (agent : Input -> M Output) :=
  new_executor agent 2.

(** ** More of Python's strings *)

Module PyStr.

(** [s.replace(old, new)] for a one-character [old]: every occurrence is
    replaced. *)
Definition replace_char (old : N) (new s : pystr) : pystr :=
  flat_map (fun c => if (c =? old)%N then new else [c]) s.

(** [s.count(c)] for a one-character [c]. *)
Definition count_char (c : N) (s : pystr) : nat :=
  length (List.filter (fun d => (d =? c)%N) s).

(** [str.lower] on one code point, as far as ASCII is concerned: the ASCII
    capitals, the Kelvin sign (which becomes k) and the dotted capital I
    (which becomes i followed by a combining dot) are the only code points
    whose lower case contains an ASCII character.  Every other code point
    is left as it is; Python may map it to other code points outside
    ASCII, which a search for ASCII text cannot tell apart. *)
Definition lower_code_point (c : N) : pystr :=
  if ((65 <=? c) && (c <=? 90))%N then [(c + 32)%N]
  else if (c =? 8490)%N then [107%N]
  else if (c =? 304)%N then [105; 775]%N
  else [c].

Definition lower (s : pystr) : pystr := flat_map lower_code_point s.

(** [str(n)] for an integer: its decimal digits, after a minus sign when it
    is negative. *)
Definition str_int (n : Z) : pystr :=
  s_ (NilZero.string_of_int (Z.to_int n)).

(** [l[:n]] with Python's reading of a negative [n]: all but the last
    [-n] elements. *)
Definition slice_to {A} (n : Z) (l : list A) : list A :=
  if n <? 0 then firstn (Z.to_nat (Z.of_nat (length l) + n)) l
  else firstn (Z.to_nat n) l.

(** [s.replace(old, new)]: the occurrences of [old] are replaced from left
    to right, an occurrence starting where the one before has ended at the
    earliest.  [skip] counts the code points of a replaced occurrence that
    are still to be passed over. *)
Fixpoint replace_from (old new : pystr) (skip : nat) (s : pystr) : pystr :=
  match s with
  | [] => []
  | c :: rest =>
      match skip with
      | S k => replace_from old new k rest
      | O =>
          if Str.startswith old s
          then new ++ replace_from old new (length old - 1) rest
          else c :: replace_from old new 0 rest
      end
  end.

Definition replace (old new s : pystr) : pystr :=
  match old with
  | [] => new ++ flat_map (fun c => c :: new) s
  | _ :: _ => replace_from old new 0 s
  end.

(** The code points at which [str.splitlines] breaks a line. *)
Definition is_linebreak (c : N) : bool :=
  ((10 <=? c) && (c <=? 13) || (28 <=? c) && (c <=? 30)
   || (c =? 133) || (c =? 8232) || (c =? 8233))%N.

(** [s.splitlines()]: the lines of [s] without their line breaks; a
    carriage return followed by a line feed is one line break
    ([after_cr] tells that the code point before [s] was a carriage
    return), and a line break at the very end opens no further line. *)
Fixpoint splitlines_from (after_cr : bool) (s : pystr) : list pystr :=
  match s with
  | [] => []
  | c :: rest =>
      if after_cr && (c =? 10)%N then splitlines_from false rest
      else if is_linebreak c then [] :: splitlines_from (c =? 13)%N rest
      else match splitlines_from false rest with
           | line :: lines => (c :: line) :: lines
           | [] => [[c]]
           end
  end.

Definition splitlines (s : pystr) : list pystr := splitlines_from false s.

(** [s.lstrip()], [s.rstrip()] and [s.strip()]: white space is removed at
    the ends. *)
Fixpoint lstrip (s : pystr) : pystr :=
  match s with
  | [] => []
  | c :: rest => if Str.isspace c then lstrip rest else s
  end.

Fixpoint rstrip (s : pystr) : pystr :=
  match s with
  | [] => []
  | c :: rest =>
      match rstrip rest with
      | [] => if Str.isspace c then [] else [c]
      | kept => c :: kept
      end
  end.

Definition strip (s : pystr) : pystr := rstrip (lstrip s).

(** [s.split(sep)] for a separator that is not empty: the pieces between
    the occurrences of [sep], found from left to right; there is always at
    least one piece.  [skip] counts the code points of a separator that are
    still to be passed over. *)
Fixpoint split_sep_from (sep : pystr) (skip : nat) (s : pystr)
  : list pystr :=
  match s with
  | [] => [[]]
  | c :: rest =>
      match skip with
      | S k => split_sep_from sep k rest
      | O =>
          if Str.startswith sep s
          then [] :: split_sep_from sep (length sep - 1) rest
          else match split_sep_from sep 0 rest with
               | piece :: pieces => (c :: piece) :: pieces
               | [] => [[c]]
               end
      end
  end.

Definition split_sep (sep s : pystr) : list pystr := split_sep_from sep 0 s.

(** [enumerate(l)], counting from [start]. *)
Fixpoint enumerate {A} (start : Z) (l : list A) : list (Z * A) :=
  match l with
  | [] => []
  | x :: rest => (start, x) :: enumerate (start + 1) rest
  end.

End PyStr.

(** ** [calculator] of [tools.py] *)

Definition unsafe_operations : list pystr :=
  map s_ ["import"; "eval"; "exec"; "compile"; "open"; "__"]%string.

(** [py_eval expression] stands for
    [f"{eval(expression, {"__builtins__": {}}, safe_dict)}"]: the text of the
    value, or the exception raised on the way. *)
Definition calculator (py_eval : pystr -> outcome pystr) (expression : pystr)
  : pystr :=
  let expression := PyStr.replace_char 94 (s_ "**") expression in
  if existsb (fun op => Str.contains op expression) unsafe_operations then
    s_ "Invalid expression: potentially unsafe operations"
  else
    match py_eval expression with
    | Ret result => s_ "Result: " ++ result
    | Raise e => s_ "Error calculating: " ++ str_exn e
    end.

(** ** [scrape_webpage] of [tools.py] *)

(** Lines 197 to 199: every line is stripped and cut at double spaces, the
    pieces are stripped, and those that are not empty are joined, one to a
    line. *)
Definition clean_text (text : pystr) : pystr :=
  let lines := map PyStr.strip (PyStr.splitlines text) in
  let chunks :=
    flat_map (fun line => map PyStr.strip (PyStr.split_sep (s_ "  ") line))
             lines in
  Str.join [10%N]
           (List.filter (fun chunk => negb (bool_decide (chunk = []))) chunks).

(** [get_text url] stands for lines 181 to 194: the page is fetched and
    parsed, the scripts, styles and page furniture are taken out, and the
    text is extracted; any step may raise. *)
Definition scrape_webpage (get_text : pystr -> outcome pystr) (url : pystr)
  : pystr :=
  match get_text url with
  | Ret text =>
      let text := clean_text text in
      if 8000 <? Z.of_nat (length text)
      then firstn (Z.to_nat 8000) text ++ s_ "... [content truncated]"
      else text
  | Raise e => s_ "Error scraping webpage: " ++ str_exn e
  end.

(** ** [needs_advanced_tools] of [main.py] *)

Definition complex_keywords : list pystr :=
  map s_ ["analyze"; "compare"; "contrast"; "evaluate"; "synthesize";
          "implications"; "philosophy"; "ethical"; "complex"; "nuanced";
          "perspectives"; "comprehensive"; "detailed"; "in-depth";
          "thorough"; "step by step"; "breakdown"; "multiple"; "impact";
          "effects"; "causes"; "relationship"; "interpret"; "meaning";
          "versus"; "vs"; "pros and cons"; "advantages"; "disadvantages";
          "debate"; "controversy"; "different views"; "theory"; "framework";
          "approach"; "method"]%string.

Definition needs_advanced_tools (query : pystr) : bool :=
  let query_lower := PyStr.lower query in
  let has_complex_keywords :=
    existsb (fun keyword => Str.contains keyword query_lower)
            complex_keywords in
  let has_multiple_questions :=
    1 <? Z.of_nat (PyStr.count_char 63 query_lower) in
  let is_long_query := 15 <? Z.of_nat (length (Str.split query)) in
  has_complex_keywords || has_multiple_questions || is_long_query.

(** The query [main.py] sends on when [needs_advanced_tools] holds. *)
Definition advanced_query (query : pystr) : pystr :=
  s_ "This is a complex question requiring advanced analysis tools like SequentialThinking or DeepResearch. Please provide a comprehensive answer using the most appropriate advanced tools: "
  ++ query.

(** ** [mcp_tools.py]: the advanced search *)

Definition fallback_web_search (query : pystr) (limit : Z) : pystr :=
  s_ "Advanced web search not available in this environment. Please use the standard Search tool instead with query: "
  ++ query.

Definition raise {A} (e : exn) : M A := fun w => (Raise e, w).

(** What [globals()] holds under the two names [web_search] looks up, if
    anything.  The MCP function is given by the text of its result,
    [str(result)], or the exception it raises.  The search tool is given by
    its [func], which returns a string or something else ([None]). *)
Record web_search_globals := WebSearchGlobals {
  mcp_firecrawl_firecrawl_search : option (pystr -> Z -> outcome pystr);
  search_tool : option (pystr -> M (option pystr))
}.

(** The [func] of [search_tool] as [tools.py] builds it:
    [RateLimitedSearchTool(standard_search).run]. *)
Definition search_tool_func (E : env) (self : RateLimitedSearchTool)
  : pystr -> M (option pystr) :=
  fun query => let* r := run E self query in ret (value r).

(** Adding something that is no string to a string is a [TypeError]; its
    text is never looked at. *)
Definition web_search (G : web_search_globals) (query : pystr) (limit : Z)
  : M pystr :=
  try_except
    (match mcp_firecrawl_firecrawl_search G with
     | Some mcp_search_func => fun w => (mcp_search_func query limit, w)
     | None =>
         try_except
           (match search_tool G with
            | Some func =>
                let* answer := func query in
                match answer with
                | Some text =>
                    ret (s_ "Using standard search for: " ++ query
                         ++ [10; 10]%N ++ text)
                | None => raise (Exception (s_ "can only concatenate str to str"))
                end
            | None => ret (fallback_web_search query limit)
            end)
           (fun _ => ret (fallback_web_search query limit))
     end)
    (fun _ => ret (fallback_web_search query limit)).

(** ** [mcp_tools.py]: sequential thinking *)

Definition gita_thinking_steps : list pystr :=
  [
   s_ "STEP 1: DEFINE THE SCOPE OF ANALYSIS" ++ [10%N]
   ++ s_ "The question concerns different interpretations of the Bhagavad Gita and their relationship to modern technology. I need to analyze:"
   ++ [10%N]
   ++ s_ "1. Major interpretations of the Bhagavad Gita across different traditions and time periods"
   ++ [10%N]
   ++ s_ "2. Key technological paradigms and ethical challenges in modern technology"
   ++ [10%N]
   ++ s_ "3. How Gita's wisdom can inform and guide technological development and use";

   s_ "STEP 2: ANALYZE MAJOR INTERPRETATIONS OF THE BHAGAVAD GITA" ++ [10%N]
   ++ s_ "The Bhagavad Gita has been interpreted in multiple ways throughout history:"
   ++ [10; 10]%N ++ s_ "1. Traditional Vedantic interpretations:" ++ [10%N]
   ++ s_ "   - Advaita (non-dualism): Emphasis on ultimate reality beyond material existence"
   ++ [10%N]
   ++ s_ "   - Dvaita (dualism): Focus on relationship between the soul and Krishna"
   ++ [10%N]
   ++ s_ "   - Vishishtadvaita (qualified non-dualism): Balancing oneness and difference"
   ++ [10; 10]%N ++ s_ "2. Modern interpretations:" ++ [10%N]
   ++ s_ "   - Gandhi's interpretation: Non-violence (ahimsa) and selfless action"
   ++ [10%N]
   ++ s_ "   - Aurobindo's integral yoga: Balancing material and spiritual evolution"
   ++ [10%N]
   ++ s_ "   - Vivekananda's practical vedanta: Universal spirituality and service"
   ++ [10; 10]%N ++ s_ "3. Management/Leadership interpretations:" ++ [10%N]
   ++ s_ "   - Focus on duty, dharma, and ethical decision-making in organizational contexts"
   ++ [10%N]
   ++ s_ "   - Detached action (karma yoga) as a pathway to leadership excellence"
   ++ [10%N]
   ++ s_ "   - Self-knowledge as foundation for authentic leadership";

   s_ "STEP 3: ANALYZE TECHNOLOGICAL PARADIGMS AND CHALLENGES" ++ [10%N]
   ++ s_ "Modern technology presents several paradigms and ethical challenges:"
   ++ [10; 10]%N ++ s_ "1. Digital transformation:" ++ [10%N]
   ++ s_ "   - Automation and AI replacing human jobs" ++ [10%N]
   ++ s_ "   - Digital surveillance and privacy concerns" ++ [10%N]
   ++ s_ "   - Information overload and attention economy" ++ [10; 10]%N
   ++ s_ "2. Ethical challenges in tech development:" ++ [10%N]
   ++ s_ "   - Algorithmic bias and fairness" ++ [10%N]
   ++ s_ "   - Technology addiction and mental health impacts" ++ [10%N]
   ++ s_ "   - Environmental sustainability of technology" ++ [10%N]
   ++ s_ "   - Digital divide and equitable access" ++ [10; 10]%N
   ++ s_ "3. Emerging technological paradigms:" ++ [10%N]
   ++ s_ "   - AI and machine learning ethics" ++ [10%N]
   ++ s_ "   - Transhumanism and human enhancement" ++ [10%N]
   ++ s_ "   - Virtual/augmented reality and their psychological impacts"
   ++ [10%N]
   ++ s_ "   - Blockchain, decentralization, and new economic models";

   s_ "STEP 4: SYNTHESIZE GITA'S WISDOM WITH TECHNOLOGICAL CHALLENGES"
   ++ [10%N]
   ++ s_ "The Bhagavad Gita offers several principles that can guide technology development and use:"
   ++ [10; 10]%N ++ s_ "1. Dharma (righteous duty) and ethical technology:"
   ++ [10%N]
   ++ s_ "   - Development of ethical frameworks for AI and automation"
   ++ [10%N]
   ++ s_ "   - Responsibility of tech creators for societal impacts"
   ++ [10%N] ++ s_ "   - Technology serving higher purpose beyond profit"
   ++ [10; 10]%N ++ s_ "2. Karma Yoga (detached action) for innovation:"
   ++ [10%N]
   ++ s_ "   - Focus on process excellence rather than just outcomes"
   ++ [10%N] ++ s_ "   - Innovation without attachment to success or failure"
   ++ [10%N] ++ s_ "   - Balancing ambition with ethical considerations"
   ++ [10; 10]%N ++ s_ "3. Jnana Yoga (knowledge) for technological wisdom:"
   ++ [10%N] ++ s_ "   - Developing technologies that enhance human wisdom"
   ++ [10%N]
   ++ s_ "   - Understanding deeper impacts of technology on consciousness"
   ++ [10%N] ++ s_ "   - Using discernment in technological adoption"
   ++ [10; 10]%N
   ++ s_ "4. Bhakti Yoga (devotion) and human-centered technology:" ++ [10%N]
   ++ s_ "   - Technology that enhances human connection rather than isolation"
   ++ [10%N]
   ++ s_ "   - Preserving the sacred in an age of mechanical reproduction"
   ++ [10%N] ++ s_ "   - Using technology for service and compassion";

   s_ "STEP 5: EVALUATE AND CONCLUDE" ++ [10%N]
   ++ s_ "The Bhagavad Gita provides timeless wisdom that can be applied to modern technological challenges:"
   ++ [10; 10]%N
   ++ s_ "1. The Gita emphasizes balance - between action and contemplation, between material progress and spiritual values - which can guide a more balanced approach to technology development."
   ++ [10; 10]%N
   ++ s_ "2. The concept of dharma (duty) can inform ethical frameworks for AI, automation, and other technologies, emphasizing responsibility and right action."
   ++ [10; 10]%N
   ++ s_ "3. The Gita's teaching on detachment can help navigate innovation processes, allowing for creative risk-taking without unhealthy attachment to outcomes."
   ++ [10; 10]%N
   ++ s_ "4. The emphasis on self-knowledge can guide more mindful technology use, helping users maintain awareness and intentionality in digital environments."
   ++ [10; 10]%N
   ++ s_ "5. Different interpretations of the Gita can offer multiple perspectives on technology ethics, from traditional religious viewpoints to modern secular applications in business and personal development."
  ].

Definition generic_thinking_steps (problem : pystr) : list pystr :=
  [
   s_ "STEP 1: DEFINE THE PROBLEM" ++ [10%N]
   ++ s_ "The problem to analyze is: " ++ problem ++ [10; 10]%N
   ++ s_ "I need to break this down into key components and identify what exactly needs to be determined or understood.";

   s_ "STEP 2: GATHER RELEVANT INFORMATION" ++ [10%N]
   ++ s_ "To approach this problem, I need to identify the key facts, concepts, and information that are relevant. This includes:"
   ++ [10%N] ++ s_ "- Core concepts and definitions" ++ [10%N]
   ++ s_ "- Relevant theories or frameworks" ++ [10%N]
   ++ s_ "- Historical context or background" ++ [10%N]
   ++ s_ "- Current perspectives or approaches";

   s_ "STEP 3: ANALYZE FROM MULTIPLE PERSPECTIVES" ++ [10%N]
   ++ s_ "I'll analyze this from different angles:" ++ [10%N]
   ++ s_ "- Historical perspective: How has thinking on this evolved?"
   ++ [10%N] ++ s_ "- Different theoretical frameworks that apply" ++ [10%N]
   ++ s_ "- Potential opposing viewpoints" ++ [10%N]
   ++ s_ "- Scientific/empirical evidence available" ++ [10%N]
   ++ s_ "- Practical implications";

   s_ "STEP 4: SYNTHESIZE FINDINGS" ++ [10%N]
   ++ s_ "Based on the analysis, I'll now integrate the key insights to form a coherent understanding. This involves:"
   ++ [10%N] ++ s_ "- Identifying patterns or relationships" ++ [10%N]
   ++ s_ "- Resolving contradictions where possible" ++ [10%N]
   ++ s_ "- Understanding nuances and complexities" ++ [10%N]
   ++ s_ "- Formulating principles or conclusions";

   s_ "STEP 5: EVALUATE CONCLUSIONS" ++ [10%N]
   ++ s_ "Finally, I'll evaluate the conclusions by:" ++ [10%N]
   ++ s_ "- Checking for logical consistency" ++ [10%N]
   ++ s_ "- Assessing the strength of evidence" ++ [10%N]
   ++ s_ "- Identifying limitations or gaps in understanding" ++ [10%N]
   ++ s_ "- Considering implications and applications" ++ [10%N]
   ++ s_ "- Suggesting further questions or areas for exploration"
  ].

Definition advanced_sequential_thinking (problem : pystr) (steps : Z)
  : pystr :=
  let thinking_steps :=
    if Str.contains (s_ "bhagavad gita") (PyStr.lower problem)
       || Str.contains (s_ "bhagwat geeta") (PyStr.lower problem)
    then gita_thinking_steps
    else
      match generic_thinking_steps problem with
      | [] => []
      | first :: others =>
          first
          :: map (PyStr.replace (s_ "this problem")
                                (s_ "the question about " ++ problem))
                 others
      end in
  Str.join [10; 10]%N (PyStr.slice_to steps thinking_steps).

Section Thinking.

(** The values that go back and forth as [totalThoughts]; integers are
    among them. *)
Variable Value : Type.
Variable int_value : Z -> Value.

(** The keyword arguments of the MCP function. *)
Record thinking_request := ThinkingRequest {
  thought : pystr;
  thoughtNumber : Z;
  totalThoughts : Value;
  nextThoughtNeeded : bool
}.

(** What [response.get] finds under the three keys, if they are there: the
    text of the thought, the truth value of [nextThoughtNeeded], and
    [totalThoughts]. *)
Record thinking_response := ThinkingResponse {
  response_thought : option pystr;
  response_nextThoughtNeeded : option bool;
  response_totalThoughts : option Value
}.

(** The MCP function: the [n]-th call that one [sequential_thinking] makes
    answers or raises. *)
Definition thinking_service : Type :=
  nat -> thinking_request -> outcome thinking_response.

(** The [while] loop.  [thought_number] grows by one in every turn and the
    loop stops at 10, so [fuel] turns are all there are when
    [fuel + thought_number >= 10]. *)
Fixpoint keep_thinking (mcp_thinking_func : thinking_service) (fuel : nat)
    (calls : nat) (thought_number : Z) (total_thoughts : Value)
    (response : thinking_response) (thoughts : list pystr)
  : outcome (list pystr) :=
  match fuel with
  | O => Ret thoughts
  | S fuel' =>
      if default false (response_nextThoughtNeeded response)
         && (thought_number <? 10)
      then
        let thought_number := thought_number + 1 in
        match mcp_thinking_func calls
                (ThinkingRequest
                   (s_ "Continuing the analysis of step "
                    ++ PyStr.str_int thought_number ++ s_ "...")
                   thought_number
                   (default total_thoughts (response_totalThoughts response))
                   true) with
        | Ret response' =>
            keep_thinking mcp_thinking_func fuel' (S calls) thought_number
              total_thoughts response'
              (thoughts ++ [default [] (response_thought response')])
        | Raise e => Raise e
        end
      else Ret thoughts
  end.

Definition numbered_steps (thoughts : list pystr) : pystr :=
  Str.join [10; 10]%N
    (map (fun it => s_ "Step " ++ PyStr.str_int (fst it + 1) ++ s_ ": "
                    ++ snd it)
         (PyStr.enumerate 0 thoughts)).

(** [mcp_thinking_func] is what [globals()] holds under
    [mcp_server_sequential_thinking_sequentialthinking], if anything. *)
Definition sequential_thinking (mcp_thinking_func : option thinking_service)
    (problem : pystr) (steps : Z) : pystr :=
  let attempt : outcome pystr :=
    match mcp_thinking_func with
    | Some mcp_thinking_func =>
        match mcp_thinking_func 0%nat
                (ThinkingRequest
                   (s_ "Initial analysis of the problem: " ++ problem)
                   1 (int_value steps) true) with
        | Ret response =>
            match keep_thinking mcp_thinking_func 9 1 1 (int_value steps)
                    response [default [] (response_thought response)] with
            | Ret thoughts => Ret (numbered_steps thoughts)
            | Raise e => Raise e
            end
        | Raise e => Raise e
        end
    | None => Ret (advanced_sequential_thinking problem steps)
    end in
  match attempt with
  | Ret text => text
  | Raise _ => advanced_sequential_thinking problem steps
  end.

End Thinking.

Arguments ThinkingRequest {Value}.
Arguments ThinkingResponse {Value}.
Arguments thought {Value}.
Arguments thoughtNumber {Value}.
Arguments totalThoughts {Value}.
Arguments nextThoughtNeeded {Value}.
Arguments response_thought {Value}.
Arguments response_nextThoughtNeeded {Value}.
Arguments response_totalThoughts {Value}.
Arguments keep_thinking {Value}.
Arguments sequential_thinking {Value}.

(** * The limits of the platform

    The calls above run on a platform without limits: [print] writes every
    text, [time.sleep] waits for every duration that is not negative, and
    numbers are exact.  Python's are narrower: [print] raises
    [UnicodeEncodeError] for a text that [sys.stdout] cannot encode,
    [time.sleep] raises [OverflowError] for a duration beyond 2^63
    nanoseconds, and so does the addition of an int beyond the floats to a
    float.  [run] meets the three outside every [try] (lines 81, 90, 91, 96
    and 100) or inside the [except] handler (lines 117 to 121), from where
    the exception reaches the caller.  [Limited] is the code of [run] again,
    over primitives with these limits. *)

(** ** What [print] writes *)

(** The nearest integer of a rational that is not negative, ties going to
    the even one. *)
Definition round_half_even (x : Q) : Z :=
  let n := Qnum x in
  let d := Z.pos (Qden x) in
  let q := n / d in
  let r := n mod d in
  if 2 * r <? d then q
  else if d <? 2 * r then q + 1
  else if Z.even q then q else q + 1.

(** The format [{x:.2f}] of an f-string: the sign of a negative number, the
    integer part, and two decimals, correctly rounded. *)
Definition format_2f (x : Q) : pystr :=
  let hundredths := round_half_even (Qabs x * 100) in
  (if Qltb x 0 then s_ "-" else [])
  ++ PyStr.str_int (hundredths / 100) ++ s_ "."
  ++ (if hundredths mod 100 <? 10 then s_ "0" else [])
  ++ PyStr.str_int (hundredths mod 100).

(** The text of each [print]: the f-strings of lines 81, 90, 96, 100, 118
    and 121 of [tools.py] and of line 470 of [main.py].  [RetryingIn] holds
    [attempt + 1] already. *)
Definition message_text (m : message) : pystr :=
  match m with
  | UsingCached query =>
      [128260%N] ++ s_ " Using cached result for query: '" ++ query ++ s_ "'"
  | SearchCooldown delay_time =>
      [128338%N] ++ s_ " Search cooldown: Waiting " ++ format_2f delay_time
      ++ s_ "s before next search..."
  | OptimizedQuery query optimized_query =>
      s_ "Optimized query: '" ++ query ++ s_ "' " ++ [8594%N] ++ s_ " '"
      ++ optimized_query ++ s_ "'"
  | UsingCachedOptimized optimized_query =>
      [128260%N] ++ s_ " Using cached result for optimized query: '"
      ++ optimized_query ++ s_ "'"
  | RetryingIn backoff_time attempt max_retries =>
      [9888; 65039]%N ++ s_ " Search rate limited. Retrying in "
      ++ format_2f backoff_time ++ s_ " seconds... (Attempt "
      ++ PyStr.str_int attempt ++ s_ "/" ++ PyStr.str_int max_retries
      ++ s_ ")"
  | SwitchingToFallback =>
      [9888; 65039]%N ++ s_ " Switching to fallback search method..."
  | RateLimitingWait sleep_time =>
      [226; 177; 239; 184]%N ++ s_ " Rate limiting: Waiting "
      ++ format_2f sleep_time ++ s_ "s between API calls"
  end.

(** ** What [sys.stdout] can encode *)

(** The platform decides which texts [sys.stdout] can encode: for a text it
    cannot, [stdout_error] is the [str] of the [UnicodeEncodeError] that
    [print] raises; the stream is taken to stay as it is during the
    process. *)
Record platform := Platform {
  stdout_error : pystr -> option pystr
}.

(** The surrogate code points U+D800 to U+DFFF.  A Python [str] may hold
    them, and no Unicode encoding writes them. *)
Definition is_surrogate (c : N) : bool :=
  ((55296 <=? c) && (c <=? 57343))%N.

Definition no_surrogate (text : pystr) : bool :=
  forallb (fun c => negb (is_surrogate c)) text.

(** [sys.stdout] with the encoding UTF-8 and the error handler [strict],
    Python's default: the error names the first run of surrogates. *)
Definition hex_digit (n : N) : N :=
  if (n <? 10)%N then (48 + n)%N else (87 + n)%N.

Definition hex4 (c : N) : pystr :=
  [hex_digit (c / 4096 mod 16); hex_digit (c / 256 mod 16);
   hex_digit (c / 16 mod 16); hex_digit (c mod 16)]%N.

Fixpoint surrogate_run (text : pystr) : nat :=
  match text with
  | c :: rest => if is_surrogate c then S (surrogate_run rest) else 0
  | [] => 0
  end.

Fixpoint utf8_error_from (position : nat) (text : pystr) : option pystr :=
  match text with
  | [] => None
  | c :: rest =>
      if is_surrogate c then
        Some (s_ "'utf-8' codec can't encode character"
              ++ match surrogate_run rest with
                 | O =>
                     s_ " '\u" ++ hex4 c ++ s_ "' in position "
                     ++ PyStr.str_int (Z.of_nat position)
                 | S more =>
                     s_ "s in position " ++ PyStr.str_int (Z.of_nat position)
                     ++ s_ "-"
                     ++ PyStr.str_int (Z.of_nat (position + S more))
                 end
              ++ s_ ": surrogates not allowed")
      else utf8_error_from (S position) rest
  end.

Definition utf8 : platform := Platform (utf8_error_from 0).

(** ** What [time.sleep] and the floats can hold *)

(** A duration is kept as a signed 64-bit number of nanoseconds:
    [time.sleep] raises [OverflowError] outside that range, before it looks
    at the sign. *)
Definition sleep_max : Q := 9223372036854775807 # 1000000000.

Definition sleep_min : Q := (-9223372036854775808) # 1000000000.

(** An int from here on (in absolute value) rounds beyond the largest
    float: converting it raises [OverflowError]. *)
Definition float_max : Q := inject_Z (2 ^ 1024 - 2 ^ 970).

Module Limited.

Section Calls.

Variable P : platform.
Variable E : env.

Definition print (m : message) : M unit :=
  fun w =>
    match stdout_error P (message_text m) with
    | Some msg => (Raise (Exception msg), w)
    | None => (Ret tt, log (Print m) w)
    end.

Definition time_sleep (seconds : Q) : M unit :=
  fun w =>
    if Qltb sleep_max seconds || Qltb seconds sleep_min then
      (Raise (Exception (s_ "timestamp too large to convert to C _PyTime_t")),
       w)
    else if Qltb seconds 0 then
      (Raise (Exception (s_ "sleep length must be non-negative")), w)
    else
      (Ret tt,
       World (clock w + seconds) (_search_cache w) (_last_search_time w)
             (searches w) (lookups w) (draws w) (trace w ++ [Sleep seconds])).

(** The conversion that [int + float] makes of its int.  [initial_backoff]
    is an int wherever the repository builds the tool, so
    [initial_backoff * (3 ** attempt)] is an exact int when line 117 adds
    the jitter to it. *)
Definition float_of_int (n : Q) : M Q :=
  fun w =>
    if Qle_bool float_max (Qabs n) then
      (Raise (Exception (s_ "int too large to convert to float")), w)
    else (Ret n, w).

(** Lines 84 to 91. *)
Definition search_cooldown : M unit :=
  let* current_time := time_time in
  let* last := get_last_search_time in
  let elapsed := (current_time - last)%Q in
  if Qltb elapsed _min_delay_between_searches && Qltb 0 last then
    let delay_time := (_min_delay_between_searches - elapsed)%Q in
    exec print (SearchCooldown delay_time) in
    time_sleep delay_time
  else ret tt.

(** Lines 106 to 124; in line 117 the product is made first, then the
    jitter is drawn, then the two are added. *)
Fixpoint attempts (self : RateLimitedSearchTool)
    (query optimized_query : pystr) (todo : list Z) : M returned :=
  match todo with
  | [] => ret ImplicitNone
  | attempt :: rest =>
      try_except
        (let* result := search_runner_run self optimized_query in
         exec (if use_cache self then
                 exec cache_set query result in
                 cache_set optimized_query result
               else ret tt) in
         ret (SearchResult result))
        (fun e =>
           match e with
           | DuckDuckGoSearchException _ =>
               if Str.contains (s_ "Ratelimit") (str_exn e)
                  && (attempt <? max_retries self)
               then
                 let* jitter := random_uniform E 1 3 in
                 let* product :=
                   float_of_int
                     (initial_backoff self * inject_Z (3 ^ attempt))%Q in
                 let backoff_time := (product + jitter)%Q in
                 exec print (RetryingIn backoff_time (attempt + 1)
                                        (max_retries self)) in
                 exec time_sleep backoff_time in
                 attempts self query optimized_query rest
               else
                 exec print SwitchingToFallback in
                 let* s := fallback_search E query in
                 ret (FallbackResult s)
           | Exception _ =>
               ret (ErrorString (s_ "Unexpected search error: " ++ str_exn e))
           end)
  end.

Definition run (self : RateLimitedSearchTool) (query : pystr) : M returned :=
  let* hit := cached self query in
  match hit with
  | Some result =>
      exec print (UsingCached query) in
      ret (CachedResult result)
  | None =>
      exec search_cooldown in
      let optimized_query := optimize_search_query query in
      let* hit :=
        (if negb (bool_decide (optimized_query = query)) then
           exec print (OptimizedQuery query optimized_query) in
           let* hit := cached self optimized_query in
           match hit with
           | Some result =>
               exec print (UsingCachedOptimized optimized_query) in
               ret (Some result)
           | None => ret None
           end
         else ret None) in
      match hit with
      | Some result => ret (CachedOptimizedResult result)
      | None =>
          let* now := time_time in
          exec set_last_search_time now in
          attempts self query optimized_query
                   (py_range (max_retries self + 1))
      end
  end.

End Calls.

(** What happens to the process between two calls, as for the platform
    without limits: calls of [run], and anything else that leaves the cache
    alone. *)
Inductive lifetime (P : platform) (E : env) : world -> world -> Prop :=
| lifetime_now w : lifetime P E w w
| lifetime_run w1 w2 self query o w3 :
    lifetime P E w1 w2 ->
    run P E self query w2 = (o, w3) ->
    lifetime P E w1 w3
| lifetime_other w1 w2 w3 :
    lifetime P E w1 w2 ->
    _search_cache w3 = _search_cache w2 ->
    lifetime P E w1 w3.

End Limited.

(** * The vocabulary of the statements *)

(** The optimizer as the specification words it: count the words; above
    eight, remove the stop-words, remove the words of length at most two,
    and keep the reduced form when at least four words are left. *)
Module Spec.

Definition word_count (query : pystr) : nat := length (Str.split query).

Definition is_stop_word (w : pystr) : bool :=
  Str.mem (Str.lower w) filler_words.

Definition remove_stop_words (ws : list pystr) : list pystr :=
  List.filter (fun w => negb (is_stop_word w)) ws.

Definition remove_short_words (ws : list pystr) : list pystr :=
  List.filter (fun w => negb (length w <=? 2)%nat) ws.

Definition meaningful_words (query : pystr) : list pystr :=
  remove_short_words (remove_stop_words (Str.split query)).

Definition optimize (query : pystr) : pystr :=
  if (8 <? word_count query)%nat then
    if (4 <=? length (meaningful_words query))%nat
    then Str.join (s_ " ") (meaningful_words query)
    else query
  else query.

End Spec.

(** A word as [split] produces them: not empty, no white space inside. *)
Definition word (w : pystr) : Prop :=
  w <> [] /\ Forall (fun c => Str.isspace c = false) w.

(** What happens to the process between two calls: any number of calls of
    [run], by any instance, for any query, with any outcome; and anything
    else, which leaves the cache alone, since no other code writes
    [_search_cache]. *)
Inductive lifetime (E : env) : world -> world -> Prop :=
| lifetime_now w : lifetime E w w
| lifetime_run w1 w2 self query o w3 :
    lifetime E w1 w2 ->
    run E self query w2 = (o, w3) ->
    lifetime E w1 w3
| lifetime_other w1 w2 w3 :
    lifetime E w1 w2 ->
    _search_cache w3 = _search_cache w2 ->
    lifetime E w1 w3.

(** The cache answers [query] with [s]: under the raw query, or, when the
    raw query has no entry, under its optimized form. *)
Definition answers (cache : gmap pystr pystr) (query s : pystr) : Prop :=
  cache !! query = Some s
  \/ (cache !! query = None
      /\ optimize_search_query query <> query
      /\ cache !! optimize_search_query query = Some s).

(** A platform whose [sys.stdout] writes every text that has no surrogate,
    as one with a Unicode encoding does. *)
Definition unicode_stdout (P : platform) : Prop :=
  forall text, no_surrogate text = true -> stdout_error P text = None.

(** The world after the cool-down of [invoke]. *)
Definition waited {Input Output}
    (self : RateLimitedAgentExecutor Input Output) (w : world) : world :=
  let elapsed := (clock w - last_call_time self)%Q in
  if Qltb elapsed (min_delay self) && Qltb 0 (last_call_time self) then
    let sleep_time := (min_delay self - elapsed)%Q in
    World (clock w + sleep_time) (_search_cache w) (_last_search_time w)
          (searches w) (lookups w) (draws w)
          (trace w ++ [Print (RateLimitingWait sleep_time); Sleep sleep_time])
  else w.

(** The number of positions at which a word starts: a code point that is
    no white space and follows one, or the start of the string
    ([after_space] tells what precedes [s]). *)
Fixpoint word_starts (after_space : bool) (s : pystr) : nat :=
  match s with
  | [] => 0
  | c :: rest =>
      if Str.isspace c then word_starts true rest
      else (if after_space then 1 else 0) + word_starts false rest
  end.

(** A tidy line of scraped text: not empty, no white space at either end,
    no line break and no double space inside. *)
Definition tidy_line (line : pystr) : Prop :=
  line <> []
  /\ (forall c rest, line = c :: rest -> Str.isspace c = false)
  /\ (forall c rest, line = rest ++ [c] -> Str.isspace c = false)
  /\ Forall (fun c => PyStr.is_linebreak c = false) line
  /\ Str.contains (s_ "  ") line = false.

(** An expression [calculator] lets through to [eval]: no "^" and none of
    the unsafe operations in it. *)
Definition safe_expression (expression : pystr) : Prop :=
  ~ In 94%N expression
  /\ forall op, In op unsafe_operations ->
                Str.contains op expression = false.

(** ** Sample services, for the examples

    Wikipedia is out of reach, and every draw of [random.random] is 0. *)
Definition E0 : env :=
  Env (fun _ _ => Raise (Exception (s_ "offline"))) (fun _ => 0%Q).

(** Search runners: always rate limited; rate limited twice, then fine;
    timing out; failing once for another reason, then fine. *)
Definition always_rate_limited : nat -> pystr -> outcome pystr :=
  fun _ _ => Raise (DuckDuckGoSearchException (s_ "202 Ratelimit")).

Definition rate_limited_twice : nat -> pystr -> outcome pystr :=
  fun n _ =>
    if (n <? 2)%nat
    then Raise (DuckDuckGoSearchException (s_ "202 Ratelimit"))
    else Ret (s_ "results").

Definition timing_out : nat -> pystr -> outcome pystr :=
  fun _ _ => Raise (DuckDuckGoSearchException (s_ "timed out")).

Definition failing_once : nat -> pystr -> outcome pystr :=
  fun n _ =>
    if (n =? 0)%nat then Raise (Exception (s_ "boom")) else Ret (s_ "results").

(** Search runners: always answering; rate limited [k] times, then fine. *)
Definition answering : nat -> pystr -> outcome pystr :=
  fun _ _ => Ret (s_ "results").

Definition rate_limited_until (k : nat) : nat -> pystr -> outcome pystr :=
  fun n _ =>
    if (n <? k)%nat
    then Raise (DuckDuckGoSearchException (s_ "202 Ratelimit"))
    else Ret (s_ "results").

(** A process whose last search was stamped at time 100, three seconds ago. *)
Definition recently_searched : world := World 103 ∅ 100 1 0 0 [].

(** ** The worlds a call goes through *)

Section Facts.

Variable E : env.

(** The rate-limit error signature: a [DuckDuckGoSearchException] whose text
    contains "Ratelimit". *)
Definition rate_limit_signature (e : exn) : bool :=
  match e with
  | DuckDuckGoSearchException msg => Str.contains (s_ "Ratelimit") msg
  | Exception _ => false
  end.

(** The jitter [random.uniform(1, 3)] of the n-th draw, and the back-off
    slept after a rate-limited attempt. *)
Definition jitter (n : nat) : Q := (1 + (3 - 1) * random_random E n)%Q.

Definition backoff (self : RateLimitedSearchTool) (attempt : Z) (n : nat) : Q :=
  (initial_backoff self * inject_Z (3 ^ attempt) + jitter n)%Q.

(** The world after one request to the search runner. *)
Definition searched (optimized_query : pystr) (w : world) : world :=
  World (clock w) (_search_cache w) (_last_search_time w)
        (S (searches w)) (lookups w) (draws w)
        (trace w ++ [Search optimized_query]).

(** The world after the two cache writes of the success path. *)
Definition stored (self : RateLimitedSearchTool)
    (query optimized_query result : pystr) (w : world) : world :=
  if use_cache self then
    World (clock w)
          (<[optimized_query := result]> (<[query := result]> (_search_cache w)))
          (_last_search_time w) (searches w) (lookups w) (draws w) (trace w)
  else w.

(** The world after a rate-limited attempt has been slept off. *)
Definition retried (self : RateLimitedSearchTool) (optimized_query : pystr)
    (attempt : Z) (w : world) : world :=
  let b := backoff self attempt (draws w) in
  World (clock w + b) (_search_cache w) (_last_search_time w)
        (S (searches w)) (lookups w) (S (draws w))
        (trace w ++ [Search optimized_query;
                     Print (RetryingIn b (attempt + 1) (max_retries self));
                     Sleep b]).

(** What [fallback_search] answers in a given world. *)
Definition fallback_text (query : pystr) (w : world) : pystr :=
  match wikipedia_run E (lookups w) query with
  | Ret wikipedia_result =>
      if negb (bool_decide (wikipedia_result = []))
         && (100 <? Z.of_nat (length wikipedia_result))
      then wikipedia_instead wikipedia_result
      else rate_limited_suggestions query
  | Raise _ => rate_limited_suggestions query
  end.

Definition looked_up (query : pystr) (w : world) : world :=
  World (clock w) (_search_cache w) (_last_search_time w)
        (searches w) (S (lookups w)) (draws w)
        (trace w ++ [Wikipedia query]).

(** The world after the cool-down of lines 84 to 91. *)
Definition cooled_down (w : world) : world :=
  let elapsed := (clock w - _last_search_time w)%Q in
  if Qltb elapsed _min_delay_between_searches && Qltb 0 (_last_search_time w)
  then
    let delay_time := (_min_delay_between_searches - elapsed)%Q in
    World (clock w + delay_time) (_search_cache w) (_last_search_time w)
          (searches w) (lookups w) (draws w)
          (trace w ++ [Print (SearchCooldown delay_time); Sleep delay_time])
  else w.

(** The world after the optimized query has been printed, when it differs. *)
Definition announced (query : pystr) (w : world) : world :=
  if bool_decide (optimize_search_query query = query) then w
  else log (Print (OptimizedQuery query (optimize_search_query query))) w.

(** The world after [_last_search_time = time.time()]. *)
Definition stamped (w : world) : world :=
  World (clock w) (_search_cache w) (clock w)
        (searches w) (lookups w) (draws w) (trace w).

(** The world in which the first attempt is made. *)
Definition dispatched (query : pystr) (w : world) : world :=
  stamped (announced query (cooled_down w)).

(** [self.use_cache and key in _search_cache], with the entry. *)
Definition cache_lookup (self : RateLimitedSearchTool) (key : pystr)
    (w : world) : option pystr :=
  if use_cache self then _search_cache w !! key else None.

(** The entry a call is answered from, if any: the one of the raw query,
    else the one of the optimized query when that is another string. *)
Definition cache_answer (self : RateLimitedSearchTool) (query : pystr)
    (w : world) : option pystr :=
  match cache_lookup self query w with
  | Some result => Some result
  | None =>
      if bool_decide (optimize_search_query query = query) then None
      else cache_lookup self (optimize_search_query query) w
  end.

(** The attempt indices [a, a+1, ..., a+n-1]. *)
Definition range_from (a n : nat) : list Z := map Z.of_nat (seq a n).

(** The world after [k] rate-limited attempts, the first of index [a]. *)
Fixpoint after_retries (self : RateLimitedSearchTool) (oq : pystr)
    (a k : nat) (w : world) : world :=
  match k with
  | O => w
  | S k' => after_retries self oq (S a) k' (retried self oq (Z.of_nat a) w)
  end.

(** What [k] rate-limited attempts leave in the trace: each request is
    followed by the announcement of the retry and by the back-off sleep. *)
Fixpoint retry_events (self : RateLimitedSearchTool) (oq : pystr)
    (a draw k : nat) : list event :=
  match k with
  | O => []
  | S k' =>
      [Search oq;
       Print (RetryingIn (backoff self (Z.of_nat a) draw) (Z.of_nat a + 1)
                         (max_retries self));
       Sleep (backoff self (Z.of_nat a) draw)]
      ++ retry_events self oq (S a) (S draw) k'
  end.

(** The runner answers its next [k] requests with the rate-limit signature. *)
Definition rate_limited_next (self : RateLimitedSearchTool) (oq : pystr)
    (w : world) (k : nat) : Prop :=
  forall i, (i < k)%nat ->
    exists e, search_runner self (searches w + i) oq = Raise e
              /\ rate_limit_signature e = true.

(** One turn of the loop: the five ways an attempt can go. *)
Inductive turn (self : RateLimitedSearchTool) (query oq : pystr)
    (attempt : Z) (rest : list Z) (w : world) : Prop :=
| turn_success result :
    search_runner self (searches w) oq = Ret result ->
    attempts E self query oq (attempt :: rest) w
    = (Ret (SearchResult result), stored self query oq result (searched oq w)) ->
    turn self query oq attempt rest w
| turn_error msg :
    search_runner self (searches w) oq = Raise (Exception msg) ->
    attempts E self query oq (attempt :: rest) w
    = (Ret (ErrorString (s_ "Unexpected search error: " ++ msg)),
       searched oq w) ->
    turn self query oq attempt rest w
| turn_fallback msg :
    search_runner self (searches w) oq
    = Raise (DuckDuckGoSearchException msg) ->
    Str.contains (s_ "Ratelimit") msg && (attempt <? max_retries self) = false ->
    attempts E self query oq (attempt :: rest) w
    = (Ret (FallbackResult
              (fallback_text query
                 (log (Print SwitchingToFallback) (searched oq w)))),
       looked_up query (log (Print SwitchingToFallback) (searched oq w))) ->
    turn self query oq attempt rest w
| turn_retry msg :
    search_runner self (searches w) oq
    = Raise (DuckDuckGoSearchException msg) ->
    Str.contains (s_ "Ratelimit") msg = true ->
    attempt < max_retries self ->
    attempts E self query oq (attempt :: rest) w
    = attempts E self query oq rest (retried self oq attempt w) ->
    turn self query oq attempt rest w
| turn_sleep_raises msg e w' :
    search_runner self (searches w) oq
    = Raise (DuckDuckGoSearchException msg) ->
    Str.contains (s_ "Ratelimit") msg = true ->
    (backoff self attempt (draws w) < 0)%Q ->
    attempts E self query oq (attempt :: rest) w = (Raise e, w') ->
    _search_cache w' = _search_cache w ->
    _last_search_time w' = _last_search_time w ->
    searches w' = S (searches w) ->
    turn self query oq attempt rest w.

(** What the back-offs of a loop can add up to, at most: every attempt
    below [max_retries] may be followed by a sleep of its back-off, whose
    jitter is at most 3. *)
Fixpoint retry_budget (self : RateLimitedSearchTool) (todo : list Z) : Q :=
  match todo with
  | [] => 0
  | attempt :: rest =>
      ((if attempt <? max_retries self
        then initial_backoff self * inject_Z (3 ^ attempt) + 3
        else 0)
       + retry_budget self rest)%Q
  end.

(** * Lemmas *)

(** ** Words and the optimizer *)

Section Words.
Import Str.

Lemma split_cons c rest :
  split (c :: rest) =
  if isspace c then split rest
  else match rest with
       | [] => [[c]]
       | d :: _ =>
           if isspace d then [c] :: split rest
           else match split rest with
                | w :: ws => (c :: w) :: ws
                | [] => [[c]]
                end
       end.
Proof. reflexivity. Qed.

Lemma split_word_then_space w s :
  word w -> split (w ++ 32%N :: s) = w :: split s.
Proof.
  intros [Hne Hw]. induction w as [|c w IH]; [congruence|].
  inversion Hw as [|? ? Hc Hw']; subst.
  destruct w as [|d w'].
  - simpl. rewrite Hc. reflexivity.
  - assert (Hd : isspace d = false) by (inversion Hw'; assumption).
    change ((c :: d :: w') ++ 32%N :: s) with (c :: ((d :: w') ++ 32%N :: s)).
    rewrite split_cons, Hc.
    change ((d :: w') ++ 32%N :: s) with (d :: (w' ++ 32%N :: s)) at 1.
    cbv iota. rewrite Hd.
    change (d :: (w' ++ 32%N :: s)) with ((d :: w') ++ 32%N :: s).
    rewrite IH by (auto; congruence). reflexivity.
Qed.

Lemma split_single_word w : word w -> split w = [w].
Proof.
  intros [Hne Hw]. induction w as [|c w IH]; [congruence|].
  inversion Hw as [|? ? Hc Hw']; subst.
  destruct w as [|d w'].
  - simpl. rewrite Hc. reflexivity.
  - assert (Hd : isspace d = false) by (inversion Hw'; assumption).
    rewrite split_cons, Hc, Hd.
    rewrite IH by (auto; congruence). reflexivity.
Qed.

(** Splitting what [join] built on single spaces gives the words back. *)
Lemma split_join ws :
  Forall word ws -> split (join (s_ " ") ws) = ws.
Proof.
  induction 1 as [|w ws Hw Hws IH]; [reflexivity|].
  destruct ws as [|w2 ws'].
  - apply split_single_word, Hw.
  - change (join (s_ " ") (w :: w2 :: ws'))
      with (w ++ 32%N :: join (s_ " ") (w2 :: ws')).
    rewrite split_word_then_space by assumption.
    now rewrite IH.
Qed.

Lemma split_words s : Forall word (split s).
Proof.
  induction s as [|c s IH]; [constructor|].
  rewrite split_cons. destruct (isspace c) eqn:Hc; [assumption|].
  destruct s as [|d s']; [repeat constructor; [congruence|assumption]|].
  destruct (isspace d) eqn:Hd.
  - constructor; [|assumption]. repeat constructor; [congruence|assumption].
  - destruct (split (d :: s')) as [|w ws] eqn:Hs.
    + repeat constructor; [congruence|assumption].
    + inversion IH as [|? ? [_ Hw] Hws]; subst.
      constructor; [|assumption]. split; [congruence|]. now constructor.
Qed.

Lemma filter_filter_both {A} (f g : A -> bool) l :
  List.filter f (List.filter g l) = List.filter (fun x => g x && f x) l.
Proof.
  induction l as [|x l IH]; [reflexivity|].
  simpl. destruct (g x); simpl; [destruct (f x)|]; now rewrite ?IH.
Qed.

Lemma important_meaningful (w : pystr) :
  important w = negb (Spec.is_stop_word w) && negb (length w <=? 2)%nat.
Proof.
  unfold important, Spec.is_stop_word. rewrite andb_comm. f_equal. f_equal.
  destruct (Nat.leb_spec (length w) 2), (Z.ltb_spec 2 (Z.of_nat (length w)));
    (reflexivity || lia).
Qed.

Lemma meaningful_words_important query :
  Spec.meaningful_words query = List.filter important (split query).
Proof.
  unfold Spec.meaningful_words, Spec.remove_short_words, Spec.remove_stop_words.
  rewrite filter_filter_both. apply List.filter_ext. intros w.
  now rewrite important_meaningful.
Qed.

Lemma optimize_search_query_refines query :
  optimize_search_query query = Spec.optimize query.
Proof.
  unfold optimize_search_query, Spec.optimize, Spec.word_count.
  rewrite meaningful_words_important.
  destruct (Z.ltb_spec 8 (Z.of_nat (length (split query)))),
           (Nat.ltb_spec 8 (length (split query))); try lia; [|reflexivity].
  destruct (Z.ltb_spec 3 (Z.of_nat (length (List.filter important (split query))))),
           (Nat.leb_spec 4 (length (List.filter important (split query))));
    (reflexivity || lia).
Qed.

Lemma filter_all {A} (f : A -> bool) l :
  List.filter f l = l <-> Forall (fun x => f x = true) l.
Proof.
  induction l as [|x l IH]; simpl; [split; auto|].
  destruct (f x) eqn:Hx; split.
  - intros H. injection H as H. constructor; [assumption|now apply IH].
  - intros H. inversion H; subst. f_equal. now apply IH.
  - intros H. exfalso.
    assert (Hl : (length (List.filter f l) <= length l)%nat)
      by apply List.filter_length_le.
    rewrite H in Hl. simpl in Hl. lia.
  - intros H. inversion H; congruence.
Qed.

Lemma important_words_are_words query :
  Forall word (List.filter important (split query)).
Proof.
  pose proof (split_words query) as H.
  rewrite List.Forall_forall in *. intros w Hw.
  apply List.filter_In in Hw as [Hw _]. auto.
Qed.

(** When the reduced form is returned, it is the query itself exactly when
    nothing was dropped and the query was already single-spaced. *)
Lemma reduced_form_fixed query :
  Str.join (s_ " ") (List.filter important (split query)) = query <->
  List.filter important (split query) = split query
  /\ Str.join (s_ " ") (split query) = query.
Proof.
  split.
  - intros H.
    assert (Hs : split query = List.filter important (split query)).
    { rewrite <- H at 1. apply split_join, important_words_are_words. }
    split; [congruence|]. rewrite Hs. exact H.
  - intros [H1 H2]. now rewrite H1.
Qed.

Lemma optimize_search_query_cases query :
  optimize_search_query query = query
  \/ (optimize_search_query query
      = join (s_ " ") (List.filter important (split query))
      /\ (3 <? Z.of_nat (length (List.filter important (split query)))) = true).
Proof.
  unfold optimize_search_query.
  destruct (8 <? _); [|now left].
  destruct (3 <? _) eqn:H3; [now right|now left].
Qed.

(** Optimizing twice changes nothing more. *)
Lemma optimize_search_query_idempotent query :
  optimize_search_query (optimize_search_query query)
  = optimize_search_query query.
Proof.
  destruct (optimize_search_query_cases query) as [H|[H H3]];
    rewrite H; [assumption|].
  set (ws := List.filter important (split query)) in *.
  unfold optimize_search_query.
  assert (Hs : split (join (s_ " ") ws) = ws)
    by apply split_join, important_words_are_words.
  rewrite Hs.
  assert (Hf : List.filter important ws = ws).
  { apply filter_all. subst ws. rewrite List.Forall_forall.
    intros w Hw. now apply List.filter_In in Hw. }
  rewrite Hf, H3. now destruct (8 <? _).
Qed.

End Words.

(** ** Comparisons on rationals *)

Lemma Qltb_lt x y : Qltb x y = true <-> (x < y)%Q.
Proof.
  unfold Qltb. rewrite negb_true_iff, <- not_true_iff_false, Qle_bool_iff.
  split; [apply Qnot_le_lt|apply Qlt_not_le].
Qed.

Lemma Qltb_ge x y : Qltb x y = false <-> (y <= x)%Q.
Proof.
  unfold Qltb. rewrite negb_false_iff. apply Qle_bool_iff.
Qed.

Lemma three_pow_nonneg (a : Z) : (0 <= inject_Z (3 ^ a))%Q.
Proof.
  change 0%Q with (inject_Z 0). rewrite <- Zle_Qle.
  destruct (Z.le_gt_cases 0 a).
  - apply Z.pow_nonneg. lia.
  - rewrite Z.pow_neg_r by lia. lia.
Qed.

(** ** One step of a call at a time *)

Lemma jitter_range n : env_ok E -> (1 <= jitter n)%Q /\ (jitter n <= 3)%Q.
Proof. intros H. destruct (H n). unfold jitter. split; lra. Qed.

Lemma backoff_nonneg self attempt n :
  env_ok E -> (0 <= initial_backoff self)%Q -> (0 <= backoff self attempt n)%Q.
Proof.
  intros HE Hb. unfold backoff.
  pose proof (jitter_range n HE) as [Hj _].
  pose proof (three_pow_nonneg attempt) as Hp.
  pose proof (Qmult_le_0_compat _ _ Hb Hp). lra.
Qed.

Lemma fallback_search_eq query w :
  fallback_search E query w
  = (Ret (fallback_text query w), looked_up query w).
Proof.
  unfold fallback_search, fallback_text, bind, try_except, wikipedia_run_call.
  destruct (wikipedia_run E (lookups w) query) as [r|e]; [|reflexivity].
  destruct (negb _ && _); reflexivity.
Qed.

Lemma attempts_nil self query oq w :
  attempts E self query oq [] w = (Ret ImplicitNone, w).
Proof. reflexivity. Qed.

Lemma attempts_success self query oq attempt rest w result :
  search_runner self (searches w) oq = Ret result ->
  attempts E self query oq (attempt :: rest) w
  = (Ret (SearchResult result), stored self query oq result (searched oq w)).
Proof.
  intros H. cbn [attempts].
  unfold try_except, bind, search_runner_run, stored. rewrite H.
  destruct (use_cache self); reflexivity.
Qed.

Lemma attempts_error self query oq attempt rest w msg :
  search_runner self (searches w) oq = Raise (Exception msg) ->
  attempts E self query oq (attempt :: rest) w
  = (Ret (ErrorString (s_ "Unexpected search error: " ++ msg)), searched oq w).
Proof.
  intros H. cbn [attempts].
  unfold try_except, bind, search_runner_run. rewrite H. reflexivity.
Qed.

Lemma attempts_fallback self query oq attempt rest w msg :
  search_runner self (searches w) oq = Raise (DuckDuckGoSearchException msg) ->
  Str.contains (s_ "Ratelimit") msg && (attempt <? max_retries self) = false ->
  attempts E self query oq (attempt :: rest) w
  = (Ret (FallbackResult
            (fallback_text query (log (Print SwitchingToFallback) (searched oq w)))),
     looked_up query (log (Print SwitchingToFallback) (searched oq w))).
Proof.
  intros H Hc. cbn [attempts].
  unfold try_except, bind at 1, search_runner_run. rewrite H.
  cbn [str_exn]. rewrite Hc.
  unfold bind, print. rewrite fallback_search_eq. reflexivity.
Qed.

Lemma attempts_retry self query oq attempt rest w msg :
  search_runner self (searches w) oq = Raise (DuckDuckGoSearchException msg) ->
  Str.contains (s_ "Ratelimit") msg && (attempt <? max_retries self) = true ->
  (0 <= backoff self attempt (draws w))%Q ->
  attempts E self query oq (attempt :: rest) w
  = attempts E self query oq rest (retried self oq attempt w).
Proof.
  intros H Hc Hb. cbn [attempts].
  unfold try_except, bind at 1, search_runner_run. rewrite H.
  cbn [str_exn]. rewrite Hc.
  unfold bind, random_uniform, bind, random_random_call, ret, print, time_sleep.
  cbn [draws log clock _search_cache _last_search_time searches lookups trace].
  apply Qltb_ge in Hb. unfold backoff, jitter in Hb. rewrite Hb.
  unfold retried, backoff, jitter. rewrite <- !app_assoc. reflexivity.
Qed.

(** A negative back-off makes [time.sleep] raise inside the handler. *)
Lemma attempts_retry_raises self query oq attempt rest w msg :
  search_runner self (searches w) oq = Raise (DuckDuckGoSearchException msg) ->
  Str.contains (s_ "Ratelimit") msg && (attempt <? max_retries self) = true ->
  (backoff self attempt (draws w) < 0)%Q ->
  exists e w', attempts E self query oq (attempt :: rest) w = (Raise e, w')
    /\ _search_cache w' = _search_cache w
    /\ _last_search_time w' = _last_search_time w
    /\ searches w' = S (searches w).
Proof.
  intros H Hc Hb. cbn [attempts].
  unfold try_except, bind at 1, search_runner_run. rewrite H.
  cbn [str_exn]. rewrite Hc.
  unfold bind, random_uniform, bind, random_random_call, ret, print, time_sleep.
  cbn [draws log clock _search_cache _last_search_time searches lookups trace].
  apply Qltb_lt in Hb. unfold backoff, jitter in Hb. rewrite Hb.
  eexists _, _. split; [reflexivity|]. auto.
Qed.

Lemma search_cooldown_eq w : search_cooldown w = (Ret tt, cooled_down w).
Proof.
  unfold search_cooldown, cooled_down, bind, time_time, get_last_search_time.
  destruct (Qltb (clock w - _last_search_time w) _ && _) eqn:Hc; [|reflexivity].
  apply andb_true_iff in Hc as [Hlt _]. apply Qltb_lt in Hlt.
  unfold print, time_sleep, log.
  cbn [clock _search_cache _last_search_time searches lookups draws trace].
  assert (Hd : Qltb (_min_delay_between_searches
                     - (clock w - _last_search_time w)) 0 = false)
    by (apply Qltb_ge; lra).
  rewrite Hd, <- app_assoc. reflexivity.
Qed.

Lemma cooled_down_cache w : _search_cache (cooled_down w) = _search_cache w.
Proof. unfold cooled_down. now destruct (_ && _). Qed.

Lemma announced_cache query w :
  _search_cache (announced query w) = _search_cache w.
Proof. unfold announced. now destruct (bool_decide _). Qed.

Lemma cooled_down_searches w : searches (cooled_down w) = searches w.
Proof. unfold cooled_down. now destruct (_ && _). Qed.

Lemma announced_searches query w : searches (announced query w) = searches w.
Proof. unfold announced. now destruct (bool_decide _). Qed.

Lemma dispatched_cache query w :
  _search_cache (dispatched query w) = _search_cache w.
Proof.
  unfold dispatched. cbn [stamped _search_cache].
  now rewrite announced_cache, cooled_down_cache.
Qed.

Lemma dispatched_searches query w : searches (dispatched query w) = searches w.
Proof.
  unfold dispatched. cbn [stamped searches].
  now rewrite announced_searches, cooled_down_searches.
Qed.

(** [run], one return statement at a time. *)
Lemma run_eq self query w :
  run E self query w =
  match cache_lookup self query w with
  | Some result =>
      (Ret (CachedResult result), log (Print (UsingCached query)) w)
  | None =>
      match (if bool_decide (optimize_search_query query = query) then None
             else cache_lookup self (optimize_search_query query) w) with
      | Some result =>
          (Ret (CachedOptimizedResult result),
           log (Print (UsingCachedOptimized (optimize_search_query query)))
               (announced query (cooled_down w)))
      | None =>
          attempts E self query (optimize_search_query query)
                   (py_range (max_retries self + 1)) (dispatched query w)
      end
  end.
Proof.
  unfold run, bind at 1, cached, cache_lookup.
  destruct (use_cache self) eqn:Hu.
  - unfold cache_get at 1. destruct (_search_cache w !! query); [reflexivity|].
    unfold bind at 1. rewrite search_cooldown_eq.
    unfold dispatched, announced.
    destruct (bool_decide (optimize_search_query query = query)); [reflexivity|].
    cbn [negb]. unfold bind, print, cache_get.
    cbn [log _search_cache]. rewrite cooled_down_cache.
    destruct (_search_cache w !! optimize_search_query query); reflexivity.
  - unfold ret at 1. unfold bind at 1. rewrite search_cooldown_eq.
    unfold dispatched, announced.
    destruct (bool_decide (optimize_search_query query = query)); reflexivity.
Qed.

Lemma run_dispatches self query w :
  cache_answer self query w = None ->
  run E self query w
  = attempts E self query (optimize_search_query query)
             (py_range (max_retries self + 1)) (dispatched query w).
Proof.
  intros H. rewrite run_eq. unfold cache_answer in H.
  destruct (cache_lookup self query w); [discriminate|]. now rewrite H.
Qed.

Lemma py_range_from n : py_range n = range_from 0 (Z.to_nat n).
Proof. reflexivity. Qed.

Lemma range_from_S a n : range_from a (S n) = Z.of_nat a :: range_from (S a) n.
Proof. reflexivity. Qed.

Lemma after_retries_frame self oq k : forall a w,
  let w' := after_retries self oq a k w in
  searches w' = (searches w + k)%nat
  /\ draws w' = (draws w + k)%nat
  /\ lookups w' = lookups w
  /\ _search_cache w' = _search_cache w
  /\ _last_search_time w' = _last_search_time w
  /\ trace w' = trace w ++ retry_events self oq a (draws w) k.
Proof.
  induction k as [|k IH]; intros a w; cbn.
  - rewrite !Nat.add_0_r, app_nil_r. tauto.
  - destruct (IH (S a) (retried self oq (Z.of_nat a) w))
      as (Hs & Hd & Hl & Hc & Ht & Htr).
    cbn in *. rewrite Hs, Hd, Hl, Hc, Ht, Htr, <- app_assoc.
    repeat split; lia || reflexivity.
Qed.

Lemma attempts_retries self query oq :
  env_ok E -> (0 <= initial_backoff self)%Q ->
  forall k a n w,
    rate_limited_next self oq w k ->
    Z.of_nat (a + k) <= max_retries self ->
    attempts E self query oq (range_from a (k + n)) w
    = attempts E self query oq (range_from (a + k) n)
               (after_retries self oq a k w).
Proof.
  intros HE Hb. induction k as [|k IH]; intros a n w Hrl Hmax.
  - cbn. now rewrite Nat.add_0_r.
  - destruct (Hrl 0%nat) as (e & He & Hsig); [lia|].
    rewrite Nat.add_0_r in He.
    destruct e as [msg|msg]; [|discriminate].
    cbn [rate_limit_signature] in Hsig.
    cbn [Nat.add]. rewrite range_from_S.
    rewrite (attempts_retry self query oq _ _ w msg He).
    + rewrite IH.
      * cbn [after_retries]. now rewrite Nat.add_succ_r.
      * intros i Hi. destruct (Hrl (S i)) as (e & He' & Hs'); [lia|].
        exists e. split; [|assumption].
        cbn [retried searches]. now rewrite Nat.add_succ_l, <- Nat.add_succ_r.
      * lia.
    + rewrite Hsig. cbn. apply Z.ltb_lt. lia.
    + now apply backoff_nonneg.
Qed.

Lemma attempts_turn self query oq attempt rest w :
  turn self query oq attempt rest w.
Proof.
  destruct (search_runner self (searches w) oq) as [result|[msg|msg]] eqn:Hr.
  - eapply turn_success; eauto using attempts_success.
  - destruct (Str.contains (s_ "Ratelimit") msg && (attempt <? max_retries self))
      eqn:Hc.
    + pose proof Hc as Hc'. apply andb_true_iff in Hc' as [Hin Hlt].
      apply Z.ltb_lt in Hlt.
      destruct (Qlt_le_dec (backoff self attempt (draws w)) 0) as [Hneg|Hpos].
      * destruct (attempts_retry_raises self query oq attempt rest w msg Hr Hc Hneg)
          as (e & w' & He & ? & ? & ?).
        eapply turn_sleep_raises; eauto.
      * eapply turn_retry; eauto using attempts_retry.
    + eapply turn_fallback; eauto using attempts_fallback.
  - eapply turn_error; eauto using attempts_error.
Qed.

(** With a non-negative back-off the loop always returns, and returns a
    string, as soon as its last attempt has index [max_retries]. *)
Lemma attempts_returns self query oq :
  env_ok E -> (0 <= initial_backoff self)%Q ->
  forall n a w,
    Z.of_nat (a + n) = max_retries self ->
    exists r s w',
      attempts E self query oq (range_from a (S n)) w = (Ret r, w')
      /\ value r = Some s.
Proof.
  intros HE Hb. induction n as [|n IH]; intros a w Hmax;
    rewrite range_from_S;
    match goal with
    | |- context [attempts _ _ _ _ (?x :: ?l) ?w] =>
        destruct (attempts_turn self query oq x l w)
          as [r Hr Heq|msg Hr Heq|msg Hr Hc Heq|msg Hr Hin Hlt Heq
              |msg e w' Hr Hin Hneg Heq]
    end;
    try (rewrite Heq; eexists _, _, _; split; reflexivity);
    try (pose proof (backoff_nonneg self (Z.of_nat a) (draws w) HE Hb); lra).
  - lia.
  - rewrite Heq. apply IH. lia.
Qed.

Lemma stored_searches self query oq result w :
  searches (stored self query oq result w) = searches w.
Proof. unfold stored. now destruct (use_cache self). Qed.

Lemma stored_last self query oq result w :
  _last_search_time (stored self query oq result w) = _last_search_time w.
Proof. unfold stored. now destruct (use_cache self). Qed.

Lemma stored_cache self query oq result w :
  _search_cache (stored self query oq result w)
  = if use_cache self
    then <[oq := result]> (<[query := result]> (_search_cache w))
    else _search_cache w.
Proof. unfold stored. now destruct (use_cache self). Qed.

(** What the loop may change: never the time stamp; the cache only by the
    two writes of a successful attempt. *)
Lemma attempts_effects self query oq todo : forall w o w',
  attempts E self query oq todo w = (o, w') ->
  _last_search_time w' = _last_search_time w
  /\ (searches w <= searches w')%nat
  /\ match o with
     | Ret (SearchResult result) =>
         (searches w < searches w')%nat
         /\ _search_cache w'
            = if use_cache self
              then <[oq := result]> (<[query := result]> (_search_cache w))
              else _search_cache w
     | Ret (FallbackResult _) | Ret (ErrorString _) =>
         (searches w < searches w')%nat /\ _search_cache w' = _search_cache w
     | _ => _search_cache w' = _search_cache w
     end.
Proof.
  induction todo as [|attempt rest IH]; intros w o w' H.
  - rewrite attempts_nil in H. injection H as <- <-. auto.
  - destruct (attempts_turn self query oq attempt rest w)
      as [r Hr Heq|msg Hr Heq|msg Hr Hc Heq|msg Hr Hin Hlt Heq
          |msg e w1 Hr Hin Hneg Heq Hc1 Hl1 Hs1];
      rewrite Heq in H.
    + injection H as <- <-.
      rewrite stored_last, stored_searches, stored_cache. cbn. auto.
    + injection H as <- <-. cbn. auto.
    + injection H as <- <-. cbn. auto.
    + apply IH in H as (Hl & Hs & Ho). cbn in Hl, Hs.
      split; [assumption|]. split; [lia|].
      destruct o as [[]|]; cbn in Ho |- *; try assumption;
        (split; [lia|tauto]).
    + injection H as <- <-. rewrite Hs1. auto.
Qed.

(** A request answered by an exception other than the rate-limit signature
    is the last one of the call, and decides what the call returns. *)
Lemma attempts_calls self query oq todo : forall w o w',
  attempts E self query oq todo w = (o, w') ->
  forall i e,
    (searches w <= i < searches w')%nat ->
    search_runner self i oq = Raise e ->
    rate_limit_signature e = false ->
    searches w' = S i
    /\ match e with
       | Exception msg =>
           o = Ret (ErrorString (s_ "Unexpected search error: " ++ msg))
       | DuckDuckGoSearchException _ =>
           exists s wf, o = Ret (FallbackResult s)
                        /\ fallback_search E query wf = (Ret s, w')
       end.
Proof.
  induction todo as [|attempt rest IH]; intros w o w' H i e Hi He Hsig.
  - rewrite attempts_nil in H. injection H as <- <-. lia.
  - destruct (attempts_turn self query oq attempt rest w)
      as [r Hr Heq|msg Hr Heq|msg Hr Hc Heq|msg Hr Hin Hlt Heq
          |msg e1 w1 Hr Hin Hneg Heq Hc1 Hl1 Hs1];
      rewrite Heq in H.
    + injection H as <- <-. rewrite stored_searches in Hi. cbn in Hi.
      assert (i = searches w) by lia. subst i. congruence.
    + injection H as <- <-. cbn in Hi |- *.
      assert (i = searches w) by lia. subst i.
      rewrite Hr in He. injection He as <-. auto.
    + injection H as <- <-. cbn in Hi |- *.
      assert (i = searches w) by lia. subst i.
      rewrite Hr in He. injection He as <-. split; [reflexivity|].
      eexists _, _. split; [reflexivity|]. apply fallback_search_eq.
    + destruct (Nat.eq_dec i (searches w)) as [->|Hne].
      * rewrite Hr in He. injection He as <-.
        cbn [rate_limit_signature] in Hsig. congruence.
      * eapply IH; eauto. cbn. lia.
    + injection H as <- <-. rewrite Hs1 in Hi.
      assert (i = searches w) by lia. subst i.
      rewrite Hr in He. injection He as <-.
        cbn [rate_limit_signature] in Hsig. congruence.
Qed.

End Facts.

(** * The claims *)

Example optimize_AI : optimize_search_query (s_ "AI") = s_ "AI".
Proof. reflexivity. Qed.

Example optimize_long :
  optimize_search_query
    (s_ "what is the impact of AI on the future of global labor markets")
  = s_ "what impact future global labor markets".
Proof. vm_compute. reflexivity. Qed.

(** ** The claims on retry, back-off and fallback *)

Lemma dispatched_draws query w : draws (dispatched query w) = draws w.
Proof.
  unfold dispatched, announced, cooled_down. cbn [stamped draws].
  destruct (bool_decide _), (_ && _); reflexivity.
Qed.

Lemma stored_trace self query oq result w :
  trace (stored self query oq result w) = trace w.
Proof. unfold stored. now destruct (use_cache self). Qed.

Lemma rate_limited_next_dispatched self query oq w k k' :
  (k' <= k)%nat ->
  rate_limited_next self oq w k ->
  rate_limited_next self oq (dispatched query w) k'.
Proof.
  intros Hk H i Hi. rewrite dispatched_searches. apply H. lia.
Qed.

(** C2. When every attempt meets the rate-limit signature and
    [max_retries = 3], the search runner is asked exactly four times
    (attempts 0 to 3, a back-off after each of the first three), and the
    call returns what [fallback_search] answers for the original query; no
    exception reaches the caller. *)
Theorem exhausted_retries_fall_back E self query w :
  env_ok E -> max_retries self = 3 -> (0 <= initial_backoff self)%Q ->
  cache_answer self query w = None ->
  rate_limited_next self (optimize_search_query query) w 4 ->
  exists wf s w',
    run E self query w = (Ret (FallbackResult s), w')
    /\ fallback_search E query wf = (Ret s, w')
    /\ searches w' = (searches w + 4)%nat
    /\ trace w'
       = trace (dispatched query w)
         ++ retry_events E self (optimize_search_query query) 0 (draws w) 3
         ++ [Search (optimize_search_query query);
             Print SwitchingToFallback; Wikipedia query].
Proof.
  intros HE Hmax Hb Hmiss Hrl.
  set (oq := optimize_search_query query) in *.
  rewrite run_dispatches by assumption. fold oq.
  rewrite Hmax. change (py_range (3 + 1)) with (range_from 0 (3 + 1)).
  rewrite (attempts_retries E self query oq HE Hb 3 0 1 (dispatched query w));
    [|apply (rate_limited_next_dispatched self query oq w 4); [lia|assumption]
     |rewrite Hmax; cbn; lia].
  set (w3 := after_retries E self oq 0 3 (dispatched query w)).
  destruct (after_retries_frame E self oq 3 0 (dispatched query w))
    as (Hs & _ & _ & _ & _ & Htr). fold w3 in Hs, Htr.
  rewrite dispatched_searches in Hs. rewrite dispatched_draws in Htr.
  destruct (Hrl 3%nat) as (e & He & Hsig); [lia|].
  destruct e as [msg|msg]; [|discriminate].
  rewrite <- Hs in He.
  change (range_from (0 + 3) 1) with [3].
  rewrite (attempts_fallback E self query oq 3 [] w3 msg He)
    by (rewrite Hmax; apply andb_false_r).
  eexists _, _, _. split; [reflexivity|].
  split; [apply fallback_search_eq|].
  cbn [looked_up log searched searches trace]. rewrite Hs, Htr.
  split; [lia|]. now rewrite <- !app_assoc.
Qed.

(** ** What a call does to the process state *)

Lemma log_searches e w : searches (log e w) = searches w.
Proof. reflexivity. Qed.

Lemma cache_answer_None self query w :
  cache_answer self query w = None <->
  cache_lookup self query w = None
  /\ (optimize_search_query query = query
      \/ cache_lookup self (optimize_search_query query) w = None).
Proof.
  unfold cache_answer.
  destruct (cache_lookup self query w); [intuition discriminate|].
  destruct (bool_decide_reflect (optimize_search_query query = query));
    intuition.
Qed.

(** A call either is answered from the cache, touching neither the search
    runner nor the time stamp, or runs the loop from the dispatch world. *)
Lemma run_cases E self query w :
  (exists s, cache_answer self query w = Some s
     /\ exists r w', run E self query w = (Ret r, w') /\ value r = Some s
          /\ (r = CachedResult s \/ r = CachedOptimizedResult s)
          /\ searches w' = searches w
          /\ _search_cache w' = _search_cache w
          /\ _last_search_time w' = _last_search_time w)
  \/ (cache_answer self query w = None
      /\ run E self query w
         = attempts E self query (optimize_search_query query)
                    (py_range (max_retries self + 1)) (dispatched query w)).
Proof.
  destruct (cache_answer self query w) as [s|] eqn:Hans;
    [left|right; split; [reflexivity|now apply run_dispatches]].
  exists s. split; [reflexivity|]. rewrite run_eq. unfold cache_answer in Hans.
  destruct (cache_lookup self query w) as [r|].
  - injection Hans as ->. eexists _, _. split; [reflexivity|]. cbn. auto 10.
  - rewrite Hans. eexists _, _. split; [reflexivity|].
    cbn [value log searches _search_cache _last_search_time].
    rewrite announced_searches, cooled_down_searches,
      announced_cache, cooled_down_cache.
    unfold announced, cooled_down.
    destruct (bool_decide _), (_ && _); auto 10.
Qed.

(** C4, as the code has it.  An exception of the search runner that is not
    the rate-limit signature ends the call: no further request follows, and
    nothing is raised to the caller.  If it is not a
    [DuckDuckGoSearchException], the call returns
    "Unexpected search error: " followed by its text; if it is a
    [DuckDuckGoSearchException] whose text lacks "Ratelimit", the call
    returns what [fallback_search] answers for the original query. *)
Theorem other_exceptions_end_the_call E self query w o w' i e :
  run E self query w = (o, w') ->
  (searches w <= i < searches w')%nat ->
  search_runner self i (optimize_search_query query) = Raise e ->
  rate_limit_signature e = false ->
  searches w' = S i
  /\ match e with
     | Exception msg =>
         o = Ret (ErrorString (s_ "Unexpected search error: " ++ msg))
     | DuckDuckGoSearchException _ =>
         exists s wf, o = Ret (FallbackResult s)
                      /\ fallback_search E query wf = (Ret s, w')
     end.
Proof.
  intros Hrun Hi He Hsig.
  destruct (run_cases E self query w)
    as [(s & _ & r & w1 & Hr & _ & _ & Hs & _)|[_ Hr]]; rewrite Hr in Hrun.
  - injection Hrun as <- <-. lia.
  - eapply attempts_calls; eauto. now rewrite dispatched_searches.
Qed.

Lemma attempts_asks_once E self query oq attempt rest w o w' :
  attempts E self query oq (attempt :: rest) w = (o, w') ->
  (searches w < searches w')%nat.
Proof.
  intros H.
  destruct (attempts_turn E self query oq attempt rest w)
    as [r Hr Heq|msg Hr Heq|msg Hr Hc Heq|msg Hr Hin Hlt Heq
        |msg e w1 Hr Hin Hneg Heq Hc1 Hl1 Hs1];
    rewrite Heq in H.
  - injection H as <- <-. rewrite stored_searches. cbn. lia.
  - injection H as <- <-. cbn. lia.
  - injection H as <- <-. cbn. lia.
  - apply attempts_effects in H as (_ & Hs & _). cbn in Hs. lia.
  - injection H as <- <-. lia.
Qed.

Lemma cache_answer_same_cache self query w1 w2 :
  _search_cache w1 = _search_cache w2 ->
  cache_answer self query w1 = cache_answer self query w2.
Proof. intros H. unfold cache_answer, cache_lookup. now rewrite H. Qed.

(** C10. The cache is written on the success path only: a call that does
    not return the result of a successful request leaves the cache as it
    was.  So after a call that ended in the fallback or in the error string,
    the next call for the same query asks the search runner again. *)
Theorem failures_are_not_cached E self query w r w' :
  run E self query w = (Ret r, w') ->
  ((forall s, r <> SearchResult s) -> _search_cache w' = _search_cache w)
  /\ ((exists s, r = FallbackResult s \/ r = ErrorString s) ->
      forall w2 o w3,
        _search_cache w2 = _search_cache w' ->
        run E self query w2 = (o, w3) ->
        (searches w2 < searches w3)%nat).
Proof.
  intros Hrun.
  destruct (run_cases E self query w)
    as [(s & _ & r1 & w1 & Hr & _ & Hcases & _ & Hc & _)|[Hmiss Hr]];
    rewrite Hr in Hrun.
  - injection Hrun as <- <-. split; [auto|].
    intros (s' & [->| ->]); destruct Hcases; discriminate.
  - pose proof (attempts_effects _ _ _ _ _ _ _ _ Hrun) as (_ & _ & Hc).
    rewrite dispatched_cache in Hc. split.
    + intros Hns. destruct r; try tauto. now destruct (Hns s eq_refl).
    + intros Hfail w2 o w3 Hsame Hrun2.
      assert (Hc' : _search_cache w' = _search_cache w)
        by (destruct Hfail as (s & [->| ->]); tauto).
      assert (Hmiss2 : cache_answer self query w2 = None).
      { rewrite <- Hmiss. apply cache_answer_same_cache. congruence. }
      rewrite run_dispatches in Hrun2 by assumption.
      destruct (py_range (max_retries self + 1)) as [|a rest].
      * rewrite attempts_nil in Hrun. injection Hrun as <- <-.
        destruct Hfail as (s & [?|?]); discriminate.
      * apply attempts_asks_once in Hrun2.
        now rewrite dispatched_searches in Hrun2.
Qed.

(** ** The cache over a process lifetime *)

(** A call leaves the cache as it is, or adds entries under two keys that
    had none. *)
Lemma run_cache E self query w o w' :
  run E self query w = (o, w') ->
  _search_cache w' = _search_cache w
  \/ exists result,
       _search_cache w'
       = <[optimize_search_query query := result]>
           (<[query := result]> (_search_cache w))
       /\ _search_cache w !! query = None
       /\ (optimize_search_query query = query
           \/ _search_cache w !! optimize_search_query query = None).
Proof.
  intros Hrun.
  destruct (run_cases E self query w)
    as [(s & _ & r1 & w1 & Hr & _ & _ & _ & Hc & _)|[Hmiss Hr]];
    rewrite Hr in Hrun.
  - injection Hrun as <- <-. now left.
  - pose proof (attempts_effects _ _ _ _ _ _ _ _ Hrun) as (_ & _ & Hc).
    rewrite dispatched_cache in Hc.
    destruct o as [[]|]; try tauto.
    destruct Hc as [_ Hc]. destruct (use_cache self) eqn:Hu; [|now left].
    right. exists s. split; [assumption|].
    apply cache_answer_None in Hmiss. unfold cache_lookup in Hmiss.
    now rewrite Hu in Hmiss.
Qed.

Lemma answers_run E self query' w o w' query s :
  run E self query' w = (o, w') ->
  answers (_search_cache w) query s ->
  answers (_search_cache w') query s.
Proof.
  intros Hrun Hans.
  destruct (run_cache _ _ _ _ _ _ Hrun) as [->|(r & -> & Hq & Hoq)];
    [assumption|].
  set (c := _search_cache w) in *.
  set (oq' := optimize_search_query query') in *.
  assert (Hfresh : forall k v, c !! k = Some v ->
            <[oq' := r]> (<[query' := r]> c) !! k = Some v).
  { intros k v Hk.
    rewrite !lookup_insert_ne; [assumption|congruence|].
    destruct Hoq as [Hoq|Hoq]; congruence. }
  destruct Hans as [Hs|(Hn & Hne & Hs)]; [left; auto|right].
  split; [|auto].
  assert (query' <> query).
  { intros ->. fold oq' in Hne, Hs. destruct Hoq; congruence. }
  assert (oq' <> query).
  { intros Heq. apply Hne. rewrite <- Heq. subst oq'.
    apply optimize_search_query_idempotent. }
  now rewrite !lookup_insert_ne.
Qed.

Lemma answers_cache_answer self query w s :
  use_cache self = true ->
  answers (_search_cache w) query s <-> cache_answer self query w = Some s.
Proof.
  intros Hu. unfold answers, cache_answer, cache_lookup. rewrite Hu.
  destruct (_search_cache w !! query) as [r|].
  - split; [intros [H|(H & _)]; congruence|intros H; now left].
  - destruct (bool_decide_reflect (optimize_search_query query = query)).
    + split; [intros [H|(_ & H & _)]; congruence|discriminate].
    + split; [intros [H|(_ & _ & H)]; congruence|intros H; right; auto].
Qed.

(** ** The claims on the optimizer *)

Lemma mem_In (x : pystr) xs : Str.mem x xs = true <-> In x xs.
Proof.
  unfold Str.mem. rewrite existsb_exists. split.
  - intros (y & Hy & Heq). apply bool_decide_eq_true in Heq. now subst.
  - intros H. exists x. split; [assumption|]. now apply bool_decide_eq_true.
Qed.

Lemma meaningful_words_In query w :
  In w (Spec.meaningful_words query) <->
  In w (Str.split query) /\ (2 < length w)%nat
  /\ ~ In (Str.lower w) filler_words.
Proof.
  rewrite meaningful_words_important, List.filter_In.
  unfold important. rewrite andb_true_iff, negb_true_iff, Z.ltb_lt.
  rewrite <- not_true_iff_false, mem_In. intuition lia.
Qed.

(** C6. [optimize_search_query] is the optimizer of the specification: a
    query of more than eight words loses its stop-words and its words of at
    most two characters, and the remaining words, in order and joined by
    single spaces, are returned when there are at least four of them;
    otherwise, and for every query of at most eight words, the query comes
    back unchanged.  The one-word query "AI" comes back unchanged. *)
Theorem optimize_search_query_meets_spec :
  (forall query,
     optimize_search_query query = Spec.optimize query
     /\ optimize_search_query query
        = (if (8 <? length (Str.split query))%nat
              && (4 <=? length (Spec.meaningful_words query))%nat
           then Str.join (s_ " ") (Spec.meaningful_words query)
           else query)
     /\ Spec.meaningful_words query
        = List.filter
            (fun w => (2 <? length w)%nat
                      && negb (bool_decide (In (Str.lower w) filler_words)))
            (Str.split query))
  /\ optimize_search_query (s_ "AI") = s_ "AI".
Proof.
  split; [|reflexivity]. intros query.
  split; [apply optimize_search_query_refines|]. split.
  - rewrite optimize_search_query_refines.
    unfold Spec.optimize, Spec.word_count.
    now destruct (8 <? _)%nat, (4 <=? _)%nat.
  - rewrite meaningful_words_important. apply List.filter_ext. intros w.
    unfold important. f_equal.
    + destruct (Z.ltb_spec 2 (Z.of_nat (length w))),
               (Nat.ltb_spec 2 (length w)); (reflexivity || lia).
    + f_equal. destruct (Str.mem _ _) eqn:Hm.
      * symmetry. apply bool_decide_eq_true. now apply mem_In.
      * symmetry. apply bool_decide_eq_false. rewrite <- mem_In. congruence.
Qed.

(** C7, as the code has it.  For a query of more than eight words that
    reduces to at least four meaningful words, [optimize_search_query]
    returns those words joined by single spaces; this differs from the query
    unless no word was dropped and the query was already single-spaced.
    When the search succeeds, with caching enabled, the result is stored
    under the raw query and under the optimized query. *)
Theorem optimized_form_has_its_own_cache_slot query :
  (8 < length (Str.split query))%nat ->
  (4 <= length (Spec.meaningful_words query))%nat ->
  optimize_search_query query
  = Str.join (s_ " ") (Spec.meaningful_words query)
  /\ (optimize_search_query query = query <->
      Spec.meaningful_words query = Str.split query
      /\ Str.join (s_ " ") (Str.split query) = query)
  /\ (forall E self w result w',
        use_cache self = true ->
        run E self query w = (Ret (SearchResult result), w') ->
        _search_cache w'
        = <[optimize_search_query query := result]>
            (<[query := result]> (_search_cache w))
        /\ _search_cache w' !! query = Some result
        /\ _search_cache w' !! optimize_search_query query = Some result).
Proof.
  intros Hwords Hkept.
  assert (Hopt : optimize_search_query query
                 = Str.join (s_ " ") (Spec.meaningful_words query)).
  { rewrite optimize_search_query_refines.
    unfold Spec.optimize, Spec.word_count.
    apply Nat.ltb_lt in Hwords. apply Nat.leb_le in Hkept.
    now rewrite Hwords, Hkept. }
  split; [assumption|]. split.
  - rewrite Hopt, meaningful_words_important. apply reduced_form_fixed.
  - intros E self w result w' Hu Hrun.
    destruct (run_cases E self query w)
      as [(s & _ & r1 & w1 & Hr & _ & Hcases & _)|[Hmiss Hr]];
      rewrite Hr in Hrun.
    + injection Hrun as -> _. destruct Hcases; discriminate.
    + pose proof (attempts_effects _ _ _ _ _ _ _ _ Hrun) as (_ & _ & _ & Hc).
      rewrite dispatched_cache, Hu in Hc. rewrite Hc.
      split; [reflexivity|]. split; [|apply lookup_insert_eq].
      destruct (decide (optimize_search_query query = query)) as [Heq|Hne].
      * rewrite Heq. apply lookup_insert_eq.
      * rewrite lookup_insert_ne by assumption. apply lookup_insert_eq.
Qed.

(** ** The claims on the rate gates *)

Lemma invoke_cooldown_eq {Input Output}
    (self : RateLimitedAgentExecutor Input Output) w :
  invoke_cooldown self w = (Ret tt, waited self w).
Proof.
  unfold invoke_cooldown, waited, bind, time_time.
  destruct (Qltb (clock w - last_call_time self) _ && _) eqn:Hc;
    [|reflexivity].
  apply andb_true_iff in Hc as [Hlt _]. apply Qltb_lt in Hlt.
  unfold print, time_sleep, log.
  cbn [clock _search_cache _last_search_time searches lookups draws trace].
  assert (Hd : Qltb (min_delay self - (clock w - last_call_time self)) 0
               = false) by (apply Qltb_ge; lra).
  rewrite Hd, <- app_assoc. reflexivity.
Qed.

Lemma invoke_eq {Input Output}
    (self : RateLimitedAgentExecutor Input Output) input_data w :
  invoke self input_data w
  = (agent_executor self input_data (waited self w),
     Executor (agent_executor self) (min_delay self) (clock (waited self w))).
Proof. unfold invoke. now rewrite invoke_cooldown_eq. Qed.

Lemma cooled_down_first w :
  (_last_search_time w == 0)%Q -> cooled_down w = w.
Proof.
  intros H. unfold cooled_down.
  assert (Hz : Qltb 0 (_last_search_time w) = false) by (apply Qltb_ge; lra).
  now rewrite Hz, andb_false_r.
Qed.

Lemma cooled_down_wait w :
  (0 < _last_search_time w)%Q ->
  (clock w - _last_search_time w < _min_delay_between_searches)%Q ->
  trace (cooled_down w)
  = trace w
    ++ [Print (SearchCooldown (_min_delay_between_searches
                               - (clock w - _last_search_time w)));
        Sleep (_min_delay_between_searches
               - (clock w - _last_search_time w))]
  /\ (clock (cooled_down w)
      == _last_search_time w + _min_delay_between_searches)%Q.
Proof.
  intros H0 Hlt. unfold cooled_down.
  apply Qltb_lt in H0, Hlt. rewrite H0, Hlt. cbn [andb trace clock].
  split; [reflexivity|ring].
Qed.

Lemma waited_first {Input Output}
    (self : RateLimitedAgentExecutor Input Output) w :
  (last_call_time self == 0)%Q -> waited self w = w.
Proof.
  intros H. unfold waited.
  assert (Hz : Qltb 0 (last_call_time self) = false) by (apply Qltb_ge; lra).
  now rewrite Hz, andb_false_r.
Qed.

Lemma waited_wait {Input Output}
    (self : RateLimitedAgentExecutor Input Output) w :
  (0 < last_call_time self)%Q ->
  (clock w - last_call_time self < min_delay self)%Q ->
  trace (waited self w)
  = trace w
    ++ [Print (RateLimitingWait (min_delay self
                                 - (clock w - last_call_time self)));
        Sleep (min_delay self - (clock w - last_call_time self))]
  /\ (clock (waited self w) == last_call_time self + min_delay self)%Q.
Proof.
  intros H0 Hlt. unfold waited.
  apply Qltb_lt in H0, Hlt. rewrite H0, Hlt. cbn [andb trace clock].
  split; [reflexivity|ring].
Qed.

Lemma dispatched_clock query w :
  clock (dispatched query w) = clock (cooled_down w).
Proof.
  unfold dispatched, announced. cbn [stamped clock].
  now destruct (bool_decide _).
Qed.

Lemma run_stamp E self query w o w' :
  cache_answer self query w = None ->
  run E self query w = (o, w') ->
  _last_search_time w' = clock (cooled_down w).
Proof.
  intros Hmiss Hrun. rewrite run_dispatches in Hrun by assumption.
  apply attempts_effects in Hrun as (Hl & _).
  rewrite Hl. unfold dispatched. cbn [stamped _last_search_time].
  unfold announced. now destruct (bool_decide _).
Qed.

(** C8. Both rate gates, the one of the search tool (5 seconds) and the one
    of the agent executor (2 seconds), work alike.  A call that is not
    answered from the cache goes through the gate and proceeds at the time
    the gate lets it go.  While the time stamp has never been set (it is 0)
    the gate does not wait.  When it has been set and less than the minimum
    delay has elapsed since, the gate sleeps for the minimum delay minus the
    elapsed time, so that the call proceeds at time stamp plus minimum
    delay. *)
Theorem rate_gates_wait_out_the_minimum_delay :
  (forall E self query w o w',
     cache_answer self query w = None ->
     run E self query w = (o, w') ->
     exists w1,
       search_cooldown w = (Ret tt, w1)
       /\ _last_search_time w' = clock w1
       /\ ((_last_search_time w == 0)%Q -> w1 = w)
       /\ ((0 < _last_search_time w)%Q ->
           (clock w - _last_search_time w < _min_delay_between_searches)%Q ->
           trace w1
           = trace w
             ++ [Print (SearchCooldown (_min_delay_between_searches
                                        - (clock w - _last_search_time w)));
                 Sleep (_min_delay_between_searches
                        - (clock w - _last_search_time w))]
           /\ (clock w1
               == _last_search_time w + _min_delay_between_searches)%Q))
  /\ (forall Input Output (self : RateLimitedAgentExecutor Input Output)
        input_data w,
        exists w1,
          invoke_cooldown self w = (Ret tt, w1)
          /\ invoke self input_data w
             = (agent_executor self input_data w1,
                Executor (agent_executor self) (min_delay self) (clock w1))
          /\ ((last_call_time self == 0)%Q -> w1 = w)
          /\ ((0 < last_call_time self)%Q ->
              (clock w - last_call_time self < min_delay self)%Q ->
              trace w1
              = trace w
                ++ [Print (RateLimitingWait
                             (min_delay self - (clock w - last_call_time self)));
                    Sleep (min_delay self - (clock w - last_call_time self))]
              /\ (clock w1 == last_call_time self + min_delay self)%Q))
  /\ _min_delay_between_searches = 5%Q
  /\ _last_search_time (boot 0) = 0%Q
  /\ (forall Input Output (agent : Input -> M Output),
        min_delay (rate_limited_executor agent) = 2%Q
        /\ last_call_time (rate_limited_executor agent) = 0%Q).
Proof.
  split; [|split; [|auto]].
  - intros E self query w o w' Hmiss Hrun. exists (cooled_down w).
    split; [apply search_cooldown_eq|].
    split; [eapply run_stamp; eauto|].
    split; [apply cooled_down_first|apply cooled_down_wait].
  - intros Input Output self input_data w. exists (waited self w).
    split; [apply invoke_cooldown_eq|].
    split; [apply invoke_eq|].
    split; [apply waited_first|apply waited_wait].
Qed.

(** C9. A call that is not answered from the cache sets the time stamp of
    its gate to the current time before the first request goes out, and the
    stamp stays, whatever becomes of the request: success, retries, the
    fallback, the error string, or an exception.  The same holds for the
    gate of the agent executor. *)
Theorem time_stamp_is_set_before_the_call :
  (forall E self query w o w',
     cache_answer self query w = None ->
     run E self query w = (o, w') ->
     exists w1,
       searches w1 = searches w
       /\ _last_search_time w1 = clock w1
       /\ run E self query w
          = attempts E self query (optimize_search_query query)
                     (py_range (max_retries self + 1)) w1
       /\ _last_search_time w' = clock w1)
  /\ (forall Input Output (self : RateLimitedAgentExecutor Input Output)
        input_data w o w' self',
        invoke self input_data w = (o, w', self') ->
        exists w1,
          invoke_cooldown self w = (Ret tt, w1)
          /\ agent_executor self input_data w1 = (o, w')
          /\ last_call_time self' = clock w1).
Proof.
  split.
  - intros E self query w o w' Hmiss Hrun. exists (dispatched query w).
    split; [apply dispatched_searches|]. split; [reflexivity|].
    split; [now apply run_dispatches|].
    rewrite dispatched_clock. eapply run_stamp; eauto.
  - intros Input Output self input_data w o w' self' H.
    rewrite invoke_eq in H. exists (waited self w).
    split; [apply invoke_cooldown_eq|].
    destruct (agent_executor self input_data (waited self w)) as [o1 w1].
    injection H as <- <- <-. auto.
Qed.


(** * The claims on concrete runs *)

Lemma E0_ok : env_ok E0.
Proof. intros n. cbn. split; lra. Qed.

Lemma default_backoff runner : (0 <= initial_backoff (default_tool runner))%Q.
Proof. cbn. lra. Qed.

(** C2 on the query "AI": four requests, then the suggestions of the
    fallback. *)
Lemma exhausted_retries_fall_back_witness :
  exists wf s w',
    run E0 (default_tool always_rate_limited) (s_ "AI") (boot 100)
    = (Ret (FallbackResult s), w')
    /\ fallback_search E0 (s_ "AI") wf = (Ret s, w')
    /\ searches w' = 4%nat
    /\ trace w'
       = [Search (s_ "AI"); Print (RetryingIn 6 1 3); Sleep 6;
          Search (s_ "AI"); Print (RetryingIn 16 2 3); Sleep 16;
          Search (s_ "AI"); Print (RetryingIn 46 3 3); Sleep 46;
          Search (s_ "AI"); Print SwitchingToFallback; Wikipedia (s_ "AI")].
Proof.
  destruct (exhausted_retries_fall_back E0 (default_tool always_rate_limited)
              (s_ "AI") (boot 100))
    as (wf & s & w' & Hrun & Hfb & Hs & Htr).
  - apply E0_ok.
  - reflexivity.
  - apply default_backoff.
  - reflexivity.
  - intros i _. eexists. split; reflexivity.
  - exists wf, s, w'. repeat split; assumption.
Defined.

(** C4 as stated fails: a search that times out raises a
    [DuckDuckGoSearchException] without "Ratelimit" in its text; the call
    then answers with the fallback, not with "Unexpected search error: ". *)
Lemma timed_out_search_falls_back :
  let self := default_tool timing_out in
  let e := DuckDuckGoSearchException (s_ "timed out") in
  search_runner self 0 (optimize_search_query (s_ "AI")) = Raise e
  /\ rate_limit_signature e = false
  /\ exists s w',
       run E0 self (s_ "AI") (boot 100) = (Ret (FallbackResult s), w')
       /\ searches w' = 1%nat
       /\ s = rate_limited_suggestions (s_ "AI")
       /\ Str.startswith (s_ "Unexpected") s = false
       /\ s <> s_ "Unexpected search error: " ++ str_exn e.
Proof.
  cbv zeta. split; [reflexivity|]. split; [reflexivity|].
  eexists _, _. split; [vm_compute; reflexivity|].
  split; [reflexivity|]. split; [vm_compute; reflexivity|].
  split; [reflexivity|]. vm_compute. discriminate.
Qed.

(** C4 as amended, on a search runner that fails for another reason. *)
Lemma other_exceptions_end_the_call_witness :
  let self := default_tool failing_once in
  searches (snd (run E0 self (s_ "AI") (boot 100))) = 1%nat
  /\ fst (run E0 self (s_ "AI") (boot 100))
     = Ret (ErrorString (s_ "Unexpected search error: boom")).
Proof.
  cbv zeta.
  apply (other_exceptions_end_the_call E0 (default_tool failing_once)
           (s_ "AI") (boot 100) _ _ 0%nat (Exception (s_ "boom"))).
  - apply surjective_pairing.
  - vm_compute. lia.
  - reflexivity.
  - reflexivity.
Defined.

(** C5 as stated fails: a first call that ends in the error string is not
    cached; the second call asks the search runner and returns something
    else. *)
Lemma failed_query_is_searched_again :
  let self := default_tool failing_once in
  exists r1 w1 r2 w2,
    use_cache self = true
    /\ run E0 self (s_ "AI") (boot 100) = (Ret r1, w1)
    /\ run E0 self (s_ "AI") w1 = (Ret r2, w2)
    /\ value r1 <> value r2
    /\ searches w2 = S (searches w1).
Proof.
  cbv zeta. eexists _, _, _, _. split; [reflexivity|].
  split; [vm_compute; reflexivity|].
  split; [vm_compute; reflexivity|].
  split; [vm_compute; discriminate|reflexivity].
Qed.

(** C6 on a filler-heavy query of thirteen words. *)
Lemma optimize_search_query_meets_spec_witness :
  optimize_search_query
    (s_ "what is the impact of AI on the future of global labor markets")
  = Spec.optimize
      (s_ "what is the impact of AI on the future of global labor markets")
  /\ Spec.optimize
       (s_ "what is the impact of AI on the future of global labor markets")
     = s_ "what impact future global labor markets".
Proof.
  split; [|vm_compute; reflexivity].
  destruct (proj1 optimize_search_query_meets_spec
              (s_ "what is the impact of AI on the future of global labor markets"))
    as [H _].
  exact H.
Defined.

(** C7 as stated fails: nine meaningful words, single-spaced, come back as
    they are. *)
Lemma nine_meaningful_words_stay :
  let query :=
    s_ "quantum computing applications machine learning research papers published recently" in
  (8 < length (Str.split query))%nat
  /\ (4 <= length (Spec.meaningful_words query))%nat
  /\ ~ optimize_search_query query <> query.
Proof.
  cbv zeta. split; [vm_compute; lia|]. split; [vm_compute; lia|].
  intros H. apply H. vm_compute. reflexivity.
Qed.

(** C7 as amended, on the filler-heavy query. *)
Lemma optimized_form_has_its_own_cache_slot_witness :
  let query :=
    s_ "what is the impact of AI on the future of global labor markets" in
  let w' := snd (run E0 (default_tool rate_limited_twice) query (boot 100)) in
  optimize_search_query query = s_ "what impact future global labor markets"
  /\ optimize_search_query query <> query
  /\ fst (run E0 (default_tool rate_limited_twice) query (boot 100))
     = Ret (SearchResult (s_ "results"))
  /\ _search_cache w' !! query = Some (s_ "results")
  /\ _search_cache w' !! optimize_search_query query = Some (s_ "results").
Proof.
  cbv zeta.
  destruct (optimized_form_has_its_own_cache_slot
              (s_ "what is the impact of AI on the future of global labor markets"))
    as (Hopt & Hfix & Hcache).
  - vm_compute. lia.
  - vm_compute. lia.
  - split; [vm_compute; reflexivity|].
    split; [vm_compute; discriminate|].
    split; [vm_compute; reflexivity|].
    apply (Hcache E0 (default_tool rate_limited_twice) (boot 100)
             (s_ "results")).
    + reflexivity.
    + vm_compute. reflexivity.
Defined.

(** C8 on a search three seconds after the last one: the gate sleeps the
    two seconds that are left, and the call is stamped at 105. *)
Lemma rate_gates_wait_out_the_minimum_delay_witness :
  exists w1,
    search_cooldown recently_searched = (Ret tt, w1)
    /\ trace w1 = [Print (SearchCooldown (5 - (103 - 100))); Sleep (5 - (103 - 100))]
    /\ (clock w1 == 105)%Q
    /\ _last_search_time
         (snd (run E0 (default_tool always_rate_limited) (s_ "AI")
                   recently_searched))
       = clock w1.
Proof.
  destruct (proj1 rate_gates_wait_out_the_minimum_delay E0
              (default_tool always_rate_limited) (s_ "AI") recently_searched
              _ _ eq_refl (surjective_pairing _))
    as (w1 & Hgate & Hstamp & _ & Hwait).
  destruct Hwait as [Htr Hclock]; [reflexivity|reflexivity|].
  exists w1. split; [assumption|]. split; [exact Htr|].
  split; [|assumption]. rewrite Hclock. reflexivity.
Defined.

(** C9 on the same search, which ends in the fallback: the stamp is the
    time of the dispatch all the same. *)
Lemma time_stamp_is_set_before_the_call_witness :
  exists w1,
    searches w1 = 1%nat
    /\ _last_search_time w1 = clock w1
    /\ _last_search_time
         (snd (run E0 (default_tool always_rate_limited) (s_ "AI")
                   recently_searched))
       = clock w1
    /\ searches
         (snd (run E0 (default_tool always_rate_limited) (s_ "AI")
                   recently_searched)) = 5%nat.
Proof.
  destruct (proj1 time_stamp_is_set_before_the_call E0
              (default_tool always_rate_limited) (s_ "AI") recently_searched
              _ _ eq_refl (surjective_pairing _))
    as (w1 & Hs & Hstamp & _ & Hfinal).
  exists w1. split; [exact Hs|]. split; [assumption|].
  split; [assumption|]. vm_compute. reflexivity.
Defined.

(** C10 on a search that fails for another reason: nothing is cached, and
    the next call asks the search runner again. *)
Lemma failures_are_not_cached_witness :
  let self := default_tool failing_once in
  let w1 := snd (run E0 self (s_ "AI") (boot 100)) in
  _search_cache w1 = _search_cache (boot 100)
  /\ (searches w1 < searches (snd (run E0 self (s_ "AI") w1)))%nat.
Proof.
  cbv zeta.
  destruct (failures_are_not_cached E0 (default_tool failing_once) (s_ "AI")
              (boot 100) (ErrorString (s_ "Unexpected search error: boom"))
              (snd (run E0 (default_tool failing_once) (s_ "AI") (boot 100))))
    as [Hsame Hnext].
  - vm_compute. reflexivity.
  - split.
    + apply Hsame. discriminate.
    + eapply Hnext; [eauto|reflexivity|apply surjective_pairing].
Defined.

(** * Further properties of the search tool *)

(** ** The optimizer *)

Lemma filter_sublist {A} (f : A -> bool) l : sublist (List.filter f l) l.
Proof.
  induction l as [|x l IH]; cbn; [constructor|].
  destruct (f x); now constructor.
Qed.

Lemma important_iff (w : pystr) :
  important w = true <->
  (2 < length w)%nat /\ ~ In (Str.lower w) filler_words.
Proof.
  unfold important. rewrite andb_true_iff, negb_true_iff, Z.ltb_lt.
  rewrite <- not_true_iff_false, mem_In. intuition lia.
Qed.

(** X1. Optimizing an optimized query changes nothing: the optimized form
    of a query is its own cache key.  A result that differs from the query
    is single-spaced: splitting it and joining the words with one space
    gives it back. *)
Theorem optimized_query_is_a_fixed_point query :
  optimize_search_query (optimize_search_query query)
  = optimize_search_query query
  /\ (optimize_search_query query <> query ->
      Str.join (s_ " ") (Str.split (optimize_search_query query))
      = optimize_search_query query).
Proof.
  split; [apply optimize_search_query_idempotent|].
  intros Hne.
  destruct (optimize_search_query_cases query) as [Heq|[Heq _]];
    [congruence|].
  rewrite Heq at 1.
  rewrite split_join by apply important_words_are_words.
  now rewrite Heq.
Qed.

Lemma optimized_query_is_a_fixed_point_witness :
  Str.join (s_ " ")
    (Str.split
       (optimize_search_query
          (s_ "what  is the impact of AI on the future of global labor markets")))
  = optimize_search_query
      (s_ "what  is the impact of AI on the future of global labor markets").
Proof.
  apply (proj2 (optimized_query_is_a_fixed_point
                  (s_ "what  is the impact of AI on the future of global labor markets"))).
  vm_compute. discriminate.
Defined.

(** X2. The optimizer only drops words: the words of its result are words
    of the query, in the same order.  When the result differs from the
    query, the query had more than eight words, the result has at least
    four, and each of them is longer than two characters and is no filler
    word. *)
Theorem optimizer_only_drops_words query :
  sublist (Str.split (optimize_search_query query)) (Str.split query)
  /\ (optimize_search_query query <> query ->
      (8 < length (Str.split query))%nat
      /\ (4 <= length (Str.split (optimize_search_query query)))%nat
      /\ Forall (fun w => (2 < length w)%nat
                          /\ ~ In (Str.lower w) filler_words)
                (Str.split (optimize_search_query query))).
Proof.
  assert (Hsplit : Str.split (Str.join (s_ " ")
                                (List.filter important (Str.split query)))
                   = List.filter important (Str.split query))
    by apply split_join, important_words_are_words.
  split.
  - destruct (optimize_search_query_cases query) as [->|[-> _]];
      [reflexivity|]. rewrite Hsplit. apply filter_sublist.
  - intros Hne. unfold optimize_search_query in *.
    destruct (Z.ltb_spec 8 (Z.of_nat (length (Str.split query))));
      [|congruence].
    destruct (Z.ltb_spec
                3 (Z.of_nat (length (List.filter important (Str.split query)))));
      [|congruence].
    rewrite Hsplit. split; [lia|]. split; [lia|].
    rewrite List.Forall_forall. intros w Hw.
    apply List.filter_In in Hw as [_ Hw]. now apply important_iff.
Qed.

Lemma optimizer_only_drops_words_witness :
  (8 < length
         (Str.split
            (s_ "what is the impact of AI on the future of global labor markets")))%nat
  /\ Forall (fun w => (2 < length w)%nat /\ ~ In (Str.lower w) filler_words)
            (Str.split
               (optimize_search_query
                  (s_ "what is the impact of AI on the future of global labor markets"))).
Proof.
  destruct (optimizer_only_drops_words
              (s_ "what is the impact of AI on the future of global labor markets"))
    as [_ H].
  destruct H as (H8 & _ & Hall); [vm_compute; discriminate|].
  split; [exact H8|exact Hall].
Defined.

(** ** The retry loop *)

Lemma attempts_never_cached E self query oq todo : forall w o w',
  attempts E self query oq todo w = (o, w') ->
  forall s, o <> Ret (CachedResult s) /\ o <> Ret (CachedOptimizedResult s).
Proof.
  induction todo as [|a rest IH]; intros w o w' H s.
  - rewrite attempts_nil in H. injection H as <- <-. split; discriminate.
  - destruct (attempts_turn E self query oq a rest w)
      as [? ? Heq|? ? Heq|? ? ? Heq|? ? ? ? Heq|? ? ? ? ? ? Heq];
      rewrite Heq in H;
      try (injection H as <- <-; split; discriminate).
    eapply IH; eauto.
Qed.

Lemma attempts_request_bound E self query oq todo : forall w o w',
  attempts E self query oq todo w = (o, w') ->
  (searches w' <= searches w + length todo)%nat.
Proof.
  induction todo as [|a rest IH]; intros w o w' H.
  - rewrite attempts_nil in H. injection H as <- <-. lia.
  - destruct (attempts_turn E self query oq a rest w)
      as [? ? Heq|? ? Heq|? ? ? Heq|? ? ? ? Heq|? ? ? ? ? ? Heq ? ? Hs];
      rewrite Heq in H.
    + injection H as <- <-. rewrite stored_searches. cbn. lia.
    + injection H as <- <-. cbn. lia.
    + injection H as <- <-. cbn. lia.
    + apply IH in H. cbn in H |- *. lia.
    + injection H as <- <-. cbn. lia.
Qed.

Lemma py_range_length n : length (py_range n) = Z.to_nat n.
Proof. unfold py_range. now rewrite length_map, length_seq. Qed.

(** X4. With a negative [max_retries] the loop has no turn: a search that
    is not answered from the cache returns [None], not a string, without
    asking the search runner; the gate is stamped all the same. *)
Theorem run_returns_None_without_retry_budget E self query w :
  max_retries self < 0 ->
  cache_answer self query w = None ->
  exists w',
    run E self query w = (Ret ImplicitNone, w')
    /\ value ImplicitNone = None
    /\ searches w' = searches w
    /\ _search_cache w' = _search_cache w
    /\ _last_search_time w' = clock w'.
Proof.
  intros Hmax Hmiss. rewrite run_dispatches by assumption.
  rewrite py_range_from.
  replace (Z.to_nat (max_retries self + 1)) with 0%nat by lia.
  exists (dispatched query w). split; [reflexivity|]. split; [reflexivity|].
  split; [apply dispatched_searches|]. split; [apply dispatched_cache|].
  reflexivity.
Qed.

Lemma run_returns_None_without_retry_budget_witness :
  exists w',
    run E0 (Tool rate_limited_twice (-1) 5 true) (s_ "AI") (boot 100)
    = (Ret ImplicitNone, w')
    /\ searches w' = 0%nat.
Proof.
  destruct (run_returns_None_without_retry_budget E0
              (Tool rate_limited_twice (-1) 5 true) (s_ "AI") (boot 100))
    as (w' & Hrun & _ & Hs & _).
  - cbn. lia.
  - reflexivity.
  - exists w'. split; assumption.
Defined.

(** X5. A search asks the search runner at most [max_retries + 1] times,
    whatever the runner answers. *)
Theorem requests_are_bounded E self query w o w' :
  run E self query w = (o, w') ->
  (searches w' <= searches w + Z.to_nat (max_retries self + 1))%nat.
Proof.
  intros Hrun.
  destruct (run_cases E self query w)
    as [(s & _ & r & w1 & Hr & _ & _ & Hs & _)|[_ Hr]]; rewrite Hr in Hrun.
  - injection Hrun as <- <-. lia.
  - apply attempts_request_bound in Hrun.
    now rewrite dispatched_searches, py_range_length in Hrun.
Qed.

Lemma requests_are_bounded_witness :
  (searches (snd (run E0 (default_tool always_rate_limited) (s_ "AI")
                      (boot 100))) <= 4)%nat.
Proof.
  apply (requests_are_bounded E0 (default_tool always_rate_limited)
           (s_ "AI") (boot 100) _ _ (surjective_pairing _)).
Defined.

(** ** The cache *)

(** X6. An entry of the cache is never overwritten and never removed: what
    a query was answered with once stays its entry for the rest of the
    process. *)
Theorem cache_entries_are_never_overwritten E w1 w2 key value :
  lifetime E w1 w2 ->
  _search_cache w1 !! key = Some value ->
  _search_cache w2 !! key = Some value.
Proof.
  induction 1 as [|? ? ? ? ? ? _ IH Hrun|? ? ? _ IH Hsame]; intros Hk.
  - assumption.
  - specialize (IH Hk).
    destruct (run_cache _ _ _ _ _ _ Hrun) as [->|(r & -> & Hq & Hoq)];
      [assumption|].
    rewrite !lookup_insert_ne; [assumption|congruence|].
    destruct Hoq; congruence.
  - rewrite Hsame. auto.
Qed.

Lemma cache_entries_are_never_overwritten_witness :
  let self := default_tool rate_limited_twice in
  let w1 := snd (run E0 self (s_ "AI") (boot 100)) in
  let w2 := snd (run E0 self (s_ "BI") w1) in
  _search_cache w2 !! s_ "AI" = Some (s_ "results").
Proof.
  cbv zeta.
  apply (cache_entries_are_never_overwritten E0
           (snd (run E0 (default_tool rate_limited_twice) (s_ "AI") (boot 100)))).
  - eapply lifetime_run; [apply lifetime_now|apply surjective_pairing].
  - vm_compute. reflexivity.
Defined.

(** X8. An instance built with [use_cache=False] never takes an answer
    from the cache and never writes one: every call leaves the cache as it
    was and, when it has a turn at all, asks the search runner, even for a
    query that is cached. *)
Theorem without_cache_every_call_searches E self query w o w' :
  use_cache self = false ->
  run E self query w = (o, w') ->
  _search_cache w' = _search_cache w
  /\ (forall s, o <> Ret (CachedResult s)
                /\ o <> Ret (CachedOptimizedResult s))
  /\ (0 <= max_retries self -> (searches w < searches w')%nat).
Proof.
  intros Hu Hrun.
  assert (Hmiss : cache_answer self query w = None).
  { apply cache_answer_None. unfold cache_lookup. rewrite Hu. auto. }
  rewrite run_dispatches in Hrun by assumption.
  pose proof (attempts_effects _ _ _ _ _ _ _ _ Hrun) as (_ & _ & Hc).
  rewrite dispatched_cache, Hu in Hc. split.
  - destruct o as [[]|]; tauto.
  - split; [eapply attempts_never_cached; eauto|].
    intros Hmax. rewrite py_range_from in Hrun.
    replace (Z.to_nat (max_retries self + 1))
      with (S (Z.to_nat (max_retries self))) in Hrun by lia.
    rewrite range_from_S in Hrun. apply attempts_asks_once in Hrun.
    now rewrite dispatched_searches in Hrun.
Qed.

Lemma without_cache_every_call_searches_witness :
  let cached_world :=
    snd (run E0 (default_tool rate_limited_twice) (s_ "AI") (boot 100)) in
  let w' :=
    snd (run E0 (Tool rate_limited_twice 3 5 false) (s_ "AI") cached_world) in
  _search_cache cached_world !! s_ "AI" = Some (s_ "results")
  /\ (searches cached_world < searches w')%nat.
Proof.
  cbv zeta. split; [vm_compute; reflexivity|].
  apply (without_cache_every_call_searches E0
           (Tool rate_limited_twice 3 5 false) (s_ "AI") _ _ _
           eq_refl (surjective_pairing _)).
  cbn. lia.
Defined.

(** X9. A call answered from the cache changes neither the cache, nor the
    time stamp of the gate, nor the number of requests.  Answered under the
    raw query it does not go through the gate at all: no time passes.
    Answered under the optimized query it has gone through the gate, and
    has slept there if the gate was closed, but has not stamped it. *)
Theorem cache_hits_do_not_stamp_the_gate E self query w s :
  cache_answer self query w = Some s ->
  exists r w',
    run E self query w = (Ret r, w')
    /\ value r = Some s
    /\ _search_cache w' = _search_cache w
    /\ _last_search_time w' = _last_search_time w
    /\ searches w' = searches w
    /\ (cache_lookup self query w = Some s -> clock w' = clock w)
    /\ (cache_lookup self query w = None ->
        clock w' = clock (cooled_down w)).
Proof.
  intros Hans. rewrite run_eq. unfold cache_answer in Hans.
  destruct (cache_lookup self query w) as [r|].
  - injection Hans as ->. eexists _, _. split; [reflexivity|].
    cbn. repeat split; auto. discriminate.
  - rewrite Hans. eexists _, _. split; [reflexivity|].
    cbn [value log searches _search_cache _last_search_time clock].
    rewrite announced_searches, cooled_down_searches,
      announced_cache, cooled_down_cache.
    unfold announced.
    destruct (bool_decide _); [discriminate|].
    cbn [log _last_search_time clock].
    repeat split; auto; try discriminate.
    unfold cooled_down. now destruct (_ && _).
Qed.

Lemma cache_hits_do_not_stamp_the_gate_witness :
  let cached_world :=
    snd (run E0 (default_tool rate_limited_twice) (s_ "AI") (boot 100)) in
  exists r w',
    run E0 (default_tool rate_limited_twice) (s_ "AI") cached_world
    = (Ret r, w')
    /\ value r = Some (s_ "results")
    /\ _last_search_time w' = _last_search_time cached_world
    /\ clock w' = clock cached_world.
Proof.
  cbv zeta.
  destruct (cache_hits_do_not_stamp_the_gate E0
              (default_tool rate_limited_twice) (s_ "AI")
              (snd (run E0 (default_tool rate_limited_twice) (s_ "AI")
                        (boot 100)))
              (s_ "results"))
    as (r & w' & Hrun & Hv & _ & Hl & _ & Hc & _).
  - vm_compute. reflexivity.
  - exists r, w'. repeat split; try assumption.
    apply Hc. vm_compute. reflexivity.
Defined.

(** ** The rate gates *)

(** X10. Searches that reach the search runner are stamped at least five
    seconds apart: once the gate has been stamped, the next call that is
    not answered from the cache is stamped no earlier than the old stamp
    plus [_min_delay_between_searches].  When the stamp is not in the
    future, the gate holds a call back for at most that delay. *)
Theorem searches_are_spaced E self query w o w' :
  (0 < _last_search_time w)%Q ->
  cache_answer self query w = None ->
  run E self query w = (o, w') ->
  (_last_search_time w + _min_delay_between_searches
   <= _last_search_time w')%Q
  /\ ((_last_search_time w <= clock w)%Q ->
      (_last_search_time w' <= clock w + _min_delay_between_searches)%Q).
Proof.
  intros Hset Hmiss Hrun.
  rewrite (run_stamp E self query w o w' Hmiss Hrun).
  unfold cooled_down, _min_delay_between_searches.
  apply Qltb_lt in Hset. rewrite Hset, andb_true_r.
  destruct (Qltb (clock w - _last_search_time w) 5) eqn:Hlt;
    cbn [clock].
  - split; [|intros]; lra.
  - apply Qltb_ge in Hlt. split; [|intros]; lra.
Qed.

Lemma searches_are_spaced_witness :
  (100 + 5
   <= _last_search_time
        (snd (run E0 (default_tool always_rate_limited) (s_ "AI")
                  recently_searched)))%Q.
Proof.
  refine (proj1 (searches_are_spaced E0 (default_tool always_rate_limited)
                   (s_ "AI") recently_searched
                   (fst (run E0 (default_tool always_rate_limited) (s_ "AI")
                             recently_searched))
                   (snd (run E0 (default_tool always_rate_limited) (s_ "AI")
                             recently_searched)) _ _ _)).
  - reflexivity.
  - reflexivity.
  - apply surjective_pairing.
Defined.

(** X11. Calls of the agent are stamped at least [min_delay] apart: once
    [last_call_time] has been set, the next [invoke] sets it no earlier than
    the old value plus [min_delay], whatever the agent then returns or
    raises. *)
Theorem agent_calls_are_spaced {Input Output}
    (self : RateLimitedAgentExecutor Input Output) input_data w o w' self' :
  (0 < last_call_time self)%Q ->
  invoke self input_data w = (o, w', self') ->
  (last_call_time self + min_delay self <= last_call_time self')%Q
  /\ min_delay self' = min_delay self.
Proof.
  intros Hset H. rewrite invoke_eq in H.
  destruct (agent_executor self input_data (waited self w)) as [o1 w1].
  injection H as <- <- <-. cbn [last_call_time min_delay].
  split; [|reflexivity]. unfold waited.
  apply Qltb_lt in Hset. rewrite Hset, andb_true_r.
  destruct (Qltb (clock w - last_call_time self) (min_delay self)) eqn:Hlt;
    cbn [clock].
  - lra.
  - apply Qltb_ge in Hlt. lra.
Qed.

Lemma agent_calls_are_spaced_witness :
  let agent : unit -> M unit := fun _ => ret tt in
  let self := Executor agent 2 100 in
  (100 + 2
   <= last_call_time (snd (invoke self tt (boot 101))))%Q.
Proof.
  cbv zeta.
  refine (proj1 (agent_calls_are_spaced
                   (Executor (fun _ : unit => ret tt) 2 100) tt (boot 101)
                   (fst (fst (invoke (Executor (fun _ : unit => ret tt) 2 100)
                                     tt (boot 101))))
                   (snd (fst (invoke (Executor (fun _ : unit => ret tt) 2 100)
                                     tt (boot 101))))
                   _ _ _)).
  - reflexivity.
  - reflexivity.
Defined.

(** ** The time spent in back-offs *)

Lemma retry_budget_nonneg self todo :
  (0 <= initial_backoff self)%Q -> (0 <= retry_budget self todo)%Q.
Proof.
  intros Hb. induction todo as [|a rest IH]; cbn [retry_budget]; [lra|].
  pose proof (three_pow_nonneg a) as Hp.
  pose proof (Qmult_le_0_compat _ _ Hb Hp).
  destruct (a <? max_retries self); lra.
Qed.

Lemma attempts_clock E self query oq :
  env_ok E -> (0 <= initial_backoff self)%Q ->
  forall todo w o w',
    attempts E self query oq todo w = (o, w') ->
    (clock w <= clock w')%Q
    /\ (clock w' <= clock w + retry_budget self todo)%Q.
Proof.
  intros HE Hb. induction todo as [|a rest IH]; intros w o w' H.
  - rewrite attempts_nil in H. injection H as <- <-. cbn. lra.
  - pose proof (retry_budget_nonneg self (a :: rest) Hb) as Hnn.
    destruct (attempts_turn E self query oq a rest w)
      as [? ? Heq|? ? Heq|? ? ? Heq|? ? ? Hlt Heq|? ? ? ? ? Hneg Heq];
      rewrite Heq in H.
    + injection H as <- <-. unfold stored.
      destruct (use_cache self); cbn [clock searched]; lra.
    + injection H as <- <-. cbn [clock searched]. lra.
    + injection H as <- <-. cbn [clock searched log looked_up]. lra.
    + apply IH in H as [Hlo Hhi]. cbn [clock retried] in Hlo, Hhi.
      pose proof (backoff_nonneg E self a (draws w) HE Hb) as Hb0.
      pose proof (jitter_range E (draws w) HE) as [_ Hj].
      cbn [retry_budget]. apply Z.ltb_lt in Hlt. rewrite Hlt.
      unfold backoff in *. lra.
    + pose proof (backoff_nonneg E self a (draws w) HE Hb). lra.
Qed.

Lemma three_pow_succ (a : nat) :
  (inject_Z (3 ^ Z.of_nat (S a)) == 3 * inject_Z (3 ^ Z.of_nat a))%Q.
Proof.
  rewrite Nat2Z.inj_succ, Z.pow_succ_r by lia.
  now rewrite inject_Z_mult.
Qed.

Lemma retry_budget_closed self : forall n a,
  Z.of_nat (a + n) = max_retries self ->
  (retry_budget self (range_from a (S n))
   == initial_backoff self
      * ((inject_Z (3 ^ max_retries self) - inject_Z (3 ^ Z.of_nat a)) / 2)
      + 3 * inject_Z (Z.of_nat n))%Q.
Proof.
  induction n as [|n IH]; intros a Hmax; rewrite range_from_S;
    cbn [retry_budget].
  - replace (Z.of_nat a <? max_retries self) with false
      by (symmetry; apply Z.ltb_ge; lia).
    rewrite <- Hmax, Nat.add_0_r. cbn [range_from seq map retry_budget].
    change (inject_Z (Z.of_nat 0)) with 0%Q. field.
  - replace (Z.of_nat a <? max_retries self) with true
      by (symmetry; apply Z.ltb_lt; lia).
    rewrite IH by lia. rewrite three_pow_succ.
    rewrite (Nat2Z.inj_succ n), <- Z.add_1_r, inject_Z_plus.
    change (inject_Z 1) with 1%Q. field.
Qed.

(** X12. The back-off sleeps of one call are bounded: a call that is not
    answered from the cache returns no later than
    [initial_backoff * (3 ^ max_retries - 1) / 2 + 3 * max_retries] seconds
    of sleep after its time stamp, and never before it.  (The clock of the
    model advances by sleeping only.) *)
Theorem backoff_time_is_bounded E self query w o w' :
  env_ok E -> 0 <= max_retries self -> (0 <= initial_backoff self)%Q ->
  cache_answer self query w = None ->
  run E self query w = (o, w') ->
  (_last_search_time w' <= clock w')%Q
  /\ (clock w'
      <= _last_search_time w'
         + initial_backoff self * ((inject_Z (3 ^ max_retries self) - 1) / 2)
         + 3 * inject_Z (max_retries self))%Q.
Proof.
  intros HE Hmax Hb Hmiss Hrun.
  rewrite (run_stamp E self query w o w' Hmiss Hrun).
  rewrite run_dispatches in Hrun by assumption.
  apply (attempts_clock E self query _ HE Hb) in Hrun as [Hlo Hhi].
  rewrite dispatched_clock in Hlo, Hhi. split; [assumption|].
  rewrite py_range_from in Hhi.
  replace (Z.to_nat (max_retries self + 1))
    with (S (Z.to_nat (max_retries self))) in Hhi by lia.
  rewrite (retry_budget_closed self (Z.to_nat (max_retries self)) 0) in Hhi
    by (cbn; lia).
  rewrite Z2Nat.id in Hhi by assumption.
  change (inject_Z (3 ^ Z.of_nat 0)) with 1%Q in Hhi. lra.
Qed.

(** With the defaults: at most 5 * 13 + 9 = 74 seconds. *)
Lemma backoff_time_is_bounded_witness :
  let w' := snd (run E0 (default_tool always_rate_limited) (s_ "AI")
                     (boot 100)) in
  (clock w' <= _last_search_time w' + 74)%Q.
Proof.
  cbv zeta.
  assert (Hmax : 0 <= max_retries (default_tool always_rate_limited))
    by (cbn; lia).
  destruct (backoff_time_is_bounded E0 (default_tool always_rate_limited)
              (s_ "AI") (boot 100) _ _ E0_ok Hmax
              (default_backoff always_rate_limited) eq_refl
              (surjective_pairing _))
    as [_ H].
  revert H. generalize (snd (run E0 (default_tool always_rate_limited)
                                 (s_ "AI") (boot 100))).
  intros w' H.
  change (inject_Z (3 ^ max_retries (default_tool always_rate_limited)))
    with 27%Q in H.
  change (inject_Z (max_retries (default_tool always_rate_limited)))
    with 3%Q in H.
  change (initial_backoff (default_tool always_rate_limited)) with 5%Q in H.
  assert (Heq : (5 * ((27 - 1) / 2) == 65)%Q) by reflexivity.
  rewrite Heq in H. lra.
Defined.

(** ** The fallback *)

Lemma startswith_app p s : Str.startswith p (p ++ s) = true.
Proof.
  induction p as [|a p IH]; cbn; [reflexivity|].
  now rewrite N.eqb_refl, IH.
Qed.

Lemma contains_cons sub c s :
  Str.contains sub s = true -> Str.contains sub (c :: s) = true.
Proof. intros H. cbn [Str.contains]. rewrite H. apply orb_true_r. Qed.

Lemma contains_here sub s : Str.contains sub (sub ++ s) = true.
Proof.
  destruct (sub ++ s) eqn:Hs; cbn [Str.contains]; rewrite <- Hs;
    now rewrite startswith_app.
Qed.

Lemma contains_after sub before s :
  Str.contains sub s = true -> Str.contains sub (before ++ s) = true.
Proof.
  intros H. induction before as [|c before IH]; cbn [app];
    [assumption|now apply contains_cons].
Qed.

Lemma contains_middle sub before after :
  Str.contains sub (before ++ sub ++ after) = true.
Proof.
  induction before as [|c before IH]; cbn [app].
  - apply contains_here.
  - now apply contains_cons.
Qed.

(** X13. [fallback_search] asks Wikipedia once and nothing else.  A
    Wikipedia text of more than 100 characters is handed on inside the
    answer; a shorter one, or an exception, gives the suggestions, which
    quote the query as it was given. *)
Theorem fallback_search_quotes_wikipedia_or_the_query E query w :
  exists s,
    fallback_search E query w = (Ret s, looked_up query w)
    /\ match wikipedia_run E (lookups w) query with
       | Ret wikipedia_result =>
           if (100 <? length wikipedia_result)%nat
           then s = wikipedia_instead wikipedia_result
                /\ Str.contains wikipedia_result s = true
           else s = rate_limited_suggestions query
                /\ Str.contains (s_ "Your query was: '" ++ query ++ s_ "'") s
                   = true
       | Raise _ =>
           s = rate_limited_suggestions query
           /\ Str.contains (s_ "Your query was: '" ++ query ++ s_ "'") s = true
       end.
Proof.
  rewrite fallback_search_eq. eexists. split; [reflexivity|].
  assert (Hq : Str.contains (s_ "Your query was: '" ++ query ++ s_ "'")
                 (rate_limited_suggestions query) = true).
  { unfold rate_limited_suggestions. do 11 apply contains_after.
    rewrite (app_assoc query),
      (app_assoc (s_ "Your query was: '") (query ++ s_ "'")).
    apply contains_here. }
  unfold fallback_text.
  destruct (wikipedia_run E (lookups w) query) as [r|e]; [|auto].
  destruct (Nat.ltb_spec 100 (length r)) as [Hlong|Hshort].
  - replace (100 <? Z.of_nat (length r)) with true
      by (symmetry; apply Z.ltb_lt; lia).
    replace (bool_decide (r = [])) with false
      by (symmetry; apply bool_decide_eq_false; intros ->; cbn in Hlong; lia).
    cbn [negb andb]. split; [reflexivity|].
    unfold wikipedia_instead. rewrite app_assoc. apply contains_middle.
  - replace (100 <? Z.of_nat (length r)) with false
      by (symmetry; apply Z.ltb_ge; lia).
    rewrite andb_false_r. auto.
Qed.

(** * The calculator *)

Lemma startswith_spec p : forall s,
  Str.startswith p s = true -> exists rest, s = p ++ rest.
Proof.
  induction p as [|a p IH]; intros s H; [now exists s|].
  destruct s as [|b s]; [discriminate|]. cbn in H.
  apply andb_true_iff in H as [Hab Hp]. apply N.eqb_eq in Hab as ->.
  destruct (IH s Hp) as (rest & ->). now exists rest.
Qed.

Lemma contains_spec sub : forall s,
  Str.contains sub s = true -> exists before after, s = before ++ sub ++ after.
Proof.
  induction s as [|c s IH]; intros H; cbn [Str.contains] in H;
    apply orb_true_iff in H as [H|H].
  - apply startswith_spec in H as (rest & ->). now exists [], rest.
  - discriminate.
  - apply startswith_spec in H as (rest & ->). now exists [], rest.
  - destruct (IH H) as (before & after & ->). now exists (c :: before), after.
Qed.

Lemma contains_before sub s after :
  Str.contains sub s = true -> Str.contains sub (s ++ after) = true.
Proof.
  intros H. apply contains_spec in H as (a & b & ->).
  rewrite <- !app_assoc. apply contains_middle.
Qed.

Lemma replace_char_app old new a b :
  PyStr.replace_char old new (a ++ b)
  = PyStr.replace_char old new a ++ PyStr.replace_char old new b.
Proof. apply flat_map_app. Qed.

Lemma replace_char_absent old new s :
  ~ In old s -> PyStr.replace_char old new s = s.
Proof.
  induction s as [|c s IH]; intros Hn; [reflexivity|].
  cbn. destruct (N.eqb_spec c old) as [->|_].
  - exfalso. apply Hn. now left.
  - cbn. f_equal. apply IH. intros Hin. apply Hn. now right.
Qed.

Lemma replace_char_removes old new s :
  ~ In old new -> ~ In old (PyStr.replace_char old new s).
Proof.
  intros Hnew. induction s as [|c s IH]; [auto|].
  cbn. rewrite in_app_iff. intros [Hin|Hin]; [|auto].
  destruct (N.eqb_spec c old) as [->|Hne]; [auto|].
  destruct Hin as [->|[]]. congruence.
Qed.

Lemma unsafe_operations_have_no_caret op :
  In op unsafe_operations -> ~ In 94%N op.
Proof.
  intros Hop. cbn in Hop.
  repeat (destruct Hop as [<-|Hop];
          [cbn; intuition discriminate|]).
  destruct Hop.
Qed.

(** X14. [calculator] refuses every expression in which one of the
    unsafe operations occurs anywhere: it answers with the refusal,
    whatever evaluating the expression would have given. *)
Theorem calculator_refuses_unsafe_operations py_eval expression op :
  In op unsafe_operations ->
  Str.contains op expression = true ->
  calculator py_eval expression
  = s_ "Invalid expression: potentially unsafe operations".
Proof.
  intros Hop Hc. unfold calculator.
  replace (existsb _ unsafe_operations) with true; [reflexivity|].
  symmetry. apply existsb_exists. exists op. split; [assumption|].
  apply contains_spec in Hc as (a & b & ->).
  rewrite !replace_char_app.
  rewrite (replace_char_absent _ _ op)
    by now apply unsafe_operations_have_no_caret.
  apply contains_middle.
Qed.

Lemma calculator_refuses_unsafe_operations_witness :
  calculator (fun _ => Ret (s_ "posix")) (s_ "__import__('os').name")
  = s_ "Invalid expression: potentially unsafe operations".
Proof.
  apply (calculator_refuses_unsafe_operations _ _ (s_ "import")).
  - cbn. auto.
  - vm_compute. reflexivity.
Defined.

(** X15. What [calculator] hands to [eval] is always a safe expression:
    there is no "^" in it and none of the unsafe operations.  So two
    evaluators that agree on the safe expressions give the same
    calculator. *)
Theorem calculator_evaluates_safe_expressions_only py_eval1 py_eval2 :
  (forall expression,
     safe_expression expression -> py_eval1 expression = py_eval2 expression) ->
  forall expression,
    calculator py_eval1 expression = calculator py_eval2 expression.
Proof.
  intros Hagree expression. unfold calculator.
  destruct (existsb _ unsafe_operations) eqn:Hex; [reflexivity|].
  rewrite Hagree; [reflexivity|]. split.
  - apply replace_char_removes. cbn. intuition discriminate.
  - intros op Hop.
    destruct (Str.contains op _) eqn:Hc; [|reflexivity].
    assert (existsb
              (fun op => Str.contains op
                           (PyStr.replace_char 94 (s_ "**") expression))
              unsafe_operations = true)
      by (apply existsb_exists; eauto).
    congruence.
Qed.

Lemma calculator_evaluates_safe_expressions_only_witness :
  calculator
    (fun e => if Str.contains (s_ "^") e then Raise (Exception (s_ "xor"))
              else Ret (s_ "8"))
    (s_ "2^3")
  = calculator (fun _ => Ret (s_ "8")) (s_ "2^3").
Proof.
  apply calculator_evaluates_safe_expressions_only.
  intros expression [Hcaret _].
  destruct (Str.contains (s_ "^") expression) eqn:Hc; [|reflexivity].
  exfalso. apply Hcaret.
  apply contains_spec in Hc as (a & b & ->).
  rewrite in_app_iff. right. now left.
Defined.

(** * The choice of the advanced tools *)

Lemma lower_app a b : PyStr.lower (a ++ b) = PyStr.lower a ++ PyStr.lower b.
Proof. apply flat_map_app. Qed.

Lemma count_char_app c a b :
  PyStr.count_char c (a ++ b)
  = (PyStr.count_char c a + PyStr.count_char c b)%nat.
Proof. unfold PyStr.count_char. now rewrite List.filter_app, length_app. Qed.

Lemma split_length s : length (Str.split s) = word_starts true s.
Proof.
  induction s as [|c s IH]; [reflexivity|].
  rewrite split_cons. cbn [word_starts].
  destruct (Str.isspace c) eqn:Hc; [assumption|].
  destruct s as [|d s']; [reflexivity|].
  cbn [word_starts] in IH |- *.
  destruct (Str.isspace d) eqn:Hd.
  - cbn [length]. now rewrite IH.
  - destruct (Str.split (d :: s')) as [|w ws]; cbn [length] in IH |- *; lia.
Qed.

Lemma word_starts_after_space s :
  (word_starts true s <= word_starts false s + 1)%nat.
Proof. destruct s as [|c s]; cbn; [lia|]. destruct (Str.isspace c); lia. Qed.

Lemma word_starts_app_l p a b :
  (word_starts p a <= word_starts p (a ++ b))%nat.
Proof.
  revert p. induction a as [|c a IH]; intros p; cbn; [lia|].
  destruct (Str.isspace c); [apply IH|].
  specialize (IH false). lia.
Qed.

Lemma word_starts_app_r a b : forall p,
  (word_starts true b
   <= word_starts p (a ++ b) + (if p then 0 else 1))%nat.
Proof.
  induction a as [|c a IH]; intros p; cbn [app].
  - pose proof (word_starts_after_space b). destruct p; lia.
  - cbn [word_starts]. destruct (Str.isspace c).
    + specialize (IH true). cbn in IH. lia.
    + specialize (IH false). cbn in IH. destruct p; lia.
Qed.

Lemma split_length_context before s after :
  (length (Str.split s) <= length (Str.split (before ++ s ++ after)))%nat.
Proof.
  rewrite !split_length.
  pose proof (word_starts_app_r before (s ++ after) true) as H1.
  pose proof (word_starts_app_l true s after) as H2.
  cbn in H1. lia.
Qed.

(** X16. A query that calls for the advanced tools still does when text
    is put before or after it.  The query [main.py] builds for the agent in
    that case, which puts a fixed sentence before the user's query, calls
    for them whatever the user's query is. *)
Theorem complex_queries_stay_complex_in_context :
  (forall before query after,
     needs_advanced_tools query = true ->
     needs_advanced_tools (before ++ query ++ after) = true)
  /\ (forall query, needs_advanced_tools (advanced_query query) = true).
Proof.
  split.
  - intros before query after H. unfold needs_advanced_tools in *.
    rewrite !lower_app.
    apply orb_true_iff in H as [H|H]; [apply orb_true_iff in H as [H|H]|].
    + apply existsb_exists in H as (k & Hk & Hc).
      rewrite orb_true_iff, orb_true_iff. left. left.
      apply existsb_exists. exists k. split; [assumption|].
      apply contains_after. now apply contains_before.
    + rewrite orb_true_iff, orb_true_iff. left. right.
      apply Z.ltb_lt in H. apply Z.ltb_lt.
      rewrite !count_char_app. lia.
    + rewrite orb_true_iff. right.
      apply Z.ltb_lt in H. apply Z.ltb_lt.
      pose proof (split_length_context before query after). lia.
  - intros query. unfold needs_advanced_tools, advanced_query.
    rewrite lower_app.
    rewrite orb_true_iff, orb_true_iff. left. left.
    apply existsb_exists. exists (s_ "complex").
    split; [cbn; auto 20|].
    apply contains_before. vm_compute. reflexivity.
Qed.

Lemma complex_queries_stay_complex_in_context_witness :
  needs_advanced_tools (s_ "Please " ++ s_ "compare tea and coffee" ++ s_ "!")
  = true.
Proof.
  apply (proj1 complex_queries_stay_complex_in_context).
  vm_compute. reflexivity.
Defined.

(** * The advanced tools of [mcp_tools.py] *)

(** X17. [web_search] always answers with a string and raises nothing,
    whatever is registered and whatever it does.  Without the MCP function
    and with the rate-limited search tool registered, it answers with the
    tool's string after "Using standard search for: " and the query; when
    the tool returns [None] or raises, it answers with the text of
    [fallback_web_search].  The world is left as the tool leaves it. *)
Theorem web_search_always_answers :
  (forall G query limit w,
     exists text w', web_search G query limit w = (Ret text, w'))
  /\ (forall E self query limit w o w',
        run E self query w = (o, w') ->
        web_search (WebSearchGlobals None (Some (search_tool_func E self)))
                   query limit w
        = (Ret match o with
               | Ret r =>
                   match value r with
                   | Some text =>
                       s_ "Using standard search for: " ++ query
                       ++ [10; 10]%N ++ text
                   | None => fallback_web_search query limit
                   end
               | Raise _ => fallback_web_search query limit
               end,
           w')).
Proof.
  split.
  - intros [mcp tool] query limit w. unfold web_search, try_except. cbn.
    destruct mcp as [f|].
    + destruct (f query limit); eauto.
    + destruct tool as [func|]; [|cbn; eauto].
      unfold bind. destruct (func query w) as [[[text|]|e] w1]; cbn; eauto.
  - intros E self query limit w o w' Hrun.
    unfold web_search, try_except, search_tool_func, bind. cbn.
    rewrite Hrun. destruct o as [r|e]; [|reflexivity].
    cbn. destruct (value r); reflexivity.
Qed.

Lemma web_search_always_answers_witness :
  web_search
    (WebSearchGlobals None
       (Some (search_tool_func E0 (Tool rate_limited_twice (-1) 5 true))))
    (s_ "AI") 5 (boot 100)
  = (Ret (fallback_web_search (s_ "AI") 5),
     snd (run E0 (Tool rate_limited_twice (-1) 5 true) (s_ "AI") (boot 100))).
Proof.
  apply (proj2 web_search_always_answers E0
           (Tool rate_limited_twice (-1) 5 true) (s_ "AI") 5 (boot 100)
           (Ret ImplicitNone)).
  vm_compute. reflexivity.
Defined.

Lemma thinking_steps_are_five problem :
  exists thinking_steps,
    length thinking_steps = 5%nat
    /\ forall steps,
         advanced_sequential_thinking problem steps
         = Str.join [10; 10]%N (PyStr.slice_to steps thinking_steps).
Proof.
  unfold advanced_sequential_thinking.
  destruct (_ || _); eexists; (split; [|reflexivity]); reflexivity.
Qed.

(** X18. The fallback of sequential thinking has five steps and no more:
    asked for five or more steps it gives all five, asked for none it gives
    the empty string, and a negative number [-k] drops the last [k] of the
    five (nothing is left from [-5] on). *)
Theorem advanced_sequential_thinking_steps_are_clipped problem steps :
  (5 <= steps ->
   advanced_sequential_thinking problem steps
   = advanced_sequential_thinking problem 5)
  /\ (steps = 0 \/ steps <= -5 ->
      advanced_sequential_thinking problem steps = [])
  /\ (-5 < steps < 0 ->
      advanced_sequential_thinking problem steps
      = advanced_sequential_thinking problem (5 + steps)).
Proof.
  destruct (thinking_steps_are_five problem) as (l & Hlen & Heq).
  rewrite !Heq. unfold PyStr.slice_to. rewrite Hlen.
  split; [|split].
  - intros H. destruct (Z.ltb_spec steps 0); [lia|]. cbn [Z.ltb Z.compare].
    rewrite !firstn_all2 by lia. reflexivity.
  - intros [->|H]; [reflexivity|].
    destruct (Z.ltb_spec steps 0); [|lia].
    replace (Z.to_nat (Z.of_nat 5 + steps)) with 0%nat by lia. reflexivity.
  - intros H. destruct (Z.ltb_spec steps 0); [|lia].
    destruct (Z.ltb_spec (5 + steps) 0); [lia|]. reflexivity.
Qed.

Lemma advanced_sequential_thinking_steps_are_clipped_witness :
  advanced_sequential_thinking (s_ "why is water wet") 12
  = advanced_sequential_thinking (s_ "why is water wet") 5
  /\ advanced_sequential_thinking (s_ "why is water wet") (-2)
     = advanced_sequential_thinking (s_ "why is water wet") (5 + -2).
Proof.
  destruct (advanced_sequential_thinking_steps_are_clipped
              (s_ "why is water wet") 12) as (H12 & _).
  destruct (advanced_sequential_thinking_steps_are_clipped
              (s_ "why is water wet") (-2)) as (_ & _ & Hneg).
  split; [apply H12; lia|apply Hneg; lia].
Defined.

Section ThinkingFacts.

Variable Value : Type.
Variable int_value : Z -> Value.

Lemma keep_thinking_agrees (f g : thinking_service Value) fuel :
  forall calls thought_number total response thoughts,
    (forall n request, (n < calls + fuel)%nat -> f n request = g n request) ->
    keep_thinking f fuel calls thought_number total response thoughts
    = keep_thinking g fuel calls thought_number total response thoughts.
Proof.
  induction fuel as [|fuel IH]; intros calls tn total response thoughts H;
    [reflexivity|].
  cbn [keep_thinking]. destruct (_ && _); [|reflexivity].
  rewrite H by lia.
  destruct (g calls _) as [response'|e]; [|reflexivity].
  apply IH. intros n request Hn. apply H. lia.
Qed.

Lemma keep_thinking_length (f : thinking_service Value) fuel :
  forall calls thought_number total response thoughts result,
    keep_thinking f fuel calls thought_number total response thoughts
    = Ret result ->
    (length thoughts <= length result <= length thoughts + fuel)%nat.
Proof.
  induction fuel as [|fuel IH]; intros calls tn total response thoughts result H;
    cbn [keep_thinking] in H.
  - injection H as <-. lia.
  - destruct (_ && _).
    + destruct (f calls _) as [response'|e]; [|discriminate].
      apply IH in H. rewrite length_app in H. cbn in H. lia.
    + injection H as <-. lia.
Qed.

(** X19. [sequential_thinking] calls the MCP function ten times at most:
    what the function would answer to a later call has no bearing on the
    result.  The result is either between one and ten numbered steps, or,
    when the function is missing or one of its calls raises, the text of
    [advanced_sequential_thinking]. *)
Theorem sequential_thinking_is_bounded problem steps :
  (forall f g : thinking_service Value,
     (forall n request, (n < 10)%nat -> f n request = g n request) ->
     sequential_thinking int_value (Some f) problem steps
     = sequential_thinking int_value (Some g) problem steps)
  /\ (forall mcp_thinking_func,
        sequential_thinking int_value mcp_thinking_func problem steps
        = advanced_sequential_thinking problem steps
        \/ exists thoughts,
             (1 <= length thoughts <= 10)%nat
             /\ sequential_thinking int_value mcp_thinking_func
                  problem steps
                = numbered_steps thoughts).
Proof.
  split.
  - intros f g H. unfold sequential_thinking.
    rewrite (H 0%nat) by lia.
    destruct (g 0%nat _) as [response|e]; [|reflexivity].
    rewrite (keep_thinking_agrees f g); [reflexivity|].
    intros n request Hn. apply H. lia.
  - intros [f|]; [|now left]. unfold sequential_thinking.
    destruct (f 0%nat _) as [response|e]; [|now left].
    destruct (keep_thinking f 9 1 1 _ response _) as [thoughts|e] eqn:Hk;
      [|now left].
    right. exists thoughts. split; [|reflexivity].
    apply keep_thinking_length in Hk. cbn in Hk. lia.
Qed.

End ThinkingFacts.

(** A service that always wants another thought is stopped after ten. *)
Lemma sequential_thinking_is_bounded_witness :
  let eager : thinking_service Z :=
    fun n _ => Ret (ThinkingResponse (Some (s_ "hm")) (Some true) None) in
  let moody : thinking_service Z :=
    fun n request =>
      if (n <? 10)%nat then eager n request
      else Raise (Exception (s_ "enough")) in
  sequential_thinking id (Some moody) (s_ "why") 5
  = sequential_thinking id (Some eager) (s_ "why") 5.
Proof.
  cbv zeta.
  apply (proj1 (sequential_thinking_is_bounded Z id (s_ "why") 5)).
  intros n request Hn.
  apply Nat.ltb_lt in Hn. now rewrite Hn.
Defined.

(** * The scraper *)

Section Scraper.
Import PyStr.

Lemma lstrip_slice s : exists before, s = before ++ lstrip s.
Proof.
  induction s as [|c s [before IH]]; [now exists []|].
  cbn. destruct (Str.isspace c); [|now exists []].
  exists (c :: before). cbn. now f_equal.
Qed.

Lemma rstrip_slice s : exists after, s = rstrip s ++ after.
Proof.
  induction s as [|c s [after IH]]; [now exists []|].
  cbn. destruct (rstrip s) as [|k kept] eqn:Hk.
  - cbn in IH. subst after.
    destruct (Str.isspace c); [now exists (c :: s)|now exists s].
  - exists after. cbn. now f_equal.
Qed.

Lemma strip_slice s : exists before after, s = before ++ strip s ++ after.
Proof.
  destruct (lstrip_slice s) as [before Hb].
  destruct (rstrip_slice (lstrip s)) as [after Ha].
  exists before, after. unfold strip. now rewrite <- Ha.
Qed.

Lemma lstrip_head s c rest : lstrip s = c :: rest -> Str.isspace c = false.
Proof.
  induction s as [|d s IH]; [discriminate|].
  cbn. destruct (Str.isspace d) eqn:Hd; [assumption|].
  intros H. injection H as <- _. assumption.
Qed.

Lemma rstrip_head s c rest :
  rstrip s = c :: rest -> exists rest', s = c :: rest'.
Proof.
  destruct s as [|d s]; [discriminate|].
  cbn. destruct (rstrip s); [destruct (Str.isspace d)|];
    intros H; try discriminate; injection H as <- _; eauto.
Qed.

Lemma rstrip_last s : forall c rest,
  rstrip s = rest ++ [c] -> Str.isspace c = false.
Proof.
  induction s as [|d s IH]; intros c rest H; [now destruct rest|].
  cbn in H. destruct (rstrip s) as [|k kept].
  - destruct (Str.isspace d) eqn:Hd; [now destruct rest|].
    destruct rest as [|r [|? ?]]; try discriminate.
    injection H as <-. assumption.
  - destruct rest as [|r rest]; [discriminate|].
    injection H as _ H. eapply IH. eassumption.
Qed.

Lemma strip_ends s :
  (forall c rest, strip s = c :: rest -> Str.isspace c = false)
  /\ (forall c rest, strip s = rest ++ [c] -> Str.isspace c = false).
Proof.
  unfold strip. split.
  - intros c rest H. apply rstrip_head in H as [rest' H].
    eapply lstrip_head; eauto.
  - apply rstrip_last.
Qed.

Lemma contains_slice sub before s after :
  Str.contains sub s = true ->
  Str.contains sub (before ++ s ++ after) = true.
Proof.
  intros H. apply contains_spec in H as (x & y & ->).
  replace (before ++ (x ++ sub ++ y) ++ after)
    with ((before ++ x) ++ sub ++ (y ++ after))
    by now rewrite <- !app_assoc.
  apply contains_middle.
Qed.

Lemma splitlines_no_linebreak s : forall after_cr,
  Forall (Forall (fun c => is_linebreak c = false))
         (splitlines_from after_cr s).
Proof.
  induction s as [|c s IH]; intros after_cr; [constructor|].
  cbn [splitlines_from].
  destruct (after_cr && _); [apply IH|].
  destruct (is_linebreak c) eqn:Hc; [constructor; [constructor|apply IH]|].
  specialize (IH false).
  destruct (splitlines_from false s) as [|line lines].
  - repeat constructor. assumption.
  - inversion IH; subst. constructor; [now constructor|assumption].
Qed.

Lemma split_sep_pieces_keep (P : N -> Prop) sep s : forall skip,
  Forall P s -> Forall (Forall P) (split_sep_from sep skip s).
Proof.
  induction s as [|c s IH]; intros skip Hs; [repeat constructor|].
  inversion Hs as [|? ? Hc Hs']; subst. cbn [split_sep_from].
  destruct skip as [|k]; [|now apply IH].
  destruct (Str.startswith sep (c :: s));
    [constructor; [constructor|now apply IH]|].
  specialize (IH 0%nat Hs').
  destruct (split_sep_from sep 0 s) as [|piece pieces].
  - repeat constructor. assumption.
  - inversion IH; subst. constructor; [now constructor|assumption].
Qed.

Lemma first_piece_is_a_prefix sep s : forall piece pieces,
  split_sep_from sep 0 s = piece :: pieces -> exists rest, s = piece ++ rest.
Proof.
  induction s as [|c s IH]; intros piece pieces H; cbn [split_sep_from] in H.
  - injection H as <- _. now exists [].
  - destruct (Str.startswith sep (c :: s)).
    + injection H as <- _. now exists (c :: s).
    + destruct (split_sep_from sep 0 s) as [|p ps] eqn:Hs.
      * injection H as <- _. destruct s; [now exists []|].
        cbn in Hs. destruct (Str.startswith sep _); [discriminate|].
        destruct (split_sep_from sep 0 s); discriminate.
      * injection H as <- _. destruct (IH p ps eq_refl) as [rest ->].
        now exists rest.
Qed.

Lemma startswith_longer p s rest :
  Str.startswith p s = true -> Str.startswith p (s ++ rest) = true.
Proof.
  intros H. apply startswith_spec in H as [t ->].
  rewrite <- app_assoc. apply startswith_app.
Qed.

Lemma split_sep_pieces_have_no_sep sep s : forall skip,
  sep <> [] ->
  Forall (fun piece => Str.contains sep piece = false)
         (split_sep_from sep skip s).
Proof.
  induction s as [|c s IH]; intros skip Hsep.
  - repeat constructor. destruct sep; [congruence|reflexivity].
  - cbn [split_sep_from]. destruct skip as [|k]; [|now apply IH].
    destruct (Str.startswith sep (c :: s)) eqn:Hstart.
    + constructor; [destruct sep; [congruence|reflexivity]|now apply IH].
    + pose proof (IH 0%nat Hsep) as Hall.
      destruct (split_sep_from sep 0 s) as [|piece pieces] eqn:Hs.
      * inversion Hall.
        repeat constructor. cbn [Str.contains].
        destruct (Str.startswith sep [c]) eqn:H1.
        -- apply (startswith_longer _ _ s) in H1. cbn in H1. congruence.
        -- destruct sep; [congruence|reflexivity].
      * inversion Hall as [|? ? Hp Hps]; subst.
        constructor; [|assumption].
        cbn [Str.contains]. rewrite Hp, orb_false_r.
        destruct (Str.startswith sep (c :: piece)) eqn:H1; [|reflexivity].
        destruct (first_piece_is_a_prefix sep s piece pieces Hs) as [rest ->].
        apply (startswith_longer _ _ rest) in H1. cbn in H1. congruence.
Qed.

Lemma strip_tidy piece :
  Forall (fun c => is_linebreak c = false) piece ->
  Str.contains (s_ "  ") piece = false ->
  strip piece <> [] ->
  tidy_line (strip piece).
Proof.
  intros Hlb Hsep Hne.
  destruct (strip_slice piece) as (before & after & Hslice).
  destruct (strip_ends piece) as [Hhead Hlast].
  repeat split; try assumption.
  - rewrite Hslice in Hlb.
    apply Forall_app in Hlb as [_ Hlb]. now apply Forall_app in Hlb as [Hlb _].
  - destruct (Str.contains (s_ "  ") (strip piece)) eqn:Hc; [|reflexivity].
    apply (contains_slice _ before _ after) in Hc.
    rewrite <- Hslice in Hc. congruence.
Qed.

(** X20. The text [scrape_webpage] cleans is tidy: it is made of lines,
    one to a line feed, none of which is empty, starts or ends with white
    space, or holds a line break or two spaces in a row. *)
Theorem clean_text_has_tidy_lines text :
  exists lines,
    clean_text text = Str.join [10%N] lines /\ Forall tidy_line lines.
Proof.
  unfold clean_text. eexists. split; [reflexivity|].
  rewrite List.Forall_forall. intros chunk Hin.
  apply List.filter_In in Hin as [Hin Hne].
  apply negb_true_iff, bool_decide_eq_false in Hne.
  apply in_flat_map in Hin as (line & Hline & Hin).
  apply in_map_iff in Hin as (piece & <- & Hpiece).
  apply in_map_iff in Hline as (raw & <- & Hraw).
  pose proof (splitlines_no_linebreak text false) as Hlb.
  rewrite List.Forall_forall in Hlb. specialize (Hlb raw Hraw).
  destruct (strip_slice raw) as (before & after & Hslice).
  rewrite Hslice in Hlb.
  apply Forall_app in Hlb as [_ Hlb]. apply Forall_app in Hlb as [Hlb _].
  pose proof (split_sep_pieces_keep _ (s_ "  ") (strip raw) 0%nat Hlb) as Hk.
  pose proof (split_sep_pieces_have_no_sep (s_ "  ") (strip raw) 0%nat) as Hs.
  rewrite List.Forall_forall in Hk, Hs.
  apply strip_tidy; [now apply Hk|apply Hs; [discriminate|assumption]|assumption].
Qed.

(** X21. What [scrape_webpage] returns for a page it could read is at
    most 8023 characters long: the cleaned text as it is when that has at
    most 8000 characters, and else its first 8000 characters followed by
    "... [content truncated]".  For a page it could not read it returns
    "Error scraping webpage: " and the text of the exception. *)
Theorem scraped_text_is_bounded get_text url :
  match get_text url with
  | Ret text =>
      (length (scrape_webpage get_text url) <= Z.to_nat 8023)%nat
      /\ ((length (clean_text text) <= Z.to_nat 8000)%nat ->
          scrape_webpage get_text url = clean_text text)
      /\ ((Z.to_nat 8000 < length (clean_text text))%nat ->
          scrape_webpage get_text url
          = firstn (Z.to_nat 8000) (clean_text text)
            ++ s_ "... [content truncated]"
          /\ length (scrape_webpage get_text url) = Z.to_nat 8023)
  | Raise e =>
      scrape_webpage get_text url = s_ "Error scraping webpage: " ++ str_exn e
  end.
Proof.
  unfold scrape_webpage. destruct (get_text url) as [text|e]; [|reflexivity].
  cbv zeta.
  destruct (Z.ltb_spec 8000 (Z.of_nat (length (clean_text text)))) as [H|H].
  - assert (Hlen : length (firstn (Z.to_nat 8000) (clean_text text)
                           ++ s_ "... [content truncated]")
                   = Z.to_nat 8023).
    { rewrite length_app, firstn_length_le by lia.
      change (length (s_ "... [content truncated]")) with 23%nat. lia. }
    split; [lia|]. split; [lia|]. auto.
  - split; [lia|]. split; [auto|lia].
Qed.

End Scraper.

(** A page whose text has blank lines, padding and double spaces. *)
Lemma scraped_text_is_bounded_witness :
  scrape_webpage
    (fun _ => Ret (s_ "  Title  " ++ [10; 10; 13; 10]%N ++ s_ "one  two   three "))
    (s_ "https://example.org")
  = s_ "Title" ++ [10%N] ++ s_ "one" ++ [10%N] ++ s_ "two" ++ [10%N]
    ++ s_ "three".
Proof.
  pose proof (scraped_text_is_bounded
                (fun _ => Ret (s_ "  Title  " ++ [10; 10; 13; 10]%N
                               ++ s_ "one  two   three "))
                (s_ "https://example.org")) as H.
  cbv beta in H. destruct H as (_ & H & _).
  rewrite H; [vm_compute; reflexivity|].
  vm_compute. lia.
Defined.

(** * The calls within the limits of the platform

    What a call of [run] promises to return depends on what [print] and
    [time.sleep] take.  [Limited.run] is the call with these limits; it is
    the call of the platform without limits as long as none is met, and ends
    in an exception, leaving the cache as it was, when one is. *)

(** ** Texts without surrogates *)

Lemma no_surrogate_app a b :
  no_surrogate (a ++ b) = no_surrogate a && no_surrogate b.
Proof. apply forallb_app. Qed.

Lemma no_surrogate_ascii (s : string) : no_surrogate (s_ s) = true.
Proof.
  unfold no_surrogate, s_. apply forallb_forall. intros c Hc.
  apply in_map_iff in Hc as (a & <- & _).
  pose proof (N_ascii_bounded a) as Ha. unfold is_surrogate.
  destruct (N.leb_spec 55296 (N_of_ascii a)); [lia|reflexivity].
Qed.

Lemma no_surrogate_str_int n : no_surrogate (PyStr.str_int n) = true.
Proof. apply no_surrogate_ascii. Qed.

Lemma no_surrogate_format_2f x : no_surrogate (format_2f x) = true.
Proof.
  unfold format_2f.
  rewrite !no_surrogate_app, !no_surrogate_str_int, !no_surrogate_ascii.
  destruct (Qltb x 0), (_ <? 10); reflexivity.
Qed.

Lemma no_surrogate_split s :
  no_surrogate s = true ->
  Forall (fun w => no_surrogate w = true) (Str.split s).
Proof.
  induction s as [|c s IH]; intros H; [constructor|].
  cbn [no_surrogate forallb] in H. apply andb_true_iff in H as [Hc Hs].
  specialize (IH Hs). rewrite split_cons.
  destruct (Str.isspace c); [assumption|].
  assert (H1 : no_surrogate [c] = true) by (cbn; now rewrite Hc).
  destruct s as [|d s']; [now repeat constructor|].
  destruct (Str.isspace d); [now constructor|].
  destruct (Str.split (d :: s')) as [|w ws]; [now repeat constructor|].
  inversion IH as [|? ? Hw Hws]; subst. constructor; [|assumption].
  cbn. now rewrite Hc.
Qed.

Lemma no_surrogate_join sep ws :
  no_surrogate sep = true ->
  Forall (fun w => no_surrogate w = true) ws ->
  no_surrogate (Str.join sep ws) = true.
Proof.
  intros Hsep. induction 1 as [|w ws Hw Hws IH]; [reflexivity|].
  destruct ws as [|w2 ws']; [assumption|].
  change (Str.join sep (w :: w2 :: ws'))
    with (w ++ sep ++ Str.join sep (w2 :: ws')).
  now rewrite !no_surrogate_app, Hw, Hsep, IH.
Qed.

Lemma no_surrogate_optimized query :
  no_surrogate query = true ->
  no_surrogate (optimize_search_query query) = true.
Proof.
  intros H. destruct (optimize_search_query_cases query) as [->|[-> _]];
    [assumption|].
  apply no_surrogate_join; [reflexivity|].
  pose proof (no_surrogate_split query H) as Hs.
  rewrite List.Forall_forall in *. intros w Hw.
  apply List.filter_In in Hw as [Hw _]. auto.
Qed.

(** Every line that [run] prints for a query without surrogates has none. *)
Lemma no_surrogate_message query m :
  no_surrogate query = true ->
  match m with
  | UsingCached q => q = query
  | OptimizedQuery q oq => q = query /\ oq = optimize_search_query query
  | UsingCachedOptimized oq => oq = optimize_search_query query
  | _ => True
  end ->
  no_surrogate (message_text m) = true.
Proof.
  intros Hq Hm. pose proof (no_surrogate_optimized query Hq) as Hoq.
  destruct m; cbn [message_text];
    repeat match goal with H : _ /\ _ |- _ => destruct H end; subst;
    rewrite ?no_surrogate_app, ?no_surrogate_ascii, ?no_surrogate_format_2f,
      ?no_surrogate_str_int, ?Hq, ?Hoq; reflexivity.
Qed.

(** ** The primitives within their limits *)

Lemma sleep_max_in_floats : (sleep_max < float_max)%Q.
Proof. vm_compute. reflexivity. Qed.

Lemma limited_print_written P m w :
  stdout_error P (message_text m) = None ->
  Limited.print P m w = (Ret tt, log (Print m) w).
Proof. intros H. unfold Limited.print. now rewrite H. Qed.

Lemma limited_time_sleep_slept seconds w :
  (0 <= seconds)%Q -> (seconds <= sleep_max)%Q ->
  Limited.time_sleep seconds w
  = (Ret tt,
     World (clock w + seconds) (_search_cache w) (_last_search_time w)
           (searches w) (lookups w) (draws w) (trace w ++ [Sleep seconds])).
Proof.
  intros H0 Hmax. unfold Limited.time_sleep.
  assert (H1 : Qltb sleep_max seconds = false) by now apply Qltb_ge.
  assert (H2 : Qltb seconds sleep_min = false).
  { apply Qltb_ge. assert (sleep_min <= 0)%Q by (vm_compute; discriminate). lra. }
  assert (H3 : Qltb seconds 0 = false) by now apply Qltb_ge.
  now rewrite H1, H2, H3.
Qed.

Lemma limited_time_sleep_cache seconds w o w' :
  Limited.time_sleep seconds w = (o, w') ->
  _search_cache w' = _search_cache w.
Proof.
  unfold Limited.time_sleep.
  destruct (_ || _); [intros [= <- <-]; reflexivity|].
  destruct (Qltb seconds 0); intros [= <- <-]; reflexivity.
Qed.

Lemma limited_float_of_int n w :
  (0 <= n)%Q -> (n < float_max)%Q -> Limited.float_of_int n w = (Ret n, w).
Proof.
  intros H0 Hmax. unfold Limited.float_of_int.
  destruct (Qle_bool float_max (Qabs n)) eqn:Hle; [|reflexivity].
  apply Qle_bool_iff in Hle. rewrite Qabs_pos in Hle by assumption. lra.
Qed.

(** ** One step of a call at a time, within the limits *)

Section LimitedFacts.

Variable P : platform.
Variable E : env.

Lemma limited_search_cooldown_cases w :
  Limited.search_cooldown P w = (Ret tt, cooled_down w)
  \/ exists e w',
       Limited.search_cooldown P w = (Raise e, w')
       /\ _search_cache w' = _search_cache w.
Proof.
  unfold Limited.search_cooldown, cooled_down, bind, time_time,
    get_last_search_time.
  destruct (Qltb (clock w - _last_search_time w) _ && _) eqn:Hc;
    [|now left].
  unfold Limited.print.
  destruct (stdout_error P _) as [msg|]; [right; eauto|].
  destruct (Limited.time_sleep _ (log _ w)) as [[[]|e] w'] eqn:Hs.
  - left. revert Hs. unfold Limited.time_sleep.
    destruct (_ || _); [discriminate|].
    destruct (Qltb _ 0); [discriminate|].
    intros [= <-]. unfold log.
    cbn [clock _search_cache _last_search_time searches lookups draws trace].
    now rewrite <- app_assoc.
  - right. apply limited_time_sleep_cache in Hs. eauto.
Qed.

(** With the time stamp not in the future, the gate sleeps five seconds at
    most. *)
Lemma limited_search_cooldown_eq w :
  unicode_stdout P ->
  (_last_search_time w <= clock w)%Q ->
  Limited.search_cooldown P w = (Ret tt, cooled_down w).
Proof.
  intros HP Hpast.
  unfold Limited.search_cooldown, cooled_down, bind, time_time,
    get_last_search_time.
  destruct (Qltb (clock w - _last_search_time w) _ && _) eqn:Hc;
    [|reflexivity].
  apply andb_true_iff in Hc as [Hlt _]. apply Qltb_lt in Hlt.
  unfold _min_delay_between_searches in *.
  rewrite limited_print_written
    by (apply HP, (no_surrogate_message []); [reflexivity|exact I]).
  rewrite limited_time_sleep_slept.
  - unfold log.
    cbn [clock _search_cache _last_search_time searches lookups draws trace].
    now rewrite <- app_assoc.
  - lra.
  - assert (5 <= sleep_max)%Q by (vm_compute; discriminate). lra.
Qed.

Lemma limited_attempts_nil self query oq w :
  Limited.attempts P E self query oq [] w = (Ret ImplicitNone, w).
Proof. reflexivity. Qed.

Lemma limited_attempts_success self query oq attempt rest w result :
  search_runner self (searches w) oq = Ret result ->
  Limited.attempts P E self query oq (attempt :: rest) w
  = (Ret (SearchResult result), stored self query oq result (searched oq w)).
Proof.
  intros H. cbn [Limited.attempts].
  unfold try_except, bind, search_runner_run, stored. rewrite H.
  destruct (use_cache self); reflexivity.
Qed.

Lemma limited_attempts_error self query oq attempt rest w msg :
  search_runner self (searches w) oq = Raise (Exception msg) ->
  Limited.attempts P E self query oq (attempt :: rest) w
  = (Ret (ErrorString (s_ "Unexpected search error: " ++ msg)), searched oq w).
Proof.
  intros H. cbn [Limited.attempts].
  unfold try_except, bind, search_runner_run. rewrite H. reflexivity.
Qed.

(** The fallback is announced first: it is not reached when that line
    cannot be written. *)
Lemma limited_attempts_fallback self query oq attempt rest w msg :
  search_runner self (searches w) oq = Raise (DuckDuckGoSearchException msg) ->
  Str.contains (s_ "Ratelimit") msg && (attempt <? max_retries self) = false ->
  Limited.attempts P E self query oq (attempt :: rest) w
  = match stdout_error P (message_text SwitchingToFallback) with
    | Some text => (Raise (Exception text), searched oq w)
    | None =>
        (Ret (FallbackResult
                (fallback_text E query
                   (log (Print SwitchingToFallback) (searched oq w)))),
         looked_up query (log (Print SwitchingToFallback) (searched oq w)))
    end.
Proof.
  intros H Hc. cbn [Limited.attempts].
  unfold try_except, bind at 1, search_runner_run. rewrite H.
  cbn [str_exn]. rewrite Hc.
  unfold bind, Limited.print. fold (searched oq w).
  destruct (stdout_error P _); [reflexivity|].
  rewrite fallback_search_eq. reflexivity.
Qed.

(** A retry goes on when the back-off is within the floats, its
    announcement can be written, and [time.sleep] takes the duration;
    otherwise the call ends in an exception, the cache being as it was. *)
Lemma limited_attempts_retry_cases self query oq attempt rest w msg :
  search_runner self (searches w) oq = Raise (DuckDuckGoSearchException msg) ->
  Str.contains (s_ "Ratelimit") msg && (attempt <? max_retries self) = true ->
  (Limited.attempts P E self query oq (attempt :: rest) w
   = Limited.attempts P E self query oq rest (retried E self oq attempt w)
   /\ (0 <= backoff E self attempt (draws w))%Q)
  \/ exists e w',
       Limited.attempts P E self query oq (attempt :: rest) w = (Raise e, w')
       /\ _search_cache w' = _search_cache w.
Proof.
  intros H Hc.
  destruct (Limited.attempts P E self query oq (attempt :: rest) w)
    as [o w'] eqn:Heq.
  revert Heq. cbn [Limited.attempts].
  unfold try_except, bind at 1, search_runner_run. rewrite H.
  cbn [str_exn]. rewrite Hc.
  unfold bind, random_uniform, bind, random_random_call, ret,
    Limited.float_of_int.
  cbn [draws log clock _search_cache _last_search_time searches lookups trace].
  destruct (Qle_bool float_max _); [intros [= <- <-]; right; eauto|].
  unfold Limited.print.
  destruct (stdout_error P _); [intros [= <- <-]; right; eauto|].
  unfold Limited.time_sleep.
  destruct (_ || _); [intros [= <- <-]; right; eauto|].
  destruct (Qltb _ 0) eqn:Hneg; [intros [= <- <-]; right; eauto|].
  intros <-. left. apply Qltb_ge in Hneg. split; [|exact Hneg].
  unfold retried, backoff, jitter, log.
  cbn [draws log clock _search_cache _last_search_time searches lookups trace].
  rewrite <- !app_assoc. reflexivity.
Qed.

Lemma limited_attempts_retry self query oq attempt rest w msg :
  unicode_stdout P -> env_ok E -> (0 <= initial_backoff self)%Q ->
  search_runner self (searches w) oq = Raise (DuckDuckGoSearchException msg) ->
  Str.contains (s_ "Ratelimit") msg && (attempt <? max_retries self) = true ->
  (backoff E self attempt (draws w) <= sleep_max)%Q ->
  Limited.attempts P E self query oq (attempt :: rest) w
  = Limited.attempts P E self query oq rest (retried E self oq attempt w).
Proof.
  intros HP HE Hb H Hc Hfit. unfold backoff in Hfit. cbn [Limited.attempts].
  unfold try_except, bind at 1, search_runner_run. rewrite H.
  cbn [str_exn]. rewrite Hc.
  pose proof (jitter_range E (draws w) HE) as [Hj1 Hj3].
  pose proof (three_pow_nonneg attempt) as Hp.
  pose proof (Qmult_le_0_compat _ _ Hb Hp) as Hprod.
  pose proof sleep_max_in_floats as Hfl.
  unfold bind at 1, random_uniform, bind at 1, random_random_call, ret.
  unfold bind at 1.
  rewrite limited_float_of_int by (assumption || lra).
  unfold bind at 1.
  rewrite limited_print_written
    by (apply HP, (no_surrogate_message []); [reflexivity|exact I]).
  unfold bind at 1. unfold jitter in Hj1, Hj3, Hfit.
  cbn [draws log clock _search_cache _last_search_time searches lookups trace].
  rewrite limited_time_sleep_slept by lra.
  unfold retried, backoff, jitter, log.
  cbn [draws log clock _search_cache _last_search_time searches lookups trace].
  rewrite <- !app_assoc. reflexivity.
Qed.

(** The limits can only end a call in an exception, and before it has
    written the cache: otherwise the call is the one of the platform
    without limits. *)
Lemma limited_attempts_cases self query oq todo : forall w,
  Limited.attempts P E self query oq todo w = attempts E self query oq todo w
  \/ exists e w',
       Limited.attempts P E self query oq todo w = (Raise e, w')
       /\ _search_cache w' = _search_cache w.
Proof.
  induction todo as [|attempt rest IH]; intros w; [now left|].
  destruct (search_runner self (searches w) oq) as [result|[msg|msg]] eqn:Hr.
  - left. now rewrite (limited_attempts_success _ _ _ _ _ _ _ Hr),
      (attempts_success E _ _ _ _ _ _ _ Hr).
  - destruct (Str.contains (s_ "Ratelimit") msg && (attempt <? max_retries self))
      eqn:Hc.
    + destruct (limited_attempts_retry_cases self query oq attempt rest w msg
                  Hr Hc) as [[Heq Hb]|(e & w' & Heq & Hcache)];
        [|right; eauto].
      rewrite Heq, (attempts_retry E self query oq attempt rest w msg Hr Hc Hb).
      destruct (IH (retried E self oq attempt w))
        as [->|(e & w' & -> & Hcache)]; [now left|right; eauto].
    + rewrite (limited_attempts_fallback self query oq attempt rest w msg Hr Hc),
        (attempts_fallback E self query oq attempt rest w msg Hr Hc).
      destruct (stdout_error P _); [right; eauto|now left].
  - left. now rewrite (limited_attempts_error _ _ _ _ _ _ _ Hr),
      (attempts_error E _ _ _ _ _ _ _ Hr).
Qed.

(** No limit is met in the loop when [sys.stdout] writes its lines and the
    back-off of every attempt that may be retried is a duration that
    [time.sleep] takes. *)
Lemma limited_attempts_within_limits self query oq todo :
  unicode_stdout P -> env_ok E -> (0 <= initial_backoff self)%Q ->
  (forall attempt, In attempt todo -> attempt < max_retries self ->
     (initial_backoff self * inject_Z (3 ^ attempt) + 3 <= sleep_max)%Q) ->
  forall w,
    Limited.attempts P E self query oq todo w
    = attempts E self query oq todo w.
Proof.
  intros HP HE Hb. induction todo as [|attempt rest IH]; intros Hfit w;
    [reflexivity|].
  destruct (search_runner self (searches w) oq) as [result|[msg|msg]] eqn:Hr.
  - now rewrite (limited_attempts_success _ _ _ _ _ _ _ Hr),
      (attempts_success E _ _ _ _ _ _ _ Hr).
  - destruct (Str.contains (s_ "Ratelimit") msg && (attempt <? max_retries self))
      eqn:Hc.
    + pose proof Hc as Hc'. apply andb_true_iff in Hc' as [_ Hlt].
      apply Z.ltb_lt in Hlt.
      rewrite (limited_attempts_retry self query oq attempt rest w msg
                 HP HE Hb Hr Hc).
      2:{ specialize (Hfit attempt (or_introl eq_refl) Hlt).
          pose proof (jitter_range E (draws w) HE) as [_ Hj].
          unfold backoff. lra. }
      rewrite (attempts_retry E self query oq attempt rest w msg Hr Hc)
        by now apply backoff_nonneg.
      apply IH. intros a Ha. apply Hfit. now right.
    + rewrite (limited_attempts_fallback self query oq attempt rest w msg Hr Hc),
        (attempts_fallback E self query oq attempt rest w msg Hr Hc).
      now rewrite (HP _ (eq_refl : no_surrogate
                                     (message_text SwitchingToFallback) = true)).
  - now rewrite (limited_attempts_error _ _ _ _ _ _ _ Hr),
      (attempts_error E _ _ _ _ _ _ _ Hr).
Qed.

(** [k] rate-limited attempts in a row, each slept off. *)
Lemma limited_attempts_retries self query oq :
  unicode_stdout P -> env_ok E -> (0 <= initial_backoff self)%Q ->
  forall k a n w,
    rate_limited_next self oq w k ->
    Z.of_nat (a + k) <= max_retries self ->
    (forall i, (i < k)%nat ->
       (backoff E self (Z.of_nat (a + i)) (draws w + i) <= sleep_max)%Q) ->
    Limited.attempts P E self query oq (range_from a (k + n)) w
    = Limited.attempts P E self query oq (range_from (a + k) n)
        (after_retries E self oq a k w).
Proof.
  intros HP HE Hb. induction k as [|k IH]; intros a n w Hrl Hmax Hfit.
  - cbn. now rewrite Nat.add_0_r.
  - destruct (Hrl 0%nat) as (e & He & Hsig); [lia|].
    rewrite Nat.add_0_r in He.
    destruct e as [msg|msg]; [|discriminate].
    cbn [rate_limit_signature] in Hsig.
    cbn [Nat.add]. rewrite range_from_S.
    rewrite (limited_attempts_retry self query oq _ _ w msg HP HE Hb He).
    + rewrite IH.
      * cbn [after_retries]. now rewrite Nat.add_succ_r.
      * intros i Hi. destruct (Hrl (S i)) as (e & He' & Hs'); [lia|].
        exists e. split; [|assumption].
        cbn [retried searches]. now rewrite Nat.add_succ_l, <- Nat.add_succ_r.
      * lia.
      * intros i Hi. cbn [retried draws].
        replace (S a + i)%nat with (a + S i)%nat by lia.
        replace (S (draws w) + i)%nat with (draws w + S i)%nat by lia.
        apply Hfit. lia.
    + rewrite Hsig. cbn. apply Z.ltb_lt. lia.
    + specialize (Hfit 0%nat). rewrite !Nat.add_0_r in Hfit. apply Hfit. lia.
Qed.

(** [run] within the limits, one return statement at a time. *)
Lemma limited_run_eq self query w :
  unicode_stdout P -> no_surrogate query = true ->
  (_last_search_time w <= clock w)%Q ->
  Limited.run P E self query w =
  match cache_lookup self query w with
  | Some result =>
      (Ret (CachedResult result), log (Print (UsingCached query)) w)
  | None =>
      match (if bool_decide (optimize_search_query query = query) then None
             else cache_lookup self (optimize_search_query query) w) with
      | Some result =>
          (Ret (CachedOptimizedResult result),
           log (Print (UsingCachedOptimized (optimize_search_query query)))
               (announced query (cooled_down w)))
      | None =>
          Limited.attempts P E self query (optimize_search_query query)
                   (py_range (max_retries self + 1)) (dispatched query w)
      end
  end.
Proof.
  intros HP Hq Hpast.
  assert (Hprint : forall m w0,
            match m with
            | UsingCached q => q = query
            | OptimizedQuery q oq =>
                q = query /\ oq = optimize_search_query query
            | UsingCachedOptimized oq => oq = optimize_search_query query
            | _ => True
            end ->
            Limited.print P m w0 = (Ret tt, log (Print m) w0)).
  { intros m w0 Hm. apply limited_print_written, HP.
    now apply (no_surrogate_message query). }
  unfold Limited.run, bind at 1, cached, cache_lookup.
  destruct (use_cache self) eqn:Hu.
  - unfold cache_get at 1. destruct (_search_cache w !! query).
    + unfold bind. now rewrite Hprint.
    + unfold bind at 1. rewrite limited_search_cooldown_eq by assumption.
      unfold dispatched, announced.
      destruct (bool_decide (optimize_search_query query = query));
        [reflexivity|].
      cbn [negb]. unfold bind at 1. unfold bind at 1.
      rewrite Hprint by (split; reflexivity).
      unfold bind at 1, cache_get.
      cbn [log _search_cache]. rewrite cooled_down_cache.
      destruct (_search_cache w !! optimize_search_query query);
        [|reflexivity].
      unfold bind at 1. now rewrite Hprint.
  - unfold ret at 1. unfold bind at 1.
    rewrite limited_search_cooldown_eq by assumption.
    unfold dispatched, announced.
    destruct (bool_decide (optimize_search_query query = query));
      [reflexivity|].
    cbn [negb]. unfold bind at 1. unfold bind at 1.
    now rewrite Hprint by (split; reflexivity).
Qed.

Lemma limited_run_cases self query w :
  Limited.run P E self query w = run E self query w
  \/ exists e w',
       Limited.run P E self query w = (Raise e, w')
       /\ _search_cache w' = _search_cache w.
Proof.
  assert (Hprint : forall m w0,
            Limited.print P m w0 = (Ret tt, log (Print m) w0)
            \/ exists text, Limited.print P m w0 = (Raise (Exception text), w0)).
  { intros m w0. unfold Limited.print.
    destruct (stdout_error P _); eauto. }
  assert (Hloop : forall w0,
            _search_cache w0 = _search_cache w ->
            Limited.attempts P E self query (optimize_search_query query)
              (py_range (max_retries self + 1)) w0
            = attempts E self query (optimize_search_query query)
                (py_range (max_retries self + 1)) w0
            \/ exists e w',
                 Limited.attempts P E self query (optimize_search_query query)
                   (py_range (max_retries self + 1)) w0 = (Raise e, w')
                 /\ _search_cache w' = _search_cache w).
  { intros w0 Hw0.
    destruct (limited_attempts_cases self query (optimize_search_query query)
                (py_range (max_retries self + 1)) w0)
      as [?|(e & w' & ? & ?)]; [now left|right].
    exists e, w'. split; [assumption|congruence]. }
  rewrite run_eq.
  destruct (Limited.run P E self query w) as [o w1] eqn:Heq. revert Heq.
  unfold Limited.run, bind at 1, cached, cache_lookup.
  destruct (use_cache self) eqn:Hu.
  - unfold cache_get at 1. destruct (_search_cache w !! query).
    + unfold bind.
      destruct (Hprint (UsingCached query) w) as [->|(text & ->)];
        intros [= <- <-]; [now left|right; eauto].
    + unfold bind at 1.
      destruct (limited_search_cooldown_cases w)
        as [->|(e & w' & -> & Hcache)];
        [|intros [= <- <-]; right; eauto].
      unfold dispatched, announced.
      destruct (bool_decide (optimize_search_query query = query)).
      * cbn [negb]. unfold bind at 1, ret at 1.
        intros <-. apply Hloop. cbn. apply cooled_down_cache.
      * cbn [negb]. unfold bind at 1. unfold bind at 1.
        destruct (Hprint (OptimizedQuery query (optimize_search_query query))
                    (cooled_down w)) as [->|(text & ->)];
          [|intros [= <- <-]; right; eexists _, _;
            split; [reflexivity|apply cooled_down_cache]].
        unfold bind at 1, cache_get.
        cbn [log _search_cache]. rewrite cooled_down_cache.
        destruct (_search_cache w !! optimize_search_query query).
        -- unfold bind at 1.
           destruct (Hprint (UsingCachedOptimized
                               (optimize_search_query query))
                       (log (Print (OptimizedQuery query
                                      (optimize_search_query query)))
                            (cooled_down w))) as [->|(text & ->)];
             intros [= <- <-]; [now left|right].
           eexists _, _. split; [reflexivity|]. cbn. apply cooled_down_cache.
        -- unfold ret at 1. intros <-. apply Hloop. cbn.
           apply cooled_down_cache.
  - unfold ret at 1. unfold bind at 1.
    destruct (limited_search_cooldown_cases w)
      as [->|(e & w' & -> & Hcache)];
      [|intros [= <- <-]; right; eauto].
    unfold dispatched, announced.
    destruct (bool_decide (optimize_search_query query = query)).
    + cbn [negb]. unfold bind at 1, ret at 1.
      intros <-. apply Hloop. cbn. apply cooled_down_cache.
    + cbn [negb]. unfold bind at 1. unfold bind at 1.
      destruct (Hprint (OptimizedQuery query (optimize_search_query query))
                  (cooled_down w)) as [->|(text & ->)];
        [|intros [= <- <-]; right; eexists _, _;
          split; [reflexivity|apply cooled_down_cache]].
      unfold bind at 1, ret at 1. intros <-. apply Hloop. cbn.
      apply cooled_down_cache.
Qed.

End LimitedFacts.

(** ** Back-offs that [time.sleep] takes *)

Lemma py_range_In a n : In a (py_range n) -> 0 <= a < n.
Proof.
  unfold py_range. intros H. apply in_map_iff in H as (i & <- & Hi).
  apply in_seq in Hi. lia.
Qed.

Lemma backoff_fits (initial : Q) (attempt retries : Z) :
  (0 <= initial)%Q -> 0 <= attempt < retries ->
  (initial * inject_Z (3 ^ (retries - 1)) + 3 <= sleep_max)%Q ->
  (initial * inject_Z (3 ^ attempt) + 3 <= sleep_max)%Q.
Proof.
  intros Hb Ha Hfit.
  assert (Hpow : (inject_Z (3 ^ attempt) <= inject_Z (3 ^ (retries - 1)))%Q)
    by (rewrite <- Zle_Qle; apply Z.pow_le_mono_r; lia).
  pose proof (Qmult_le_compat_r _ _ initial Hpow Hb) as Hm.
  rewrite !(Qmult_comm _ initial) in Hm. lra.
Qed.

(** Within the limits, the call is the call of the platform without
    limits. *)
Lemma limited_run_within_limits P E self query w :
  unicode_stdout P -> no_surrogate query = true ->
  (_last_search_time w <= clock w)%Q ->
  env_ok E -> (0 <= initial_backoff self)%Q ->
  (initial_backoff self * inject_Z (3 ^ (max_retries self - 1)) + 3
   <= sleep_max)%Q ->
  Limited.run P E self query w = run E self query w.
Proof.
  intros HP Hq Hpast HE Hb Hfit.
  rewrite limited_run_eq, run_eq by assumption.
  rewrite limited_attempts_within_limits; try assumption; [reflexivity|].
  intros attempt Hin Hlt. apply py_range_In in Hin.
  apply (backoff_fits _ _ (max_retries self)); [assumption|lia|assumption].
Qed.

(** ** The cache, within the limits *)

Lemma limited_run_cache P E self query w o w' :
  Limited.run P E self query w = (o, w') ->
  _search_cache w' = _search_cache w
  \/ exists result,
       _search_cache w'
       = <[optimize_search_query query := result]>
           (<[query := result]> (_search_cache w))
       /\ _search_cache w !! query = None
       /\ (optimize_search_query query = query
           \/ _search_cache w !! optimize_search_query query = None).
Proof.
  intros Hrun.
  destruct (limited_run_cases P E self query w) as [Heq|(e & w1 & Heq & Hc)];
    rewrite Heq in Hrun.
  - now apply (run_cache E self query w o w').
  - injection Hrun as <- <-. now left.
Qed.

Lemma limited_answers_run P E self query' w o w' query s :
  Limited.run P E self query' w = (o, w') ->
  answers (_search_cache w) query s ->
  answers (_search_cache w') query s.
Proof.
  intros Hrun Hans.
  destruct (limited_run_cases P E self query' w) as [Heq|(e & w1 & Heq & Hc)];
    rewrite Heq in Hrun.
  - now apply (answers_run E self query' w o w').
  - injection Hrun as <- <-. now rewrite Hc.
Qed.

Lemma limited_answers_lifetime P E w1 w2 query s :
  Limited.lifetime P E w1 w2 ->
  answers (_search_cache w1) query s ->
  answers (_search_cache w2) query s.
Proof.
  induction 1 as [|? ? ? ? ? ? _ IH Hrun|? ? ? _ IH Hsame]; intros Hans.
  - assumption.
  - eapply limited_answers_run; eauto.
  - rewrite Hsame. auto.
Qed.

(** A query that the cache answers is answered from it, when the lines of
    the call can be written and the gate is within reach. *)
Lemma limited_answers_served P E self query w s :
  unicode_stdout P -> no_surrogate query = true ->
  (_last_search_time w <= clock w)%Q ->
  use_cache self = true ->
  answers (_search_cache w) query s ->
  exists r w',
    Limited.run P E self query w = (Ret r, w')
    /\ value r = Some s
    /\ searches w' = searches w.
Proof.
  intros HP Hq Hpast Hu Hans.
  apply (answers_cache_answer self) in Hans; [|assumption].
  rewrite limited_run_eq by assumption. unfold cache_answer in Hans.
  destruct (cache_lookup self query w) as [r|].
  - injection Hans as ->. eexists _, _. split; [reflexivity|]. cbn. auto.
  - rewrite Hans. eexists _, _. split; [reflexivity|].
    cbn [value log searches]. split; [reflexivity|].
    now rewrite announced_searches, cooled_down_searches.
Qed.

(** A call that returns a search result leaves the cache answering its
    query with it. *)
Lemma run_result_is_cached E self query w0 r w1 s :
  use_cache self = true ->
  run E self query w0 = (Ret r, w1) ->
  r = SearchResult s \/ r = CachedResult s \/ r = CachedOptimizedResult s ->
  answers (_search_cache w1) query s.
Proof.
  intros Hu Hrun Hr.
  destruct (run_cases E self query w0)
    as [(s0 & Hans & r1 & w' & Hr1 & _ & Hcases & _ & Hc & _)|[Hmiss Hr1]];
    rewrite Hr1 in Hrun.
  - injection Hrun as <- <-. rewrite Hc.
    apply (answers_cache_answer self); [assumption|].
    destruct Hr as [->|[->| ->]], Hcases; congruence.
  - pose proof (attempts_effects _ _ _ _ _ _ _ _ Hrun) as (_ & _ & Hc).
    pose proof (attempts_never_cached _ _ _ _ _ _ _ _ Hrun s) as [Hn1 Hn2].
    rewrite dispatched_cache, Hu in Hc.
    destruct Hr as [->|[->| ->]]; [|congruence|congruence].
    destruct Hc as [_ ->]. left.
    destruct (decide (optimize_search_query query = query)) as [->|Hne].
    + apply lookup_insert_eq.
    + rewrite lookup_insert_ne by assumption. apply lookup_insert_eq.
Qed.

(** ** The claims that promise a return *)

(** C3, as the code has it.  When the first [k] attempts meet the rate-limit
    signature and the next one succeeds, [max_retries >= k], and each of the
    [k] back-offs is a duration that [time.sleep] takes (2^63 nanoseconds at
    most; the back-off of a retry uses the next draw of [random.random]),
    the call returns the value of the successful attempt after
    exactly [k + 1] requests to the search runner; before each retry it
    sleeps [initial_backoff * 3 ^ attempt + random.uniform(1, 3)] seconds,
    the jitter lying between 1 and 3.  This is for a query whose lines
    [sys.stdout] can write, and a gate whose time stamp is not in the
    future. *)
Theorem retries_then_success P E self query w (k : nat) result :
  unicode_stdout P -> no_surrogate query = true ->
  (_last_search_time w <= clock w)%Q ->
  env_ok E -> (0 <= initial_backoff self)%Q ->
  (forall attempt, (attempt < k)%nat ->
     (backoff E self (Z.of_nat attempt) (draws w + attempt) <= sleep_max)%Q) ->
  cache_answer self query w = None ->
  rate_limited_next self (optimize_search_query query) w k ->
  search_runner self (searches w + k) (optimize_search_query query)
  = Ret result ->
  Z.of_nat k <= max_retries self ->
  exists w',
    Limited.run P E self query w = (Ret (SearchResult result), w')
    /\ searches w' = (searches w + (k + 1))%nat
    /\ trace w'
       = trace (dispatched query w)
         ++ retry_events E self (optimize_search_query query) 0 (draws w) k
         ++ [Search (optimize_search_query query)]
    /\ (forall attempt n,
          backoff E self attempt n
          = (initial_backoff self * inject_Z (3 ^ attempt) + jitter E n)%Q
          /\ (1 <= jitter E n)%Q /\ (jitter E n <= 3)%Q).
Proof.
  intros HP Hq Hpast HE Hb Hfit Hmiss Hrl Hok Hmax.
  set (oq := optimize_search_query query) in *.
  rewrite limited_run_eq by assumption. fold oq.
  apply cache_answer_None in Hmiss as [Hraw Hopt]. fold oq in Hopt.
  rewrite Hraw.
  replace (if bool_decide (oq = query) then None else cache_lookup self oq w)
    with (@None pystr)
    by (destruct (bool_decide_reflect (oq = query)), Hopt; congruence).
  rewrite py_range_from.
  replace (Z.to_nat (max_retries self + 1))
    with (k + S (Z.to_nat (max_retries self) - k))%nat by lia.
  rewrite (limited_attempts_retries P E self query oq HP HE Hb k 0 _
             (dispatched query w));
    [|apply (rate_limited_next_dispatched self query oq w k); [lia|assumption]
     |cbn; lia
     |intros i Hi; rewrite dispatched_draws; now apply Hfit].
  set (wk := after_retries E self oq 0 k (dispatched query w)).
  destruct (after_retries_frame E self oq k 0 (dispatched query w))
    as (Hs & _ & _ & _ & _ & Htr). fold wk in Hs, Htr.
  rewrite dispatched_searches in Hs. rewrite dispatched_draws in Htr.
  rewrite <- Hs in Hok. rewrite range_from_S.
  rewrite (limited_attempts_success P E self query oq _ _ wk result Hok).
  eexists. split; [reflexivity|].
  rewrite stored_searches, stored_trace.
  cbn [searched searches trace]. rewrite Hs, Htr.
  split; [lia|]. split; [now rewrite <- app_assoc|].
  intros attempt n. split; [reflexivity|]. now apply jitter_range.
Qed.

(** C5, as the code has it.  With caching enabled, once a call for a query
    has returned a search result (fetched, or taken from the cache), every
    later call for that query in the same process, whatever happened in
    between, returns the very same string and does not ask the search
    runner.  A first call that ended in the fallback or in the error string
    is not covered: its output is not cached.  This is for a query whose
    lines [sys.stdout] can write, the later call being made when the time
    stamp of the gate is not in the future. *)
Theorem repeated_query_is_served_from_cache
    P E self query w0 r w1 s w2 self' :
  unicode_stdout P -> no_surrogate query = true ->
  use_cache self = true ->
  Limited.run P E self query w0 = (Ret r, w1) ->
  r = SearchResult s \/ r = CachedResult s \/ r = CachedOptimizedResult s ->
  Limited.lifetime P E w1 w2 ->
  use_cache self' = true ->
  (_last_search_time w2 <= clock w2)%Q ->
  exists r' w3,
    Limited.run P E self' query w2 = (Ret r', w3)
    /\ value r' = Some s
    /\ searches w3 = searches w2.
Proof.
  intros HP Hq Hu Hrun Hr Hlife Hu' Hpast.
  assert (Hans : answers (_search_cache w1) query s).
  { destruct (limited_run_cases P E self query w0)
      as [Heq|(e & w' & Heq & _)]; rewrite Heq in Hrun; [|discriminate].
    now apply (run_result_is_cached E self query w0 r). }
  apply (limited_answers_lifetime P E w1 w2) in Hans; [|assumption].
  now apply limited_answers_served.
Qed.

(** X3. Whatever the retry budget is, as long as it is not negative, a
    search returns a string and raises nothing within the limits of the
    platform: [sys.stdout] can write the lines of the call, the longest
    back-off, [initial_backoff * 3 ^ (max_retries - 1) + 3], is a duration
    that [time.sleep] takes, and the time stamp of the gate is not in the
    future. *)
Theorem run_returns_a_string_for_every_retry_budget P E self query w :
  unicode_stdout P -> no_surrogate query = true ->
  (_last_search_time w <= clock w)%Q ->
  env_ok E -> 0 <= max_retries self -> (0 <= initial_backoff self)%Q ->
  (initial_backoff self * inject_Z (3 ^ (max_retries self - 1)) + 3
   <= sleep_max)%Q ->
  exists r s w', Limited.run P E self query w = (Ret r, w') /\ value r = Some s.
Proof.
  intros HP Hq Hpast HE Hmax Hb Hfit.
  rewrite limited_run_within_limits, run_eq by assumption.
  destruct (cache_lookup self query w) as [r|];
    [eexists _, _, _; split; reflexivity|].
  destruct (if bool_decide _ then None else _) as [r|];
    [eexists _, _, _; split; reflexivity|].
  rewrite py_range_from.
  replace (Z.to_nat (max_retries self + 1))
    with (S (Z.to_nat (max_retries self))) by lia.
  apply attempts_returns; [assumption|assumption|lia].
Qed.

Lemma limited_lifetime_trans P E w1 w2 w3 :
  Limited.lifetime P E w1 w2 -> Limited.lifetime P E w2 w3 ->
  Limited.lifetime P E w1 w3.
Proof.
  intros H12 H23. revert H12.
  induction H23 as [|? ? ? ? ? ? _ IH Hrun|? ? ? _ IH Hsame]; intros H12.
  - assumption.
  - eapply Limited.lifetime_run; [apply IH, H12|exact Hrun].
  - eapply Limited.lifetime_other; [apply IH, H12|exact Hsame].
Qed.

(** X7. In a process that starts with the empty cache, the cache stays
    consistent with the optimizer: a cached query and its optimized form
    have the same entry.  So queries with the same optimized form share
    their result: once one of them has been searched with success, every
    other one whose lines [sys.stdout] can write is answered with the same
    string and without a request to the search runner. *)
Theorem cache_is_consistent_with_the_optimizer P E now w :
  Limited.lifetime P E (boot now) w ->
  (forall query value,
     _search_cache w !! query = Some value ->
     _search_cache w !! optimize_search_query query = Some value)
  /\ (forall self query1 s w1 w2 self' query2,
        unicode_stdout P -> no_surrogate query2 = true ->
        use_cache self = true ->
        Limited.run P E self query1 w = (Ret (SearchResult s), w1) ->
        Limited.lifetime P E w1 w2 ->
        optimize_search_query query2 = optimize_search_query query1 ->
        use_cache self' = true ->
        (_last_search_time w2 <= clock w2)%Q ->
        exists r' w3,
          Limited.run P E self' query2 w2 = (Ret r', w3)
          /\ value r' = Some s
          /\ searches w3 = searches w2).
Proof.
  assert (Hcons : forall w, Limited.lifetime P E (boot now) w ->
            forall query value,
              _search_cache w !! query = Some value ->
              _search_cache w !! optimize_search_query query = Some value).
  { clear w. intros w Hlife.
    remember (boot now) as w0 eqn:Hw0.
    induction Hlife as [|? ? ? q' ? ? _ IH Hrun|? ? ? _ IH Hsame];
      intros query value Hk.
    - subst. cbn in Hk. now rewrite lookup_empty in Hk.
    - specialize (IH Hw0).
      destruct (limited_run_cache _ _ _ _ _ _ _ Hrun)
        as [Hc|(r & Hc & Hq & Hoq)];
        rewrite Hc in Hk |- *; [auto|].
      set (c := _search_cache w2) in *.
      set (oq := optimize_search_query q') in *.
      assert (Hfresh : forall k v, c !! k = Some v ->
                <[oq := r]> (<[q' := r]> c) !! k = Some v).
      { intros k v Hkv.
        rewrite !lookup_insert_ne; [assumption|congruence|].
        destruct Hoq; congruence. }
      destruct (decide (oq = query)) as [<-|Hne1].
      + rewrite lookup_insert_eq in Hk. injection Hk as <-.
        subst oq. rewrite optimize_search_query_idempotent.
        apply lookup_insert_eq.
      + rewrite lookup_insert_ne in Hk by assumption.
        destruct (decide (q' = query)) as [<-|Hne2].
        * rewrite lookup_insert_eq in Hk. injection Hk as <-.
          apply lookup_insert_eq.
        * rewrite lookup_insert_ne in Hk by assumption. auto.
    - rewrite Hsame in *. auto. }
  intros Hboot. split; [now apply Hcons|].
  intros self query1 s w1 w2 self' query2 HP Hq2 Hu Hrun Hlife Hsame Hu' Hpast.
  assert (Hall : Limited.lifetime P E (boot now) w2).
  { eapply limited_lifetime_trans; [|eassumption].
    eapply Limited.lifetime_run; eauto. }
  assert (Hoq : _search_cache w2 !! optimize_search_query query2 = Some s).
  { assert (Hans : answers (_search_cache w1) (optimize_search_query query1) s).
    { left. destruct (limited_run_cases P E self query1 w)
        as [Heq|(e & w' & Heq & _)]; rewrite Heq in Hrun; [|discriminate].
      destruct (run_cases E self query1 w)
        as [(s0 & _ & r1 & w' & Hr & _ & Hcases & _)|[Hmiss Hr]];
        rewrite Hr in Hrun.
      - injection Hrun as -> _. destruct Hcases; discriminate.
      - pose proof (attempts_effects _ _ _ _ _ _ _ _ Hrun) as (_ & _ & _ & Hc).
        rewrite Hu in Hc. rewrite Hc. apply lookup_insert_eq. }
    apply (limited_answers_lifetime P E w1 w2) in Hans; [|assumption].
    rewrite Hsame.
    destruct Hans as [?|(_ & Hne & _)]; [assumption|].
    now rewrite optimize_search_query_idempotent in Hne. }
  apply limited_answers_served; try assumption. unfold answers.
  destruct (_search_cache w2 !! query2) as [v|] eqn:Hq2'.
  - left. apply (Hcons w2 Hall) in Hq2'. congruence.
  - right. split; [reflexivity|]. split; [|assumption].
    intros Heq. rewrite Heq in Hoq. congruence.
Qed.

(** ** On concrete runs *)

Lemma utf8_error_from_None text : forall position,
  no_surrogate text = true -> utf8_error_from position text = None.
Proof.
  induction text as [|c text IH]; intros position H; [reflexivity|].
  cbn [no_surrogate forallb] in H. apply andb_true_iff in H as [Hc Ht].
  cbn [utf8_error_from]. apply negb_true_iff in Hc. rewrite Hc. now apply IH.
Qed.

Lemma utf8_unicode_stdout : unicode_stdout utf8.
Proof. intros text H. now apply utf8_error_from_None. Qed.

(** C1 fails on the code.  The line that announces a cached result is
    printed outside every [try] (line 81): for a query that [sys.stdout]
    cannot encode, here a lone surrogate on a UTF-8 stream, the first call
    of [run] (default [max_retries = 3]) fetches and caches the result, and
    the second call raises [UnicodeEncodeError] where it should return the
    cached string. *)
Lemma lone_surrogate_query_raises :
  let self := default_tool answering in
  let query := [55296%N] in
  let w1 := snd (Limited.run utf8 E0 self query (boot 100)) in
  max_retries self = 3
  /\ fst (Limited.run utf8 E0 self query (boot 100))
     = Ret (SearchResult (s_ "results"))
  /\ _search_cache w1 !! query = Some (s_ "results")
  /\ Limited.run utf8 E0 self query w1
     = (Raise (Exception (s_ "'utf-8' codec can't encode character '\ud800' in position 34: surrogates not allowed")),
        w1).
Proof.
  cbv zeta. split; [reflexivity|]. split; [vm_compute; reflexivity|].
  split; vm_compute; reflexivity.
Qed.

(** C3 as amended, with [k = 2]: two rate-limited attempts, then the
    result. *)
Lemma retries_then_success_witness :
  exists w',
    Limited.run utf8 E0 (default_tool rate_limited_twice) (s_ "AI") (boot 100)
    = (Ret (SearchResult (s_ "results")), w')
    /\ searches w' = 3%nat
    /\ trace w'
       = [Search (s_ "AI"); Print (RetryingIn 6 1 3); Sleep 6;
          Search (s_ "AI"); Print (RetryingIn 16 2 3); Sleep 16;
          Search (s_ "AI")].
Proof.
  destruct (retries_then_success utf8 E0 (default_tool rate_limited_twice)
              (s_ "AI") (boot 100) 2 (s_ "results"))
    as (w' & Hrun & Hs & Htr & _).
  - apply utf8_unicode_stdout.
  - reflexivity.
  - vm_compute. discriminate.
  - apply E0_ok.
  - apply default_backoff.
  - intros [|[|i]] Hi; [vm_compute; discriminate|vm_compute; discriminate|lia].
  - reflexivity.
  - intros i Hi. eexists.
    destruct i as [|[|i]]; [split; reflexivity|split; reflexivity|lia].
  - reflexivity.
  - cbn. lia.
  - exists w'. repeat split; assumption.
Defined.

(** C3 as stated fails.  With the default back-off of 5 seconds,
    [max_retries = 21] and a search runner that is rate limited 21 times and
    then answers, the back-off of attempt 20 is 5 * 3^20 + 1 seconds, more
    than 2^63 nanoseconds: [time.sleep] raises [OverflowError] inside the
    [except] handler, and the call ends in that exception after 21
    requests, not in the result. *)
Lemma overlong_backoff_raises :
  let self := Tool (rate_limited_until 21) 21 5 true in
  let out := Limited.run utf8 E0 self (s_ "AI") (boot 100) in
  rate_limited_next self (optimize_search_query (s_ "AI")) (boot 100) 21
  /\ search_runner self (searches (boot 100) + 21)
                   (optimize_search_query (s_ "AI"))
     = Ret (s_ "results")
  /\ 21 <= max_retries self
  /\ backoff E0 self 20 20 = 17433922006%Q
  /\ (sleep_max < 17433922006)%Q
  /\ fst out
     = Raise (Exception (s_ "timestamp too large to convert to C _PyTime_t"))
  /\ searches (snd out) = 21%nat.
Proof.
  cbv zeta. split.
  { intros i Hi. apply Nat.ltb_lt in Hi. eexists.
    split; [cbv [search_runner rate_limited_until searches boot Nat.add];
            rewrite Hi|]; reflexivity. }
  split; [reflexivity|]. split; [cbn; lia|].
  split; [vm_compute; reflexivity|]. split; [vm_compute; reflexivity|].
  split; vm_compute; reflexivity.
Qed.

(** A back-off beyond the floats ends the call in line 117, before the
    retry is announced. *)
Example backoff_beyond_the_floats :
  let self := Tool (rate_limited_until 1) 3 (inject_Z (2 ^ 1024)) true in
  Limited.run utf8 E0 self (s_ "AI") (boot 100)
  = (Raise (Exception (s_ "int too large to convert to float")),
     World 100 ∅ 100 1 0 1 [Search (s_ "AI")]).
Proof. vm_compute. reflexivity. Qed.

(** C5 as amended: "AI" is fetched, "BI" is searched in between, and "AI"
    then comes from the cache. *)
Lemma repeated_query_is_served_from_cache_witness :
  let self := default_tool rate_limited_twice in
  let w1 := snd (Limited.run utf8 E0 self (s_ "AI") (boot 100)) in
  let w2 := snd (Limited.run utf8 E0 self (s_ "BI") w1) in
  exists r' w3,
    Limited.run utf8 E0 self (s_ "AI") w2 = (Ret r', w3)
    /\ value r' = Some (s_ "results")
    /\ searches w3 = searches w2.
Proof.
  cbv zeta.
  apply (repeated_query_is_served_from_cache utf8 E0
           (default_tool rate_limited_twice) (s_ "AI") (boot 100)
           (SearchResult (s_ "results"))
           (snd (Limited.run utf8 E0 (default_tool rate_limited_twice)
                   (s_ "AI") (boot 100)))).
  - apply utf8_unicode_stdout.
  - reflexivity.
  - reflexivity.
  - vm_compute. reflexivity.
  - now left.
  - eapply Limited.lifetime_run;
      [apply Limited.lifetime_now|apply surjective_pairing].
  - reflexivity.
  - vm_compute. discriminate.
Defined.

Lemma run_returns_a_string_for_every_retry_budget_witness :
  exists r s w',
    Limited.run utf8 E0 (Tool always_rate_limited 0 5 true) (s_ "AI")
      (boot 100)
    = (Ret r, w')
    /\ value r = Some s.
Proof.
  apply run_returns_a_string_for_every_retry_budget.
  - apply utf8_unicode_stdout.
  - reflexivity.
  - vm_compute. discriminate.
  - apply E0_ok.
  - cbn. lia.
  - cbn. lra.
  - vm_compute. discriminate.
Defined.

(** Two wordings of one question: the second is answered from what the
    first has fetched. *)
Lemma cache_is_consistent_with_the_optimizer_witness :
  let query1 :=
    s_ "what is the impact of AI on the future of global labor markets" in
  let query2 :=
    s_ "what is the impact of AI in the future of the global labor markets" in
  let self := default_tool rate_limited_twice in
  let w2 := snd (Limited.run utf8 E0 self query1 (boot 100)) in
  exists r' w3,
    Limited.run utf8 E0 self query2 w2 = (Ret r', w3)
    /\ value r' = Some (s_ "results")
    /\ searches w3 = searches w2.
Proof.
  cbv zeta.
  apply (proj2 (cache_is_consistent_with_the_optimizer utf8 E0 100 (boot 100)
                  (Limited.lifetime_now utf8 E0 _))
           (default_tool rate_limited_twice)
           (s_ "what is the impact of AI on the future of global labor markets")
           (s_ "results")
           (snd (Limited.run utf8 E0 (default_tool rate_limited_twice)
                     (s_ "what is the impact of AI on the future of global labor markets")
                     (boot 100)))).
  - apply utf8_unicode_stdout.
  - reflexivity.
  - reflexivity.
  - vm_compute. reflexivity.
  - apply Limited.lifetime_now.
  - vm_compute. reflexivity.
  - reflexivity.
  - vm_compute. discriminate.
Defined.
